(** * A shallow embedding of the koa-style router (lib/layer.js, lib/router.js)

    The development follows the two source files:
    - [Js]      : the JavaScript built-ins the router relies on (string case
                  mapping, [Array.prototype.join], [indexOf], ordinary objects
                  with their own-property order, [decodeURIComponent]);
    - [Layer]   : lib/layer.js, one route entry;
    - [Router]  : lib/router.js, the registry, the dispatcher and the
                  allowed-methods middleware.

    JavaScript strings are modelled as byte strings holding UTF-8 text.
    Arrays that the program shares and mutates in place (the middleware stack
    of a layer) live in an explicit store and are referred to by location,
    and so do the router objects.  Paths are strings; [redirect] is left
    out, as the function it registers calls [ctx.redirect] of Koa.  The
    behaviour of the functions that the user registers is a parameter of the
    execution of middleware. *)

From Stdlib Require Import String Ascii List ZArith NArith Lia Bool DecimalString.
From Stdlib Require Import Sorting.Sorted Permutation.
From stdpp Require Import base list.
Import ListNotations.

Local Open Scope string_scope.
Local Open Scope list_scope.

(* ===================================================================== *)
(** ** JavaScript built-ins *)
(* ===================================================================== *)

Module Js.

(** [String.prototype.toUpperCase] on the ASCII range; bytes of non-ASCII
    characters are left alone. *)
Definition upper_ascii (a : ascii) : ascii :=
  let n := N_of_ascii a in
  if ((97 <=? n) && (n <=? 122))%N then ascii_of_N (n - 32) else a.

Fixpoint toUpperCase (s : string) : string :=
  match s with
  | EmptyString => EmptyString
  | String a r => String (upper_ascii a) (toUpperCase r)
  end.

(** [Array.prototype.join]. *)
Fixpoint join (sep : string) (l : list string) : string :=
  match l with
  | [] => EmptyString
  | [x] => x
  | x :: r => x ++ sep ++ join sep r
  end.

(** [Array.prototype.indexOf] on an array whose elements are compared with
    the searched value by [eqb] (strict equality); [-1] when the element is absent. *)
Fixpoint indexOf_from {A B : Type} (eqb : A -> B -> bool) (x : B) (l : list A) (i : Z) : Z :=
  match l with
  | [] => (-1)%Z
  | y :: r => if eqb y x then i else indexOf_from eqb x r (i + 1)%Z
  end.

Definition indexOf {A B : Type} (eqb : A -> B -> bool) (x : B) (l : list A) : Z :=
  indexOf_from eqb x l 0%Z.

(** JavaScript truthiness of a string, and of a value that may be undefined. *)
Definition truthy_str (s : string) : bool := negb (s =? EmptyString).

Definition truthy_opt (o : option string) : bool :=
  match o with Some s => truthy_str s | None => false end.

(** [a || b] where [a] is a possibly undefined string. *)
Definition or_str (a : option string) (b : option string) : option string :=
  if truthy_opt a then a else b.

(** *** Ordinary objects

    An object created by [{}] is modelled by its own enumerable string-keyed
    properties in creation order.  Reads fall back on [Object.prototype]. *)

Definition Obj (V : Type) := list (string * V).

Definition digit_of (a : ascii) : option N :=
  let n := N_of_ascii a in
  if ((48 <=? n) && (n <=? 57))%N then Some (n - 48)%N else None.

Fixpoint parse_digits (acc : N) (s : string) : option N :=
  match s with
  | EmptyString => Some acc
  | String a r =>
      match digit_of a with
      | Some d => parse_digits (acc * 10 + d)%N r
      | None => None
      end
  end.

(** A property key is an array index when it is the canonical decimal form of
    an integer below 2^32 - 1; such keys are enumerated first, in ascending
    order. *)
Definition array_index (k : string) : option N :=
  match k with
  | EmptyString => None
  | String a r =>
      if (N_of_ascii a =? 48)%N then
        match r with
        | EmptyString => Some 0%N
        | _ => None
        end
      else
        match parse_digits 0 k with
        | Some n => if (n <? 4294967295)%N then Some n else None
        | None => None
        end
  end.

Definition is_array_index (k : string) : bool :=
  match array_index k with Some _ => true | None => false end.

(** The names that every ordinary object inherits from [Object.prototype]. *)
Definition prototype_names : list string :=
  [ "constructor"; "__defineGetter__"; "__defineSetter__"; "hasOwnProperty";
    "__lookupGetter__"; "__lookupSetter__"; "isPrototypeOf";
    "propertyIsEnumerable"; "toString"; "valueOf"; "__proto__";
    "toLocaleString" ].

Definition inherited (k : string) : bool :=
  existsb (String.eqb k) prototype_names.

Section Objects.
Context {V : Type}.

Fixpoint own (o : Obj V) (k : string) : option V :=
  match o with
  | [] => None
  | (k', v) :: r => if k' =? k then Some v else own r k
  end.

Fixpoint replace_own (k : string) (v : V) (o : Obj V) : Obj V :=
  match o with
  | [] => []
  | (k', v') :: r =>
      if k' =? k then (k', v) :: r else (k', v') :: replace_own k v r
  end.

(** [o[k] = v] for a value [v] that is a string or a function.  Writing
    [__proto__] goes through the accessor of [Object.prototype] and never
    creates an own property. *)
Definition set (k : string) (v : V) (o : Obj V) : Obj V :=
  if k =? "__proto__" then o
  else match own o k with
       | Some _ => replace_own k v o
       | None => o ++ [(k, v)]
       end.

Fixpoint insert_by_index (e : N * string) (l : list (N * string)) : list (N * string) :=
  match l with
  | [] => [e]
  | e' :: r => if (fst e <=? fst e')%N then e :: l else e' :: insert_by_index e r
  end.

Fixpoint index_keys (o : Obj V) : list (N * string) :=
  match o with
  | [] => []
  | (k, _) :: r =>
      match array_index k with
      | Some n => insert_by_index (n, k) (index_keys r)
      | None => index_keys r
      end
  end.

Fixpoint name_keys (o : Obj V) : list string :=
  match o with
  | [] => []
  | (k, _) :: r => if is_array_index k then name_keys r else k :: name_keys r
  end.

(** [Object.keys(o)]: array-index keys in ascending order, then the other
    keys in creation order. *)
Definition keys (o : Obj V) : list string :=
  map snd (index_keys o) ++ name_keys o.

(** The result of reading [o[k]]. *)
Inductive Read : Type :=
| Own (v : V)
| Inherited
| Undefined.

Definition get (o : Obj V) (k : string) : Read :=
  match own o k with
  | Some v => Own v
  | None => if inherited k then Inherited else Undefined
  end.
End Objects.

Arguments Read : clear implicits.

(** Truthiness of a property read whose own values are strings. *)
Definition truthy_read (r : Read string) : bool :=
  match r with
  | Own s => truthy_str s
  | Inherited => true
  | Undefined => false
  end.

(** *** [decodeURIComponent]

    The Decode operation of ECMA-262 with an empty reserved set.  [None]
    stands for the [URIError] it throws. *)

Definition hex_of (a : ascii) : option N :=
  let n := N_of_ascii a in
  if ((48 <=? n) && (n <=? 57))%N then Some (n - 48)%N
  else if ((65 <=? n) && (n <=? 70))%N then Some (n - 55)%N
  else if ((97 <=? n) && (n <=? 102))%N then Some (n - 87)%N
  else None.

Inductive UriToken : Type :=
| Lit (a : ascii)
| Esc (b : N).

Fixpoint uri_tokens (s : string) : option (list UriToken) :=
  match s with
  | EmptyString => Some []
  | String "%" (String h1 (String h2 r)) =>
      match hex_of h1, hex_of h2, uri_tokens r with
      | Some d1, Some d2, Some ts => Some (Esc (16 * d1 + d2) :: ts)
      | _, _, _ => None
      end
  | String "%" _ => None
  | String a r =>
      match uri_tokens r with
      | Some ts => Some (Lit a :: ts)
      | None => None
      end
  end.

Definition between (lo hi b : N) : bool := ((lo <=? b) && (b <=? hi))%N.

Definition cont (b : N) : bool := between 128 191 b.

(** Well-formed UTF-8 sequences of two, three and four bytes. *)
Definition utf8_2 (b1 b2 : N) : bool := between 194 223 b1 && cont b2.

Definition utf8_3 (b1 b2 b3 : N) : bool :=
  ((b1 =? 224)%N && between 160 191 b2 && cont b3)
  || (between 225 236 b1 && cont b2 && cont b3)
  || ((b1 =? 237)%N && between 128 159 b2 && cont b3)
  || (between 238 239 b1 && cont b2 && cont b3).

Definition utf8_4 (b1 b2 b3 b4 : N) : bool :=
  ((b1 =? 240)%N && between 144 191 b2 && cont b3 && cont b4)
  || (between 241 243 b1 && cont b2 && cont b3 && cont b4)
  || ((b1 =? 244)%N && between 128 143 b2 && cont b3 && cont b4).

Definition bytes (l : list N) (rest : string) : string :=
  fold_right (fun b s => String (ascii_of_N b) s) rest l.

Fixpoint decode_tokens (ts : list UriToken) : option string :=
  match ts with
  | [] => Some EmptyString
  | Lit a :: r =>
      match decode_tokens r with Some s => Some (String a s) | None => None end
  | Esc b :: r =>
      if (b <? 128)%N then
        match decode_tokens r with
        | Some s => Some (String (ascii_of_N b) s)
        | None => None
        end
      else if between 192 223 b then
        match r with
        | Esc b2 :: r2 =>
            if utf8_2 b b2 then
              match decode_tokens r2 with
              | Some s => Some (bytes [b; b2] s)
              | None => None
              end
            else None
        | _ => None
        end
      else if between 224 239 b then
        match r with
        | Esc b2 :: Esc b3 :: r3 =>
            if utf8_3 b b2 b3 then
              match decode_tokens r3 with
              | Some s => Some (bytes [b; b2; b3] s)
              | None => None
              end
            else None
        | _ => None
        end
      else if between 240 247 b then
        match r with
        | Esc b2 :: Esc b3 :: Esc b4 :: r4 =>
            if utf8_4 b b2 b3 b4 then
              match decode_tokens r4 with
              | Some s => Some (bytes [b; b2; b3; b4] s)
              | None => None
              end
            else None
        | _ => None
        end
      else None
  end.

Definition decodeURIComponent (s : string) : option string :=
  match uri_tokens s with
  | Some ts => decode_tokens ts
  | None => None
  end.

End Js.

(* ===================================================================== *)
(** ** Values, exceptions and the store of shared arrays *)
(* ===================================================================== *)

(** JavaScript functions are reference values; a user function is known by
    its identity. *)
Definition FnId := nat.

(** A location of the store. *)
Abbreviation loc := nat.

(** What a middleware stack may hold. *)
Inductive Middleware : Type :=
| Fn (f : FnId)
    (** a function supplied by the user, called as [f(ctx, next)] *)
| ParamFn (param : string) (f : FnId)
    (** the wrapper built by [Layer.prototype.param]: its [param] property is
        [param] and it calls [f(ctx.params[param], ctx, next)] *)
| Dispatch (router : loc)
    (** the function returned by [routes()] of the router at [router]; its
        [router] property refers to that router *)
| NotFn (type : string).
    (** a value, other than [undefined] and [null], whose [typeof] is
        [type], not ['function'] *)

(** The [param] property of a stack element. *)
Definition param_of (m : Middleware) : option string :=
  match m with
  | ParamFn p _ => Some p
  | _ => None
  end.

Definition typeof (m : Middleware) : string :=
  match m with
  | NotFn ty => ty
  | _ => "function"
  end.

(** Values passed to URL generation. *)
#[warnings="-register-all"]
Inductive Val : Type :=
| VUndefined
| VNull
| VBool (b : bool)
| VNum (z : Z)
| VStr (s : string)
| VObj (props : list (string * Val))
| VArr (items : list Val).

Definition typeof_val (v : Val) : string :=
  match v with
  | VUndefined => "undefined"
  | VBool _ => "boolean"
  | VNum _ => "number"
  | VStr _ => "string"
  | VNull | VObj _ | VArr _ => "object"
  end.

Definition truthy_val (v : Val) : bool :=
  match v with
  | VUndefined | VNull => false
  | VBool b => b
  | VNum z => negb (z =? 0)%Z
  | VStr s => Js.truthy_str s
  | VObj _ | VArr _ => true
  end.

(** Exceptions. *)
Inductive Exn : Type :=
| TypeError (msg : string)
| Error (msg : string)
| NotImplemented
| MethodNotAllowed
| Thrown (v : Val).

(** The store of middleware arrays; a location is an index. *)
Abbreviation Heap := (list (list Middleware)).

Definition read_array (h : Heap) (l : loc) : list Middleware :=
  default [] (h !! l).

Definition alloc_array (a : list Middleware) (h : Heap) : loc * Heap :=
  (length h, h ++ [a]).

(** *** Computations that update a state and may throw

    The state reached before a throw is kept, as in JavaScript. *)
Definition M (S A : Type) : Type := S -> (Exn + A) * S.

Definition ret {S A : Type} (a : A) : M S A := fun s => (inr a, s).

Definition throw {S A : Type} (e : Exn) : M S A := fun s => (inl e, s).

Definition bind {S A B : Type} (m : M S A) (k : A -> M S B) : M S B :=
  fun s =>
    match m s with
    | (inr a, s') => k a s'
    | (inl e, s') => (inl e, s')
    end.

Definition gets {S A : Type} (f : S -> A) : M S A := fun s => (inr (f s), s).

Definition modify {S : Type} (f : S -> S) : M S unit := fun s => (inr tt, f s).

Declare Scope js_scope.
Delimit Scope js_scope with js.
Notation "'let!' x ':=' m 'in' k" := (bind m (fun x => k))
  (at level 10, x name, m at level 100, k at level 200) : js_scope.
Notation "'run!' m 'in' k" := (bind m (fun _ => k))
  (at level 10, m at level 100, k at level 200) : js_scope.

(** A [for] loop over the elements of an array. *)
Fixpoint for_each {S A : Type} (l : list A) (body : A -> M S unit) : M S unit :=
  match l with
  | [] => ret tt
  | x :: r => bind (body x) (fun _ => for_each r body)
  end.

(* ===================================================================== *)
(** ** The path-to-regexp package and the url module of Node

    Both are outside the repository; the router is parametrised by them. *)
(* ===================================================================== *)

(** The [name] of a key of path-to-regexp: a string for [:name], a number
    for an unnamed group. *)
Inductive KeyName : Type :=
| KName (s : string)
| KIndex (n : N).

Definition nat_string (n : N) : string :=
  NilEmpty.string_of_uint (N.to_uint n).

(** The property key a key name is converted to. *)
Definition prop_key (k : KeyName) : string :=
  match k with
  | KName s => s
  | KIndex n => nat_string n
  end.

(** [k === s] for a string [s]. *)
Definition key_is (k : KeyName) (s : string) : bool :=
  match k with
  | KName s' => s' =? s
  | KIndex _ => false
  end.

(** A compiled pattern: [exec] gives the capture groups of a match, each of
    them possibly undefined, or [None] when the path does not match. *)
Record RegExp : Type := { exec : string -> option (list (option string)) }.

(** The option bag that [Router.prototype.register] hands to a layer. *)
Record LayerOpts : Type := {
  opt_end : bool;
  opt_name : option string;
  opt_sensitive : bool;
  opt_strict : bool;
  opt_prefix : string;
  opt_ignoreCaptures : bool
}.

(** A token of [parse(path)]. *)
Inductive Token : Type :=
| TText (s : string)
| TKey (name : KeyName).

Class PathLib : Type := {
  (** [pathToRegexp(path, keys, opts)]: the regular expression and the keys
      pushed on [keys] *)
  pathToRegexp : string -> LayerOpts -> RegExp * list KeyName;
  (** [parse(path)] *)
  parse : string -> list Token;
  (** [compile(path, options)] applied to the replacement map *)
  compile : string -> Val -> Val -> Exn + string;
  (** [parseUrl], assignment of [search], [formatUrl] *)
  url_with_search : string -> string -> string;
  (** [parseUrl], assignment of [query], [formatUrl] *)
  url_with_query : string -> Val -> string
}.

(* ===================================================================== *)
(** ** lib/layer.js *)
(* ===================================================================== *)

Module Layer.

(** A layer object.  [stack] is a reference to a middleware array of the
    store: the constructor keeps the array it is given. *)
Record t : Type := mk {
  opts : LayerOpts;
  name : option string;
  methods : list string;
  paramNames : list KeyName;
  stack : loc;
  path : string;
  regexp : RegExp
}.

(** The [middleware] argument of the constructor: an array that already
    exists, or a single value. *)
Inductive MwArg : Type :=
| MwArray (a : loc)
| MwSingle (m : Middleware).

(** One turn of the loop over [methods]:
    [const l = this.methods.push(methods[i].toUpperCase());
     if (this.methods[l - 1] === 'GET') this.methods.unshift('HEAD')]. *)
Definition push_method (acc : list string) (m : string) : list string :=
  let pushed := acc ++ [Js.toUpperCase m] in
  let l := length pushed in
  match pushed !! (l - 1) with
  | Some x => if x =? "GET" then "HEAD" :: pushed else pushed
  | None => pushed
  end.

Definition build_methods (ms : list string) : list string :=
  fold_left push_method ms [].

(** The first element of the stack that is not a function, if any. *)
Definition first_non_function (st : list Middleware) : option string :=
  match List.filter (fun m => negb (typeof m =? "function")) st with
  | m :: _ => Some (typeof m)
  | [] => None
  end.

Definition not_a_function (ms : list string) (o : LayerOpts) (p ty : string) : Exn :=
  Error (Js.join "," ms ++ " `"
         ++ default p (Js.or_str (opt_name o) None)
         ++ "`: `middleware` must be a function, not `" ++ ty ++ "`").

Section WithPathLib.
Context {lib : PathLib}.

(** [new Layer(path, methods, middleware, opts)]. *)
Definition new (p : string) (ms : list string) (mw : MwArg) (o : LayerOpts)
  : M Heap t :=
  (let! st := (fun h =>
                 match mw with
                 | MwArray a => (inr a, h)
                 | MwSingle m => let (a, h') := alloc_array [m] h in (inr a, h')
                 end) in
   let! elems := gets (fun h => read_array h st) in
   match first_non_function elems with
   | Some ty => throw (not_a_function ms o p ty)
   | None =>
       let (re, keys) := pathToRegexp p o in
       ret {| opts := o;
              name := Js.or_str (opt_name o) None;
              methods := build_methods ms;
              paramNames := keys;
              stack := st;
              path := p;
              regexp := re |}
   end)%js.

(** [Layer.prototype.match]. *)
Definition matches (l : t) (p : string) : bool :=
  match exec (regexp l) p with Some _ => true | None => false end.

(** [safeDecodeURIComponent]. *)
Definition safeDecodeURIComponent (text : string) : string :=
  match Js.decodeURIComponent text with
  | Some s => s
  | None => text
  end.

(** The body of the loop of [Layer.prototype.params] at index [i]. *)
Definition params_step (names : list KeyName) (i : nat) (c : option string)
    (ps : Js.Obj string) : Js.Obj string :=
  match names !! i with
  | Some k =>
      match c with
      | Some s =>
          if Js.truthy_str s && negb (String.length s =? 0)%nat
          then Js.set (prop_key k)
                      (if Js.truthy_str s then safeDecodeURIComponent s else s) ps
          else ps
      | None => ps
      end
  | None => ps
  end.

Fixpoint params_from (names : list KeyName) (i : nat)
    (captures : list (option string)) (ps : Js.Obj string) : Js.Obj string :=
  match captures with
  | [] => ps
  | c :: r => params_from names (S i) r (params_step names i c ps)
  end.

(** [Layer.prototype.params(path, captures, existingParams)]; [None] is an
    undefined [existingParams]. *)
Definition params (l : t) (p : string) (captures : list (option string))
    (existingParams : option (Js.Obj string)) : Js.Obj string :=
  params_from (paramNames l) 0 captures (default [] existingParams).

(** [Layer.prototype.captures]. *)
Definition captures (l : t) (p : string) : Exn + list (option string) :=
  if opt_ignoreCaptures (opts l) then inr []
  else match exec (regexp l) p with
       | Some groups => inr groups
       | None => inl (TypeError "Cannot read properties of null (reading 'slice')")
       end.

(** [this.path.replace(/\(\.\*\)/g, '')]. *)
Fixpoint strip_wildcards (s : string) : string :=
  match s with
  | String "(" (String "." (String "*" (String ")" r))) => strip_wildcards r
  | String a r => String a (strip_wildcards r)
  | EmptyString => EmptyString
  end.

Definition token_name (tk : Token) : option KeyName :=
  match tk with
  | TKey k => Some k
  | TText _ => None
  end.

(** [if (tokens[i].name)]: the name [0] of an unnamed group is falsy. *)
Definition truthy_name (tk : Token) : bool :=
  match tk with
  | TKey (KName s) => Js.truthy_str s
  | TKey (KIndex n) => negb (n =? 0)%N
  | TText _ => false
  end.

(** The loop that pairs named tokens with positional arguments. *)
Fixpoint positional (tokens : list Token) (args : list Val)
    (replace : Js.Obj Val) : Js.Obj Val :=
  match tokens with
  | [] => replace
  | tk :: r =>
      if truthy_name tk then
        match token_name tk with
        | Some k =>
            positional r (tl args) (Js.set (prop_key k) (hd VUndefined args) replace)
        | None => positional r args replace
        end
      else positional r args replace
  end.

Definition prop (v : Val) (k : string) : Val :=
  match v with
  | VObj props => default VUndefined (Js.own props k)
  | _ => VUndefined
  end.

(** [Layer.prototype.url], applied to its [arguments]. *)
Definition url (l : t) (arguments : list Val) : Exn + string :=
  let params := hd VUndefined arguments in
  let options0 := hd VUndefined (tl arguments) in
  let u := strip_wildcards (path l) in
  (* [args] is [inl] of an array or [inr] of the value of [params] *)
  let '(args, options1) :=
    if negb (typeof_val params =? "object") then
      let lastv := default VUndefined (last arguments) in
      if typeof_val lastv =? "object"
      then (inl (removelast arguments), lastv)
      else (inl arguments, options0)
    else match params with
         | VArr items => (inl items, options0)
         | _ => (inr params, options0)
         end in
  let toPath := compile u options1 in
  let tokens := parse u in
  let '(replace, options2) :=
    match args with
    | inl items => (VObj (positional tokens items []), options1)
    | inr _ =>
        if existsb truthy_name tokens then (params, options1)
        else if negb (truthy_val options1) then (VObj [], params)
        else (VObj [], options1)
    end in
  match toPath replace with
  | inl e => inl e
  | inr replaced =>
      if truthy_val options2 && truthy_val (prop options2 "query") then
        match prop options2 "query" with
        | VStr q => inr (url_with_search replaced q)
        | q => inr (url_with_query replaced q)
        end
      else inr replaced
  end.

(** Where [Layer.prototype.param] puts the wrapper: the scan of
    [stack.some] stops at the first element without a [param] property or
    whose parameter comes after [x] in [names]. *)
Definition stops_scan (names : list KeyName) (x : Z) (fn : Middleware) : bool :=
  negb (Js.truthy_opt (param_of fn))
  || match param_of fn with
     | Some p => (Js.indexOf key_is p names >? x)%Z
     | None => false
     end.

Fixpoint splice_before (names : list KeyName) (x : Z) (mw : Middleware)
    (st : list Middleware) : list Middleware :=
  match st with
  | [] => []
  | fn :: r =>
      if stops_scan names x fn then mw :: fn :: r
      else fn :: splice_before names x mw r
  end.

Definition param_stack (names : list KeyName) (prm : string) (f : FnId)
    (st : list Middleware) : list Middleware :=
  let x := Js.indexOf key_is prm names in
  if (x >? -1)%Z then splice_before names x (ParamFn prm f) st else st.

(** [Layer.prototype.param(param, fn)]: the array the layer refers to is
    changed in place; the layer object itself is not. *)
Definition param (l : t) (prm : string) (f : FnId) (h : Heap) : Heap :=
  <[stack l := param_stack (paramNames l) prm f (read_array h (stack l))]> h.

(** [Layer.prototype.setPrefix]. *)
Definition setPrefix (prefix : string) (l : t) : t :=
  if Js.truthy_str (path l) then
    let p := if negb (path l =? "/") || opt_strict (opts l)
             then (prefix ++ path l)%string else prefix in
    let (re, keys) := pathToRegexp p (opts l) in
    {| opts := opts l; name := name l; methods := methods l;
       paramNames := keys; stack := stack l; path := p; regexp := re |}
  else l.
End WithPathLib.

End Layer.

(* ===================================================================== *)
(** ** The request context *)
(* ===================================================================== *)

Module Ctx.

(** The fields of the Koa context that the router reads or writes.
    [ctx.request.params] is the same object as [ctx.params]; [headers] are
    the response headers written by [ctx.set]. *)
Record t : Type := {
  method : string;
  path : string;
  routerPath : option string;
  status : option nat;
  body : option string;
  headers : Js.Obj string;
  matched : option (list Layer.t);
  router : option loc;
  captures : option (list (option string));
  params : option (Js.Obj string);
  routerName : option string;
  _matchedRoute : option string;
  _matchedRouteName : option string
}.

(** A promise settles with an exception or with the context as the
    middleware left it. *)
Definition Res : Type := Exn + t.
Definition Next : Type := t -> Res.
Definition Handler : Type := t -> Next -> Res.

Definition set_status (st : nat) (ctx : t) : t :=
  {| method := method ctx; path := path ctx; routerPath := routerPath ctx;
     status := Some st; body := body ctx; headers := headers ctx;
     matched := matched ctx; router := router ctx;
     captures := captures ctx; params := params ctx;
     routerName := routerName ctx;
     _matchedRoute := _matchedRoute ctx;
     _matchedRouteName := _matchedRouteName ctx |}.

Definition set_body (b : string) (ctx : t) : t :=
  {| method := method ctx; path := path ctx; routerPath := routerPath ctx;
     status := status ctx; body := Some b; headers := headers ctx;
     matched := matched ctx; router := router ctx;
     captures := captures ctx; params := params ctx;
     routerName := routerName ctx;
     _matchedRoute := _matchedRoute ctx;
     _matchedRouteName := _matchedRouteName ctx |}.

(** [ctx.set(field, value)]. *)
Definition set_header (field value : string) (ctx : t) : t :=
  {| method := method ctx; path := path ctx; routerPath := routerPath ctx;
     status := status ctx; body := body ctx;
     headers := Js.set field value (headers ctx);
     matched := matched ctx; router := router ctx;
     captures := captures ctx; params := params ctx;
     routerName := routerName ctx;
     _matchedRoute := _matchedRoute ctx;
     _matchedRouteName := _matchedRouteName ctx |}.

End Ctx.

(* ===================================================================== *)
(** ** lib/router.js *)
(* ===================================================================== *)

Module Router.

(** The options of a router.  Every router is taken to own its option
    object. *)
Record Opts : Type := {
  prefix : option string;
  routerPath : option string;
  sensitive : bool;
  strict : bool;
  opt_methods : option (list string)
}.

(** A router object: [params] maps a parameter name to the function given to
    [param]; [stack] is the array of layers. *)
Record t : Type := mk {
  opts : Opts;
  methods : list string;
  params : Js.Obj FnId;
  stack : list Layer.t
}.

(** The state of a program: the router objects and the middleware arrays. *)
Record World : Type := {
  routers : list t;
  arrays : Heap
}.

Definition empty_world : World := {| routers := []; arrays := [] |}.

Definition default_methods : list string :=
  ["HEAD"; "OPTIONS"; "GET"; "PUT"; "PATCH"; "POST"; "DELETE"].

(** [new Router(opts)]. *)
Definition new (o : Opts) : M World loc :=
  fun w =>
    (inr (length (routers w)),
     {| routers := routers w ++ [ {| opts := o;
                                     methods := default default_methods (opt_methods o);
                                     params := [];
                                     stack := [] |} ];
        arrays := arrays w |}).

Definition get_router (self : loc) : M World t :=
  fun w =>
    match routers w !! self with
    | Some r => (inr r, w)
    | None => (inl (TypeError "not a router"), w)
    end.

Definition update_router (self : loc) (f : t -> t) : M World unit :=
  modify (fun w => {| routers := alter f self (routers w); arrays := arrays w |}).

Definition update_arrays (f : Heap -> Heap) : M World unit :=
  modify (fun w => {| routers := routers w; arrays := f (arrays w) |}).

(** Runs a computation on the store of arrays. *)
Definition on_arrays {A : Type} (m : M Heap A) : M World A :=
  fun w =>
    let (res, h) := m (arrays w) in
    (res, {| routers := routers w; arrays := h |}).

Definition push_layer (l : Layer.t) (r : t) : t :=
  {| opts := opts r; methods := methods r; params := params r;
     stack := stack r ++ [l] |}.

Definition set_param (prm : string) (f : FnId) (r : t) : t :=
  {| opts := opts r; methods := methods r;
     params := Js.set prm f (params r); stack := stack r |}.

(** The [path] argument of [register]. *)
Inductive PathArg : Type :=
| OnePath (p : string)
| Paths (ps : list string).

(** The [opts] argument of [register]. *)
Record RegOpts : Type := {
  r_end : option bool;
  r_name : option string;
  r_sensitive : bool;
  r_strict : bool;
  r_prefix : option string;
  r_ignoreCaptures : bool
}.

Definition no_opts : RegOpts :=
  {| r_end := None; r_name := None; r_sensitive := false; r_strict := false;
     r_prefix := None; r_ignoreCaptures := false |}.

(** The options [pathToRegexp] sees when it is called without any. *)
Definition plain_opts : LayerOpts :=
  {| opt_end := true; opt_name := None; opt_sensitive := false;
     opt_strict := false; opt_prefix := EmptyString; opt_ignoreCaptures := false |}.

(** What [register] returns. *)
Inductive Registered : Type :=
| Route (l : Layer.t)
| This.

(** An argument of a verb method or of [use]. *)
Inductive Arg : Type :=
| AStr (s : string)
| AArr (items : list string)
| AFn (m : Middleware).

Section WithPathLib.
Context {lib : PathLib}.

Definition layer_opts (r : t) (o : RegOpts) : LayerOpts :=
  {| opt_end := match r_end o with Some false => false | _ => true end;
     opt_name := r_name o;
     opt_sensitive := r_sensitive o || sensitive (opts r) || false;
     opt_strict := r_strict o || strict (opts r) || false;
     opt_prefix :=
       default EmptyString (Js.or_str (r_prefix o) (Js.or_str (prefix (opts r)) (Some EmptyString)));
     opt_ignoreCaptures := r_ignoreCaptures o |}.

(** [Router.prototype.register] for a single path. *)
Definition register_one (self : loc) (p : string) (ms : list string)
    (mw : Layer.MwArg) (o : RegOpts) : M World Registered :=
  (let! r := get_router self in
   let! route := on_arrays (Layer.new p ms mw (layer_opts r o)) in
   let route :=
     match prefix (opts r) with
     | Some pre => if Js.truthy_str pre then Layer.setPrefix pre route else route
     | None => route
     end in
   run! for_each (Js.keys (params r))
          (fun prm =>
             match Js.own (params r) prm with
             | Some f => update_arrays (Layer.param route prm f)
             | None => ret tt
             end) in
   run! update_router self (push_layer route) in
   ret (Route route))%js.

(** [Router.prototype.register]: one layer per path of an array, all of
    them built from the same [middleware] value. *)
Definition register (self : loc) (p : PathArg) (ms : list string)
    (mw : Layer.MwArg) (o : RegOpts) : M World Registered :=
  match p with
  | Paths ps =>
      (run! for_each ps
              (fun curPath =>
                 run! register_one self curPath ms mw o in ret tt) in
       ret This)%js
  | OnePath p => register_one self p ms mw o
  end.

(** An argument in middleware position, as an element of an array. *)
Definition as_middleware (a : Arg) : Middleware :=
  match a with
  | AFn m => m
  | AStr _ => NotFn "string"
  | AArr _ => NotFn "object"
  end.

(** [Array.prototype.slice.call(arguments, n)]: a new array. *)
Definition slice_arguments (n : nat) (arguments : list Arg) : M World loc :=
  on_arrays (fun h =>
               let (a, h') := alloc_array (map as_middleware (drop n arguments)) h in
               (inr a, h')).

Definition name_of (a : option Arg) : option string :=
  match a with
  | Some (AStr s) => Some s
  | _ => None
  end.

(** [router.get], [router.post], ...: [Router.prototype[method]] applied
    to its [arguments]. *)
Definition verb (method : string) (self : loc) (arguments : list Arg)
  : M World unit :=
  match arguments !! 1 with
  | Some (AStr p) =>
      (let! mw := slice_arguments 2 arguments in
       run! register self (OnePath p) [method] (Layer.MwArray mw)
              {| r_end := None; r_name := name_of (arguments !! 0);
                 r_sensitive := false; r_strict := false; r_prefix := None;
                 r_ignoreCaptures := false |} in
       ret tt)%js
  | _ =>
      (let! mw := slice_arguments 1 arguments in
       match arguments !! 0 with
       | Some (AStr p) =>
           run! register self (OnePath p) [method] (Layer.MwArray mw) no_opts in
           ret tt
       | Some (AArr ps) =>
           run! register self (Paths ps) [method] (Layer.MwArray mw) no_opts in
           ret tt
       | _ => throw (TypeError "path must be a string or an array of strings")
       end)%js
  end.

(** [Router.prototype.param]. *)
Definition param (self : loc) (prm : string) (f : FnId) : M World unit :=
  (run! update_router self (set_param prm f) in
   let! r := get_router self in
   for_each (stack r) (fun route => update_arrays (Layer.param route prm f)))%js.

(** The merge of [use] for a middleware [m] with [m.router] set: the
    layers of the nested router are copied field by field, prefixed and
    pushed; then the validators of this router are applied through the
    copy of the nested router, whose [params] object is the nested
    router's own. *)
Definition use_router (self : loc) (p : option string) (nested : loc)
  : M World unit :=
  (let! child := get_router nested in
   let! clones :=
     (fix loop (ls : list Layer.t) : M World (list Layer.t) :=
        match ls with
        | [] => ret []
        | nestedLayer :: rest =>
            let! router := get_router self in
            let cloneLayer := nestedLayer in
            let cloneLayer :=
              if Js.truthy_opt p
              then Layer.setPrefix (default EmptyString p) cloneLayer else cloneLayer in
            let cloneLayer :=
              if Js.truthy_opt (prefix (opts router))
              then Layer.setPrefix (default EmptyString (prefix (opts router))) cloneLayer
              else cloneLayer in
            run! update_router self (push_layer cloneLayer) in
            let! cs := loop rest in
            ret (cloneLayer :: cs)
        end) (stack child) in
   let! router := get_router self in
   for_each (Js.keys (params router))
     (fun key =>
        match Js.own (params router) key with
        | Some f =>
            run! update_router nested (set_param key f) in
            for_each clones (fun l => update_arrays (Layer.param l key f))
        | None => ret tt
        end))%js.

(** The pattern that [use] registers when it is given no path: one unnamed
    group of characters other than a slash. *)
Definition catch_all : string := ("([^/]" ++ "*" ++ ")")%string.

(** The registration of [use] for any other middleware value. *)
Definition use_plain (self : loc) (hasPath : bool) (p : option string)
    (m : Arg) : M World unit :=
  (let! router := get_router self in
   let keys := snd (pathToRegexp (default EmptyString (Js.or_str (prefix (opts router)) (Some EmptyString)))
                                 plain_opts) in
   let routerPrefixHasParam :=
     Js.truthy_opt (prefix (opts router)) && negb (length keys =? 0)%nat in
   let! mw :=
     match m with
     | AArr items =>
         let! a := on_arrays (fun h =>
                      let (a, h') := alloc_array (map (fun _ => NotFn "string") items) h in
                      (inr a, h')) in
         ret (Layer.MwArray a)
     | _ => ret (Layer.MwSingle (as_middleware m))
     end in
   run! register self
          (OnePath (default catch_all (Js.or_str p (Some catch_all)))) [] mw
          {| r_end := Some false; r_name := None; r_sensitive := false;
             r_strict := false; r_prefix := None;
             r_ignoreCaptures := negb hasPath && negb routerPrefixHasParam |} in
   ret tt)%js.

(** [Router.prototype.use] when its first argument is not an array of
    paths. *)
Definition use_at (self : loc) (arguments : list Arg) : M World unit :=
  let hasPath := match arguments with AStr _ :: _ => true | _ => false end in
  let p := match arguments with AStr s :: _ => Some s | _ => None end in
  let middleware := if hasPath then tl arguments else arguments in
  for_each middleware
    (fun m =>
       match m with
       | AFn (Dispatch nested) => use_router self p nested
       | _ => use_plain self hasPath p m
       end).

(** [Router.prototype.use]. *)
Definition use (self : loc) (arguments : list Arg) : M World unit :=
  match arguments with
  | AArr (p0 :: ps) :: rest =>
      for_each (p0 :: ps) (fun p => use_at self (AStr p :: rest))
  | _ => use_at self arguments
  end.

(** [prefix.replace(/\/$/, '')]: a final slash is removed. *)
Fixpoint drop_trailing_slash (s : string) : string :=
  match s with
  | EmptyString => EmptyString
  | String "/" EmptyString => EmptyString
  | String a r => String a (drop_trailing_slash r)
  end.

(** [Router.prototype.prefix]. *)
Definition set_prefix (self : loc) (pre : string) : M World unit :=
  let pre := drop_trailing_slash pre in
  update_router self
    (fun r =>
       {| opts := {| prefix := Some pre; routerPath := routerPath (opts r);
                     sensitive := sensitive (opts r); strict := strict (opts r);
                     opt_methods := opt_methods (opts r) |};
          methods := methods r; params := params r;
          stack := map (Layer.setPrefix pre) (stack r) |}).

(** [Router.prototype.route]: [None] stands for [false]. *)
Fixpoint route_in (routes : list Layer.t) (nm : string) : option Layer.t :=
  match routes with
  | [] => None
  | l :: rest =>
      if Js.truthy_opt (Layer.name l)
         && match Layer.name l with Some n => n =? nm | None => false end
      then Some l else route_in rest nm
  end.

Definition route (r : t) (nm : string) : option Layer.t :=
  route_in (stack r) nm.

(** What [Router.prototype.url] returns: a string, or an [Error] object
    handed back as a value. *)
Inductive Returned : Type :=
| RString (s : string)
| RError (msg : string).

(** [Router.prototype.url(name, ...args)]. *)
Definition url (self : loc) (nm : string) (args : list Val) : M World Returned :=
  (let! r := get_router self in
   match route r nm with
   | Some l =>
       match Layer.url l args with
       | inr s => ret (RString s)
       | inl e => throw e
       end
   | None => ret (RError ("No route found for name: " ++ nm))
   end)%js.

(** The result of [Router.prototype.match]. *)
Record Matched : Type := {
  m_path : list Layer.t;
  m_pathAndMethod : list Layer.t;
  m_route : bool
}.

Definition match_step (p method : string) (matched : Matched) (layer : Layer.t)
  : Matched :=
  if Layer.matches layer p then
    let path' := m_path matched ++ [layer] in
    if (length (Layer.methods layer) =? 0)%nat
       || negb (Js.indexOf String.eqb method (Layer.methods layer) =? -1)%Z
    then
      {| m_path := path';
         m_pathAndMethod := m_pathAndMethod matched ++ [layer];
         m_route := if negb (length (Layer.methods layer) =? 0)%nat
                    then true else m_route matched |}
    else
      {| m_path := path';
         m_pathAndMethod := m_pathAndMethod matched;
         m_route := m_route matched |}
  else matched.

(** [Router.prototype.match(path, method)]. *)
Definition match_ (r : t) (p method : string) : Matched :=
  fold_left (match_step p method) (stack r)
            {| m_path := []; m_pathAndMethod := []; m_route := false |}.

(** *** The request context and the execution of middleware *)

(** The behaviour of the functions of the program: called as middleware,
    called as parameter validators with the value of [ctx.params[param]],
    and the behaviour of dispatchers that are run as ordinary
    middleware. *)
Record Env : Type := {
  call : FnId -> Ctx.Handler;
  call_param : FnId -> Js.Read string -> Ctx.Handler;
  call_dispatch : loc -> Ctx.Handler
}.

Definition run (env : Env) (m : Middleware) : Ctx.Handler :=
  match m with
  | Fn f => call env f
  | ParamFn prm f =>
      fun ctx next =>
        match Ctx.params ctx with
        | Some ps => call_param env f (Js.get ps prm) ctx next
        | None => inl (TypeError "Cannot read properties of undefined")
        end
  | Dispatch r => call_dispatch env r
  | NotFn _ => fun _ _ => inl (TypeError "fn is not a function")
  end.

(** An element of the chain built by the dispatcher: the function that
    binds the context to a layer, or an element of a layer's stack. *)
Inductive Step : Type :=
| Bind (layer : Layer.t)
| Call (m : Middleware).

(** What the binding function of [layer] writes on the context. *)
Definition bound (layer : Layer.t) (p : string) (caps : list (option string))
    (ctx : Ctx.t) : Ctx.t :=
  {| Ctx.method := Ctx.method ctx; Ctx.path := Ctx.path ctx;
     Ctx.routerPath := Some (Layer.path layer);
     Ctx.status := Ctx.status ctx; Ctx.body := Ctx.body ctx; Ctx.headers := Ctx.headers ctx;
     Ctx.matched := Ctx.matched ctx; Ctx.router := Ctx.router ctx;
     Ctx.captures := Some caps;
     Ctx.params := Some (Layer.params layer p caps (Ctx.params ctx));
     Ctx.routerName := Layer.name layer;
     Ctx._matchedRoute := Some (Layer.path layer);
     Ctx._matchedRouteName :=
       if Js.truthy_opt (Layer.name layer) then Layer.name layer
       else Ctx._matchedRouteName ctx |}.

Definition bind_layer (layer : Layer.t) (p : string) : Ctx.Handler :=
  fun ctx next =>
    match Layer.captures layer p with
    | inr caps => next (bound layer p caps ctx)
    | inl e => inl e
    end.

Definition run_step (env : Env) (p : string) (s : Step) : Ctx.Handler :=
  match s with
  | Bind layer => bind_layer layer p
  | Call m => run env m
  end.

Definition is_function (s : Step) : bool :=
  match s with
  | Call (NotFn _) => false
  | _ => true
  end.

(** [compose(chain)(ctx, next)] of koa-compose. *)
Fixpoint compose_from (env : Env) (p : string) (chain : list Step) : Ctx.Handler :=
  fun ctx next =>
    match chain with
    | [] => next ctx
    | s :: rest => run_step env p s ctx (fun ctx' => compose_from env p rest ctx' next)
    end.

Definition compose (env : Env) (p : string) (chain : list Step) : Ctx.Handler :=
  fun ctx next =>
    if forallb is_function chain then compose_from env p chain ctx next
    else inl (TypeError "Middleware must be composed of functions!").

(** The [reduce] that builds [layerChain]. *)
Definition layerChain (h : Heap) (matchedLayers : list Layer.t) : list Step :=
  fold_left
    (fun memo layer => (memo ++ [Bind layer]) ++ map Call (read_array h (Layer.stack layer)))
    matchedLayers [].

Definition accumulate (found : list Layer.t) (ctx : Ctx.t) (self : loc) : Ctx.t :=
  {| Ctx.method := Ctx.method ctx; Ctx.path := Ctx.path ctx; Ctx.routerPath := Ctx.routerPath ctx;
     Ctx.status := Ctx.status ctx; Ctx.body := Ctx.body ctx; Ctx.headers := Ctx.headers ctx;
     Ctx.matched := match Ctx.matched ctx with
                | Some acc => Some (acc ++ found)
                | None => Some found
                end;
     Ctx.router := Some self;
     Ctx.captures := Ctx.captures ctx; Ctx.params := Ctx.params ctx;
     Ctx.routerName := Ctx.routerName ctx;
     Ctx._matchedRoute := Ctx._matchedRoute ctx;
     Ctx._matchedRouteName := Ctx._matchedRouteName ctx |}.

Definition expose (layer : Layer.t) (ctx : Ctx.t) : Ctx.t :=
  {| Ctx.method := Ctx.method ctx; Ctx.path := Ctx.path ctx; Ctx.routerPath := Ctx.routerPath ctx;
     Ctx.status := Ctx.status ctx; Ctx.body := Ctx.body ctx; Ctx.headers := Ctx.headers ctx;
     Ctx.matched := Ctx.matched ctx; Ctx.router := Ctx.router ctx;
     Ctx.captures := Ctx.captures ctx; Ctx.params := Ctx.params ctx;
     Ctx.routerName := Ctx.routerName ctx;
     Ctx._matchedRoute := Some (Layer.path layer);
     Ctx._matchedRouteName :=
       if Js.truthy_opt (Layer.name layer) then Layer.name layer
       else Ctx._matchedRouteName ctx |}.

(** The path a dispatcher looks up:
    [router.opts.routerPath || ctx.routerPath || ctx.path]. *)
Definition lookup_path (r : t) (ctx : Ctx.t) : string :=
  default (Ctx.path ctx)
    (Js.or_str (routerPath (opts r)) (Js.or_str (Ctx.routerPath ctx) (Some (Ctx.path ctx)))).

(** The function [dispatch] returned by [Router.prototype.routes] for the
    router at [self], in a world [w]. *)
Definition dispatch (w : World) (env : Env) (self : loc) : Ctx.Handler :=
  fun ctx next =>
    match routers w !! self with
    | None => inl (TypeError "not a router")
    | Some r =>
        let p := lookup_path r ctx in
        let found := match_ r p (Ctx.method ctx) in
        let ctx := accumulate (m_path found) ctx self in
        if negb (m_route found) then next ctx
        else
          let matchedLayers := m_pathAndMethod found in
          match last matchedLayers with
          | None => inl (TypeError "Cannot read properties of undefined (reading 'path')")
          | Some mostSpecificLayer =>
              let ctx := expose mostSpecificLayer ctx in
              compose env p (layerChain (arrays w) matchedLayers) ctx next
          end
    end.

(** [Router.prototype.routes]: the returned function carries the router. *)
Definition routes (self : loc) : Middleware := Dispatch self.

(** The options of [allowedMethods]; [notImplemented] and
    [methodNotAllowed] hold what the user's function returns when one is
    given. *)
Record GuardOptions : Type := {
  throw_ : bool;
  notImplemented : option Exn;
  methodNotAllowed : option Exn
}.

(** The two nested loops that fill [allowed]. *)
Definition collect_allowed (found : list Layer.t) : Js.Obj string :=
  fold_left
    (fun allowed route =>
       fold_left (fun allowed m => Js.set m m allowed) (Layer.methods route) allowed)
    found [].

(** [!ctx.status || ctx.status === 404]. *)
Definition unset_or_404 (st : option nat) : bool :=
  match st with
  | None => true
  | Some n => (n =? 0)%nat || (n =? 404)%nat
  end.

(** The callback that [allowedMethods] runs when [next()] has resolved. *)
Definition after_downstream (implemented : list string) (options : GuardOptions)
    (ctx : Ctx.t) : Ctx.Res :=
  if unset_or_404 (Ctx.status ctx) then
    match Ctx.matched ctx with
    | None => inl (TypeError "Cannot read properties of undefined (reading 'length')")
    | Some found =>
        let allowed := collect_allowed found in
        let allowedArr := Js.keys allowed in
        if (Js.indexOf String.eqb (Ctx.method ctx) implemented =? -1)%Z then
          if throw_ options then
            inl (default NotImplemented (notImplemented options))
          else
            inr (Ctx.set_header "Allow" (Js.join ", " allowedArr) (Ctx.set_status 501 ctx))
        else if negb (length allowedArr =? 0)%nat then
          if Ctx.method ctx =? "OPTIONS" then
            inr (Ctx.set_header "Allow" (Js.join ", " allowedArr)
                   (Ctx.set_body EmptyString (Ctx.set_status 200 ctx)))
          else if negb (Js.truthy_read (Js.get allowed (Ctx.method ctx))) then
            if throw_ options then
              inl (default MethodNotAllowed (methodNotAllowed options))
            else
              inr (Ctx.set_header "Allow" (Js.join ", " allowedArr) (Ctx.set_status 405 ctx))
          else inr ctx
        else inr ctx
    end
  else inr ctx.

(** The middleware returned by [Router.prototype.allowedMethods(options)]. *)
Definition allowedMethods (r : t) (options : GuardOptions) : Ctx.Handler :=
  let implemented := methods r in
  fun ctx next =>
    match next ctx with
    | inr ctx' => after_downstream implemented options ctx'
    | inl e => inl e
    end.

(** *** [all] and the static [url] *)

(** [Router.prototype.all] applied to its [arguments]; [http_methods] is the
    list exported by the package [methods]. *)
Definition all (http_methods : list string) (self : loc) (arguments : list Arg)
  : M World unit :=
  match arguments !! 1 with
  | Some (AStr p) =>
      (let! mw := slice_arguments 2 arguments in
       run! register self (OnePath p) http_methods (Layer.MwArray mw)
              {| r_end := None; r_name := name_of (arguments !! 0);
                 r_sensitive := false; r_strict := false; r_prefix := None;
                 r_ignoreCaptures := false |} in
       ret tt)%js
  | _ =>
      (let! mw := slice_arguments 1 arguments in
       match arguments !! 0 with
       | Some (AStr p) =>
           run! register self (OnePath p) http_methods (Layer.MwArray mw) no_opts in
           ret tt
       | Some (AArr ps) =>
           run! register self (Paths ps) http_methods (Layer.MwArray mw) no_opts in
           ret tt
       | _ => throw (TypeError "path must be a string or an array of strings")
       end)%js
  end.

(** The object [{ path }] on which the static [Router.url] calls
    [Layer.prototype.url]: it has no other property, and [url] reads no
    other. *)
Definition only_path (p : string) : Layer.t :=
  {| Layer.opts := plain_opts; Layer.name := None; Layer.methods := [];
     Layer.paramNames := []; Layer.stack := 0; Layer.path := p;
     Layer.regexp := {| exec := fun _ => None |} |}.

(** The static [Router.url(path, ...args)]. *)
Definition static_url (p : string) (args : list Val) : Exn + string :=
  Layer.url (only_path p) args.
End WithPathLib.

End Router.


(* ===================================================================== *)
(** ** A small instance of the path library

    Enough of path-to-regexp to run the router on concrete requests:
    patterns made of literal segments and [:name] segments.  The theorems
    below hold for every instance; this one is used to evaluate the program
    on concrete inputs. *)
(* ===================================================================== *)

Module Sample.

Local Open Scope string_scope.

(** The segments of a path, split at ["/"]. *)
Fixpoint split_from (cur : string) (s : string) : list string :=
  match s with
  | EmptyString => [cur]
  | String "/" r => cur :: split_from EmptyString r
  | String a r => split_from (cur ++ String a EmptyString) r
  end.

Definition segments (s : string) : list string :=
  match split_from EmptyString s with
  | EmptyString :: r => r
  | l => l
  end.

(** A pattern loses its final empty segment: a trailing slash is optional. *)
Definition pattern_segments (s : string) : list string :=
  match reverse (segments s) with
  | EmptyString :: r => reverse r
  | _ => segments s
  end.

Definition param_name (seg : string) : option string :=
  match seg with
  | String ":" nm => Some nm
  | _ => None
  end.

Definition same_text (sensitive : bool) (a b : string) : bool :=
  if sensitive then a =? b else Js.toUpperCase a =? Js.toUpperCase b.

Fixpoint match_segments (o : LayerOpts) (pat : list string) (segs : list string)
  : option (list (option string)) :=
  match pat, segs with
  | [], [] => Some []
  | [], [EmptyString] => if opt_strict o then (if opt_end o then None else Some []) else Some []
  | [], _ :: _ => if opt_end o then None else Some []
  | _ :: _, [] => None
  | p :: ps, s :: ss =>
      match param_name p with
      | Some _ =>
          if Js.truthy_str s then
            match match_segments o ps ss with
            | Some caps => Some (Some s :: caps)
            | None => None
            end
          else None
      | None =>
          if same_text (opt_sensitive o) p s then match_segments o ps ss else None
      end
  end.

Definition keys_of (pat : list string) : list KeyName :=
  omap (fun seg => match param_name seg with
                   | Some nm => Some (KName nm)
                   | None => None
                   end) pat.

Definition sample_pathToRegexp (p : string) (o : LayerOpts) : RegExp * list KeyName :=
  ({| exec := fun request =>
                match request with
                | String "/" _ => match_segments o (pattern_segments p) (segments request)
                | _ => None
                end |},
   keys_of (pattern_segments p)).

Definition sample_parse (p : string) : list Token :=
  map (fun seg => match param_name seg with
                  | Some nm => TKey (KName nm)
                  | None => TText ("/" ++ seg)
                  end) (pattern_segments p).

Definition show (v : Val) : option string :=
  match v with
  | VStr s => Some s
  | VNum z => Some (if (z <? 0)%Z then "-" ++ nat_string (Z.to_N (- z))
                    else nat_string (Z.to_N z))
  | _ => None
  end.

Fixpoint fill (toks : list Token) (replace : Val) : Exn + string :=
  match toks with
  | [] => inr EmptyString
  | TText s :: r =>
      match fill r replace with inr t => inr (s ++ t) | inl e => inl e end
  | TKey k :: r =>
      match show (Layer.prop replace (prop_key k)), fill r replace with
      | Some s, inr t => inr ("/" ++ s ++ t)
      | None, _ => inl (TypeError ("Expected " ++ prop_key k ++ " to be a string"))
      | _, inl e => inl e
      end
  end.

Definition sample_compile (p : string) (options replace : Val) : Exn + string :=
  match fill (sample_parse p) replace with
  | inr EmptyString => inr "/"
  | r => r
  end.

Definition query_string (q : Val) : string :=
  match q with
  | VObj props =>
      Js.join "&" (map (fun kv => fst kv ++ "=" ++ default EmptyString (show (snd kv))) props)
  | _ => EmptyString
  end.

#[export] Instance lib : PathLib := {
  pathToRegexp := sample_pathToRegexp;
  parse := sample_parse;
  compile := sample_compile;
  url_with_search := fun u q => u ++ "?" ++ q;
  url_with_query := fun u q => u ++ "?" ++ query_string q
}.

End Sample.


(* ===================================================================== *)
(** ** Configurations

    The worlds that a program can build with the configuration interface
    of the router, starting from nothing. *)
(* ===================================================================== *)

Module Config.

Inductive Op : Type :=
| ONew (o : Router.Opts)
| OVerb (method : string) (self : loc) (arguments : list Router.Arg)
| ORegister (self : loc) (p : Router.PathArg) (ms : list string)
    (mw : Layer.MwArg) (o : Router.RegOpts)
| OUse (self : loc) (arguments : list Router.Arg)
| OParam (self : loc) (prm : string) (f : FnId)
| OPrefix (self : loc) (pre : string).

Section WithPathLib.
Context {lib : PathLib}.

Definition exec_op (op : Op) : M Router.World unit :=
  match op with
  | ONew o => (run! Router.new o in ret tt)%js
  | OVerb method self arguments => Router.verb method self arguments
  | ORegister self p ms mw o => (run! Router.register self p ms mw o in ret tt)%js
  | OUse self arguments => Router.use self arguments
  | OParam self prm f => Router.param self prm f
  | OPrefix self pre => Router.set_prefix self pre
  end.

(** The world after a sequence of calls; a call that throws leaves the
    state it had reached. *)
Definition configure (ops : list Op) (w : Router.World) : Router.World :=
  fold_left (fun w op => snd (exec_op op w)) ops w.
End WithPathLib.

End Config.

(* ===================================================================== *)
(** ** Concrete programs and requests

    Small configurations, run with the instance [Sample.lib], on which the
    properties below are exercised. *)
(* ===================================================================== *)

Module Examples.

Import Sample.

Definition ropts : Router.Opts :=
  {| Router.prefix := None; Router.routerPath := None; Router.sensitive := false;
     Router.strict := false; Router.opt_methods := None |}.

Definition built (ops : list Config.Op) : Router.World :=
  Config.configure ops Router.empty_world.

Definition no_router : Router.t :=
  {| Router.opts := ropts; Router.methods := []; Router.params := [];
     Router.stack := [] |}.

Definition no_layer : Layer.t :=
  {| Layer.opts := Router.plain_opts; Layer.name := None; Layer.methods := [];
     Layer.paramNames := []; Layer.stack := 0; Layer.path := EmptyString;
     Layer.regexp := {| exec := fun _ => None |} |}.

Definition router_at (w : Router.World) (i : loc) : Router.t :=
  default no_router (Router.routers w !! i).

Definition layer_at (w : Router.World) (i j : nat) : Layer.t :=
  default no_layer (Router.stack (router_at w i) !! j).

(** A fresh request, as Koa hands it to the first middleware. *)
Definition request (m p : string) : Ctx.t :=
  {| Ctx.method := m; Ctx.path := p; Ctx.routerPath := None;
     Ctx.status := Some 404; Ctx.body := None; Ctx.headers := [];
     Ctx.matched := None; Ctx.router := None; Ctx.captures := None;
     Ctx.params := None; Ctx.routerName := None;
     Ctx._matchedRoute := None; Ctx._matchedRouteName := None |}.

(** What function [f] does to the context: it appends its number to the
    body. *)
Definition said (f : FnId) (ctx : Ctx.t) : Ctx.t :=
  Ctx.set_body (default EmptyString (Ctx.body ctx) ++ nat_string (N.of_nat f))%string ctx.

(** Every function appends its number to the body and calls [next]. *)
Definition env : Router.Env :=
  {| Router.call := fun f ctx next => next (said f ctx);
     Router.call_param := fun f _ ctx next => next (said f ctx);
     Router.call_dispatch := fun _ ctx next => next ctx |}.

(** The end of the middleware chain of the application. *)
Definition finish : Ctx.Next := fun ctx => inr ctx.

(** [router.get('/x', f1); router.use('/y', f2)]. *)
Definition route_and_mount : list Config.Op :=
  [ Config.ONew ropts;
    Config.OVerb "get" 0 [Router.AStr "/x"; Router.AFn (Fn 1)];
    Config.OUse 0 [Router.AStr "/y"; Router.AFn (Fn 2)] ].

(** [router.get('/x', f1); router.post('/x', f2)]. *)
Definition get_and_post : list Config.Op :=
  [ Config.ONew ropts;
    Config.OVerb "get" 0 [Router.AStr "/x"; Router.AFn (Fn 1)];
    Config.OVerb "post" 0 [Router.AStr "/x"; Router.AFn (Fn 2)] ].

(** [router.get('user', '/users/:id', f1); router.get('/users/:id/edit', f2)]. *)
Definition named_user : list Config.Op :=
  [ Config.ONew ropts;
    Config.OVerb "get" 0 [Router.AStr "user"; Router.AStr "/users/:id"; Router.AFn (Fn 1)];
    Config.OVerb "get" 0 [Router.AStr "/users/:id/edit"; Router.AFn (Fn 2)] ].

(** The parameters of the context a dispatch resolves with. *)
Definition params_after (r : Ctx.Res) : option (Js.Obj string) :=
  match r with
  | inr ctx => Ctx.params ctx
  | inl _ => None
  end.

(** [allowedMethods()] without options. *)
Definition plain_guard : Router.GuardOptions :=
  {| Router.throw_ := false; Router.notImplemented := None;
     Router.methodNotAllowed := None |}.

(** [app.use(router.routes()).use(router.allowedMethods())] for the router
    at 0, applied to a request: the guard wraps nothing else, and the
    dispatcher runs before it. *)
Definition serve (w : Router.World) (ctx : Ctx.t) : Ctx.Res :=
  Router.dispatch w env 0 ctx
    (fun ctx' => Router.allowedMethods (router_at w 0) plain_guard ctx' finish).

(** What a response shows of the guard. *)
Definition response (r : Ctx.Res) : option (option nat * option string * Js.Obj string) :=
  match r with
  | inr ctx => Some (Ctx.status ctx, Ctx.body ctx, Ctx.headers ctx)
  | inl _ => None
  end.

(** [router.get('user', '/foo/:id', f1); router.get('/foo/3', f2)]. *)
Definition two_matches : list Config.Op :=
  [ Config.ONew ropts;
    Config.OVerb "get" 0 [Router.AStr "user"; Router.AStr "/foo/:id"; Router.AFn (Fn 1)];
    Config.OVerb "get" 0 [Router.AStr "/foo/3"; Router.AFn (Fn 2)] ].

(** [router.get('/foo/:id', f1); router.get('literal', '/foo/3', f2)]. *)
Definition two_matches_last_named : list Config.Op :=
  [ Config.ONew ropts;
    Config.OVerb "get" 0 [Router.AStr "/foo/:id"; Router.AFn (Fn 1)];
    Config.OVerb "get" 0 [Router.AStr "literal"; Router.AStr "/foo/3"; Router.AFn (Fn 2)] ].

(** What the functions of [env] do to the context. *)
Definition work (m : Middleware) (ctx : Ctx.t) : Ctx.t :=
  match m with
  | Fn f | ParamFn _ f => said f ctx
  | _ => ctx
  end.

(** [router.get(['/a/:id', '/b'], f1)]: two entries from one call. *)
Definition two_paths : list Config.Op :=
  [ Config.ONew ropts;
    Config.OVerb "get" 0 [Router.AArr ["/a/:id"; "/b"]; Router.AFn (Fn 1)] ].

(** ... followed by [router.param('id', f7)]. *)
Definition two_paths_param : list Config.Op :=
  two_paths ++ [ Config.OParam 0 "id" 7 ].

(** [router.get(['/:a/:b', '/:b/:a'], f9); router.param('a', f1);
    router.param('b', f2)]. *)
Definition crossed_paths : list Config.Op :=
  [ Config.ONew ropts;
    Config.OVerb "get" 0 [Router.AArr ["/:a/:b"; "/:b/:a"]; Router.AFn (Fn 9)];
    Config.OParam 0 "a" 1;
    Config.OParam 0 "b" 2 ].

(** [child.get('/:id', f1); parent.use('/p', child.routes())], the child at
    0 and the parent at 1. *)
Definition mounted : list Config.Op :=
  [ Config.ONew ropts;
    Config.OVerb "get" 0 [Router.AStr "/:id"; Router.AFn (Fn 1)];
    Config.ONew ropts;
    Config.OUse 1 [Router.AStr "/p"; Router.AFn (Router.routes 0)] ].

(** ... followed by [parent.param('id', f7)]. *)
Definition mounted_param : list Config.Op :=
  mounted ++ [ Config.OParam 1 "id" 7 ].

(** The stack of entry [j] of router [i]. *)
Definition stack_at (w : Router.World) (i j : nat) : list Middleware :=
  read_array (Router.arrays w) (Layer.stack (layer_at w i j)).

(** The body a dispatch of router [i] resolves with. *)
Definition body_after (w : Router.World) (i : loc) (ctx : Ctx.t) : option string :=
  match Router.dispatch w env i ctx finish with
  | inr ctx' => Ctx.body ctx'
  | inl _ => None
  end.

(** [router.get('/:a/:b', f9); router.param('b', f2); router.param('a', f1)]:
    validators added after the route, in the reverse of parameter order. *)
Definition late_validators : list Config.Op :=
  [ Config.ONew ropts;
    Config.OVerb "get" 0 [Router.AStr "/:a/:b"; Router.AFn (Fn 9)];
    Config.OParam 0 "b" 2;
    Config.OParam 0 "a" 1 ].

(** [child.get('/:id', f1); parent.param('id', f7);
    parent.use('/p', child.routes())], the child at 0 and the parent at 1. *)
Definition mounted_after_param : list Config.Op :=
  [ Config.ONew ropts;
    Config.OVerb "get" 0 [Router.AStr "/:id"; Router.AFn (Fn 1)];
    Config.ONew ropts;
    Config.OParam 1 "id" 7;
    Config.OUse 1 [Router.AStr "/p"; Router.AFn (Router.routes 0)] ].

(** A router without entries. *)
Definition one_router : list Config.Op := [ Config.ONew ropts ].

(** Calls made later on the router of [named_user]: a validator, a route
    and a prefix. *)
Definition later_calls : list Config.Op :=
  [ Config.OParam 0 "id" 7;
    Config.OVerb "post" 0 [Router.AStr "/users"; Router.AFn (Fn 3)];
    Config.OPrefix 0 "/api/" ].


(** [router.get('/', f1)]. *)
Definition root_route : list Config.Op :=
  [ Config.ONew ropts;
    Config.OVerb "get" 0 [Router.AStr "/"; Router.AFn (Fn 1)] ].

(** [child.get('/:id', f1)] and a parent without entries, the child at 0
    and the parent at 1. *)
Definition child_and_parent : list Config.Op :=
  [ Config.ONew ropts;
    Config.OVerb "get" 0 [Router.AStr "/:id"; Router.AFn (Fn 1)];
    Config.ONew ropts ].

(** [router.param('b', f2); router.param('a', f1)] on a router without
    entries. *)
Definition validators_first : list Config.Op :=
  [ Config.ONew ropts;
    Config.OParam 0 "b" 2;
    Config.OParam 0 "a" 1 ].

End Examples.

(* ===================================================================== *)
(** ** Vocabulary of the properties *)
(* ===================================================================== *)

(** An entry that lists GET lists HEAD as well. *)
Definition lists_head_with_get (l : Layer.t) : Prop :=
  In "GET" (Layer.methods l) -> In "HEAD" (Layer.methods l).

(** The invariant of routers and worlds built from it. *)
Definition good_router (r : Router.t) : Prop :=
  Forall lists_head_with_get (Router.stack r).

Definition good_world (w : Router.World) : Prop :=
  Forall good_router (Router.routers w).

(** [keeps m Q]: [m] keeps the invariant of the world, whether it returns
    or throws, and a value it returns satisfies [Q]. *)
Definition keeps {A : Type} (m : M Router.World A) (Q : A -> Prop) : Prop :=
  forall w, good_world w ->
    good_world (snd (m w)) /\ (forall a, fst (m w) = inr a -> Q a).

(** The test of [match] on the methods of a layer:
    [layer.methods.length === 0 || ~layer.methods.indexOf(method)]. *)
Definition accepts (method : string) (layer : Layer.t) : bool :=
  (length (Layer.methods layer) =? 0)%nat
  || negb (Js.indexOf String.eqb method (Layer.methods layer) =? -1)%Z.

Definition has_methods (layer : Layer.t) : bool :=
  negb (length (Layer.methods layer) =? 0)%nat.

(** A capture that [params] skips: undefined, or the empty string. *)
Definition skipped (c : option string) : Prop := c = None \/ c = Some EmptyString.

(** *** The guard of allowed methods *)

Definition member (m : string) (l : list string) : bool := existsb (String.eqb m) l.

(** A property name that is not empty, is not an array index and is not a
    name inherited from [Object.prototype].  The names of HTTP methods, made
    of capital letters, are of this kind. *)
Definition plain_name (s : string) : bool :=
  Js.truthy_str s && negb (Js.is_array_index s) && negb (Js.inherited s).

(** A list with its duplicates removed, each element at the place of its
    first occurrence. *)
Fixpoint union_first (l : list string) : list string :=
  match l with
  | [] => []
  | x :: r => x :: List.filter (fun y => negb (y =? x)) (union_first r)
  end.

(** The union of the method lists of the recorded entries, in order of
    first discovery. *)
Definition allowed_union (found : list Layer.t) : list string :=
  union_first (concat (map Layer.methods found)).

(** The decision table of the guard without [throw], its rows read from top
    to bottom: 501 for a method that is not implemented; 200 with an empty
    body for OPTIONS when the union is not empty; 405 when the union is not
    empty and lacks the method; no change otherwise.  The first three rows
    set [Allow] to the union. *)
Definition guard_table (implemented union : list string) (ctx : Ctx.t) : Ctx.t :=
  let m := Ctx.method ctx in
  let allow := Js.join ", " union in
  if negb (member m implemented) then
    Ctx.set_header "Allow" allow (Ctx.set_status 501 ctx)
  else if negb (length union =? 0)%nat && (m =? "OPTIONS") then
    Ctx.set_header "Allow" allow (Ctx.set_body EmptyString (Ctx.set_status 200 ctx))
  else if negb (length union =? 0)%nat && negb (member m union)
          && negb (m =? "OPTIONS") then
    Ctx.set_header "Allow" allow (Ctx.set_status 405 ctx)
  else ctx.

(** The inner loop of the guard: [allowed[method] = method] for every
    method of a list. *)
Definition add_all (ms : list string) (allowed : Js.Obj string) : Js.Obj string :=
  fold_left (fun allowed m => Js.set m m allowed) ms allowed.

(** *** The chain of a dispatch *)

(** The captures that the binding function of a layer takes on a path. *)
Definition caps_of (l : Layer.t) (p : string) : list (option string) :=
  match Layer.captures l p with
  | inr caps => caps
  | inl _ => []
  end.

(** The part of the chain that comes from one layer: its binding function,
    then its stack in order. *)
Definition steps_of (h : Heap) (l : Layer.t) : list Router.Step :=
  Router.Bind l :: map Router.Call (read_array h (Layer.stack l)).

(** The fields by which a dispatch exposes the matched entry and its
    parameters. *)
Definition keeps_routing (f : Ctx.t -> Ctx.t) : Prop :=
  forall ctx,
    Ctx.params (f ctx) = Ctx.params ctx
    /\ Ctx._matchedRoute (f ctx) = Ctx._matchedRoute ctx
    /\ Ctx._matchedRouteName (f ctx) = Ctx._matchedRouteName ctx.

(** A function of a stack that does its work on the context, [upd m], and
    passes control on; a parameter validator is run on a context that has
    parameters. *)
Definition passes_on (env : Router.Env) (upd : Middleware -> Ctx.t -> Ctx.t)
    (m : Middleware) : Prop :=
  (forall ctx next,
      Ctx.params ctx <> None -> Router.run env m ctx next = next (upd m ctx))
  /\ keeps_routing (upd m).

(** What a step does to the context when the functions pass control on. *)
Definition effect (upd : Middleware -> Ctx.t -> Ctx.t) (p : string)
    (s : Router.Step) (ctx : Ctx.t) : Ctx.t :=
  match s with
  | Router.Bind l => Router.bound l p (caps_of l p) ctx
  | Router.Call m => upd m ctx
  end.

Definition run_all (upd : Middleware -> Ctx.t -> Ctx.t) (p : string)
    (chain : list Router.Step) (ctx : Ctx.t) : Ctx.t :=
  fold_left (fun c s => effect upd p s c) chain ctx.

(** The parameters merged entry after entry, each entry writing over what
    the earlier ones stored. *)
Definition merged_params (p : string) (layers : list Layer.t)
    (init : option (Js.Obj string)) : option (Js.Obj string) :=
  fold_left (fun ps l => Some (Layer.params l p (caps_of l p) ps)) layers init.

(** The name of the latest named entry of a list, or [init]. *)
Definition latest_name (layers : list Layer.t) (init : option string) : option string :=
  fold_left (fun nm l => if Js.truthy_opt (Layer.name l) then Layer.name l else nm)
            layers init.

(** *** Validators in a stack *)

(** An element that the scan of [Layer.prototype.param] takes for a
    parameter validator. *)
Definition is_validator (m : Middleware) : bool := Js.truthy_opt (param_of m).

(** The place of the parameter of a validator among the names of a
    pattern. *)
Definition rank (names : list KeyName) (m : Middleware) : Z :=
  match param_of m with
  | Some prm => Js.indexOf key_is prm names
  | None => (-1)%Z
  end.

(** Validators in the order of the parameters of the pattern. *)
Definition in_parameter_order (names : list KeyName) (vs : list Middleware) : Prop :=
  StronglySorted (fun a b => (rank names a <= rank names b)%Z) vs.

(** Insertion of [mw], of rank [x], before the first validator of a higher
    rank. *)
Fixpoint insert_ranked (names : list KeyName) (x : Z) (mw : Middleware)
    (vs : list Middleware) : list Middleware :=
  match vs with
  | [] => [mw]
  | v :: r =>
      if (rank names v >? x)%Z then mw :: v :: r
      else v :: insert_ranked names x mw r
  end.

(** *** Registration, step by step *)

Section Registration.
Context {lib : PathLib}.

(** The layer that the constructor builds around the array [a]. *)
Definition constructed (p : string) (ms : list string) (a : loc) (o : LayerOpts)
  : Layer.t :=
  {| Layer.opts := o;
     Layer.name := Js.or_str (opt_name o) None;
     Layer.methods := Layer.build_methods ms;
     Layer.paramNames := snd (pathToRegexp p o);
     Layer.stack := a;
     Layer.path := p;
     Layer.regexp := fst (pathToRegexp p o) |}.

(** The entry that [register] adds to the router [r] for one path. *)
Definition entry_for (r : Router.t) (p : string) (ms : list string) (a : loc)
    (o : Router.RegOpts) : Layer.t :=
  let l := constructed p ms a (Router.layer_opts r o) in
  match Router.prefix (Router.opts r) with
  | Some pre => if Js.truthy_str pre then Layer.setPrefix pre l else l
  | None => l
  end.

(** The validators stored in a router, in the order of [Object.keys]. *)
Definition stored_validators (r : Router.t) : list (string * FnId) :=
  flat_map (fun prm => match Js.own (Router.params r) prm with
                       | Some f => [(prm, f)]
                       | None => []
                       end)
           (Js.keys (Router.params r)).

(** The store after the validators of [vals] have been given to [route]. *)
Definition with_validators (route : Layer.t) (vals : list (string * FnId)) (h : Heap)
  : Heap :=
  fold_left (fun h pf => Layer.param route (fst pf) (snd pf) h) vals h.

(** The copy of a nested entry that [use] pushes: prefixed by the mount
    path, then by the prefix of the mounting router. *)
Definition mount_copy (p pre : option string) (l : Layer.t) : Layer.t :=
  let l1 := if Js.truthy_opt p then Layer.setPrefix (default EmptyString p) l else l in
  if Js.truthy_opt pre then Layer.setPrefix (default EmptyString pre) l1 else l1.
End Registration.

Definition push_layers (ls : list Layer.t) (r : Router.t) : Router.t :=
  fold_left (fun r l => Router.push_layer l r) ls r.

(** *** Growth of the registry *)

(** What identifies an entry apart from its pattern. *)
Definition entry_key (l : Layer.t) : option string * list string * loc :=
  (Layer.name l, Layer.methods l, Layer.stack l).

(** Every array of [h] is an array of [h'], with the elements it had in the
    order they had. *)
Definition heap_grows (h h' : Heap) : Prop :=
  forall a st, h !! a = Some st -> exists st', h' !! a = Some st' /\ sublist st st'.

(** The entries of [r] are the first entries of [r'], in the same order. *)
Definition router_grows (r r' : Router.t) : Prop :=
  exists added, map entry_key (Router.stack r') = map entry_key (Router.stack r) ++ added.

(** Every router of [w] is a router of [w'] that has grown, and every array
    of [w] is an array of [w'] to which elements have only been added. *)
Definition world_grows (w w' : Router.World) : Prop :=
  (forall i r, Router.routers w !! i = Some r ->
               exists r', Router.routers w' !! i = Some r' /\ router_grows r r')
  /\ (forall a st, Router.arrays w !! a = Some st ->
                  exists st', Router.arrays w' !! a = Some st' /\ sublist st st').

Definition grows {A : Type} (m : M Router.World A) : Prop :=
  forall w, world_grows w (snd (m w)).

(** *** Text *)

Fixpoint no_percent (s : string) : bool :=
  match s with
  | EmptyString => true
  | String a r => negb (Ascii.eqb a "%") && no_percent r
  end.

(** *** Validators of a pattern *)

(** The wrappers of the validators of [vals] whose parameter is among the
    names of a pattern. *)
Definition declared_validators (names : list KeyName) (vals : list (string * FnId))
  : list Middleware :=
  map (fun pf => ParamFn (fst pf) (snd pf))
      (List.filter (fun pf => (Js.indexOf key_is (fst pf) names >? -1)%Z) vals).

(** *** Stacks of functions *)

(** The array at [a] exists and passes the check of the layer
    constructor. *)
Definition function_array (h : Heap) (a : loc) : Prop :=
  exists st, h !! a = Some st /\ Layer.first_non_function st = None.

Definition callable_router (h : Heap) (r : Router.t) : Prop :=
  List.Forall (fun l => function_array h (Layer.stack l)) (Router.stack r).

Definition callable_world (w : Router.World) : Prop :=
  List.Forall (callable_router (Router.arrays w)) (Router.routers w).

(** The store [h'] has the arrays of [h], and those that passed the check
    of the constructor still pass it. *)
Definition extends (h h' : Heap) : Prop :=
  length h <= length h' /\ forall a, function_array h a -> function_array h' a.

Definition stable (P : Heap -> Prop) : Prop :=
  forall h h', extends h h' -> P h -> P h'.

(** [safe P m Q]: run in a world whose entries hold functions and whose
    store satisfies [P], [m] leaves such a world, whether it returns or
    throws, and the store satisfies [Q a] when it returns [a]. *)
Definition safe {A : Type} (P : Heap -> Prop) (m : M Router.World A)
    (Q : A -> Heap -> Prop) : Prop :=
  forall w, callable_world w -> P (Router.arrays w) ->
    callable_world (snd (m w))
    /\ (forall a, fst (m w) = inr a -> Q a (Router.arrays (snd (m w)))).

(** A middleware argument that is an array is an array of the store. *)
Definition in_heap (mw : Layer.MwArg) (h : Heap) : Prop :=
  match mw with
  | Layer.MwArray a => a < length h
  | Layer.MwSingle _ => True
  end.

(** The calls a program can write: [register] is given a function, or is
    reached through a verb method or [use], which make the array they pass
    to it. *)
Definition from_interface (op : Config.Op) : bool :=
  match op with
  | Config.ORegister _ _ _ (Layer.MwArray _) _ => false
  | _ => true
  end.

(* ===================================================================== *)
(** * Properties *)
(* ===================================================================== *)

(** ** Every entry that lists GET also lists HEAD *)

Lemma push_method_pushes (acc : list string) (m : string) :
  Layer.push_method acc m =
    if Js.toUpperCase m =? "GET"
    then "HEAD" :: acc ++ [Js.toUpperCase m]
    else acc ++ [Js.toUpperCase m].
Proof.
  unfold Layer.push_method.
  replace (length (acc ++ [Js.toUpperCase m]) - 1) with (length acc)
    by (rewrite length_app; simpl; lia).
  rewrite (list_lookup_middle acc [] (Js.toUpperCase m) (length acc) eq_refl).
  reflexivity.
Qed.

Lemma push_method_keeps_head (acc : list string) (m : string) :
  (In "GET" acc -> In "HEAD" acc) ->
  In "GET" (Layer.push_method acc m) -> In "HEAD" (Layer.push_method acc m).
Proof.
  intros Hacc. rewrite push_method_pushes.
  destruct (Js.toUpperCase m =? "GET") eqn:E.
  - intros _. left. reflexivity.
  - intros Hin. apply in_app_or in Hin. apply in_or_app.
    destruct Hin as [Hin | Hin].
    + left. auto.
    + simpl in Hin. destruct Hin as [Hin | []].
      rewrite Hin in E. discriminate E.
Qed.

Lemma fold_push_keeps_head (ms acc : list string) :
  (In "GET" acc -> In "HEAD" acc) ->
  In "GET" (fold_left Layer.push_method ms acc) ->
  In "HEAD" (fold_left Layer.push_method ms acc).
Proof.
  revert acc. induction ms as [| m ms IH]; intros acc Hacc; simpl.
  - exact Hacc.
  - apply IH. apply push_method_keeps_head. exact Hacc.
Qed.

Lemma build_methods_head (ms : list string) :
  In "GET" (Layer.build_methods ms) -> In "HEAD" (Layer.build_methods ms).
Proof.
  apply fold_push_keeps_head. intros [].
Qed.

Section HeadInvariant.
Context {lib : PathLib}.

Lemma keeps_ret {A : Type} (a : A) (Q : A -> Prop) : Q a -> keeps (ret a) Q.
Proof.
  intros Ha w Hw. split; [exact Hw |]. simpl. intros a' E. inversion E. subst. exact Ha.
Qed.

Lemma keeps_throw {A : Type} (e : Exn) (Q : A -> Prop) : keeps (throw e) Q.
Proof.
  intros w Hw. split; [exact Hw |]. simpl. intros a' E. discriminate E.
Qed.

Lemma keeps_bind {A B : Type} (m : M Router.World A) (k : A -> M Router.World B)
    (Q : A -> Prop) (R : B -> Prop) :
  keeps m Q -> (forall a, Q a -> keeps (k a) R) -> keeps (bind m k) R.
Proof.
  intros Hm Hk w Hw. unfold bind.
  destruct (Hm w Hw) as [Hw' Hq].
  destruct (m w) as [[e | a] w'] eqn:E; simpl in *.
  - split; [exact Hw' |]. intros b Hb. discriminate Hb.
  - apply (Hk a (Hq a eq_refl) w' Hw').
Qed.

Lemma keeps_weaken {A : Type} (m : M Router.World A) (Q R : A -> Prop) :
  keeps m Q -> (forall a, Q a -> R a) -> keeps m R.
Proof.
  intros Hm HQR w Hw. destruct (Hm w Hw) as [H1 H2]. split; auto.
Qed.

Lemma keeps_for_each {A : Type} (l : list A) (body : A -> M Router.World unit) :
  (forall x, In x l -> keeps (body x) (fun _ => True)) ->
  keeps (for_each l body) (fun _ => True).
Proof.
  induction l as [| x l IH]; intros Hbody; simpl.
  - apply keeps_ret. exact I.
  - apply keeps_bind with (Q := fun _ => True).
    + apply Hbody. left. reflexivity.
    + intros _ _. apply IH. intros y Hy. apply Hbody. right. exact Hy.
Qed.

Lemma keeps_get_router (self : loc) : keeps (Router.get_router self) good_router.
Proof.
  intros w Hw. unfold Router.get_router.
  destruct (Router.routers w !! self) as [r |] eqn:E; simpl.
  - split; [exact Hw |]. intros a Ha. inversion Ha. subst.
    unfold good_world in Hw. rewrite Forall_forall in Hw. apply Hw.
    eapply list_elem_of_lookup_2. exact E.
  - split; [exact Hw |]. intros a Ha. discriminate Ha.
Qed.

Lemma keeps_update_router (self : loc) (f : Router.t -> Router.t) :
  (forall r, good_router r -> good_router (f r)) ->
  keeps (Router.update_router self f) (fun _ => True).
Proof.
  intros Hf w Hw. split; [| auto]. simpl. unfold good_world in *. simpl.
  apply Forall_alter; [exact Hw |].
  intros r _ Hr. apply Hf. exact Hr.
Qed.

Lemma keeps_update_arrays (f : Heap -> Heap) :
  keeps (Router.update_arrays f) (fun _ => True).
Proof.
  intros w Hw. split; [exact Hw | auto].
Qed.

Lemma keeps_on_arrays {A : Type} (m : M Heap A) (Q : A -> Prop) :
  (forall h a, fst (m h) = inr a -> Q a) -> keeps (Router.on_arrays m) Q.
Proof.
  intros Hm w Hw. unfold Router.on_arrays.
  specialize (Hm (Router.arrays w)).
  destruct (m (Router.arrays w)) as [res h'] eqn:E. simpl in *.
  split; [exact Hw | exact Hm].
Qed.

Lemma new_layer_lists_head (p : string) (ms : list string) (mw : Layer.MwArg)
    (o : LayerOpts) (h : Heap) (l : Layer.t) :
  fst (Layer.new p ms mw o h) = inr l -> lists_head_with_get l.
Proof.
  unfold Layer.new, bind, gets, throw, ret.
  destruct mw as [a | m]; simpl.
  - destruct (Layer.first_non_function (read_array h a)); simpl; [discriminate |].
    destruct (pathToRegexp p o) as [re keys]. simpl.
    intros E. inversion E. subst. unfold lists_head_with_get. simpl.
    apply build_methods_head.
  - destruct (Layer.first_non_function _); simpl; [discriminate |].
    destruct (pathToRegexp p o) as [re keys]. simpl.
    intros E. inversion E. subst. unfold lists_head_with_get. simpl.
    apply build_methods_head.
Qed.

Lemma setPrefix_lists_head (pre : string) (l : Layer.t) :
  lists_head_with_get l -> lists_head_with_get (Layer.setPrefix pre l).
Proof.
  unfold Layer.setPrefix, lists_head_with_get.
  destruct (Js.truthy_str (Layer.path l)); [| auto].
  destruct (pathToRegexp _ _) as [re keys]. simpl. auto.
Qed.

Lemma push_layer_good (l : Layer.t) (r : Router.t) :
  lists_head_with_get l -> good_router r -> good_router (Router.push_layer l r).
Proof.
  intros Hl Hr. unfold good_router, Router.push_layer. simpl.
  apply Forall_app. split; [exact Hr |]. constructor; [exact Hl | constructor].
Qed.

Lemma set_param_good (prm : string) (f : FnId) (r : Router.t) :
  good_router r -> good_router (Router.set_param prm f r).
Proof.
  intros Hr. exact Hr.
Qed.
End HeadInvariant.

Section HeadInvariantOps.
Context {lib : PathLib}.

Lemma keeps_param_loop (params : Js.Obj FnId) (route : Layer.t) (ks : list string) :
  keeps (for_each ks
           (fun prm =>
              match Js.own params prm with
              | Some f => Router.update_arrays (Layer.param route prm f)
              | None => ret tt
              end)) (fun _ => True).
Proof.
  apply keeps_for_each. intros prm _.
  destruct (Js.own params prm); [apply keeps_update_arrays | apply keeps_ret; exact I].
Qed.

Lemma keeps_register_one (self : loc) (p : string) (ms : list string)
    (mw : Layer.MwArg) (o : Router.RegOpts) :
  keeps (Router.register_one self p ms mw o) (fun _ => True).
Proof.
  unfold Router.register_one.
  eapply keeps_bind; [apply keeps_get_router |]. intros r Hr.
  eapply keeps_bind.
  { apply keeps_on_arrays with (Q := lists_head_with_get).
    intros h a. apply new_layer_lists_head. }
  intros route Hroute.
  eapply keeps_bind; [apply keeps_param_loop |]. intros _ _.
  eapply keeps_bind.
  { apply keeps_update_router. intros r' Hr'. apply push_layer_good; [| exact Hr'].
    destruct (Router.prefix (Router.opts r)) as [pre |]; [| exact Hroute].
    destruct (Js.truthy_str pre); [| exact Hroute].
    apply setPrefix_lists_head. exact Hroute. }
  intros _ _. apply keeps_ret. exact I.
Qed.

Lemma keeps_register (self : loc) (p : Router.PathArg) (ms : list string)
    (mw : Layer.MwArg) (o : Router.RegOpts) :
  keeps (Router.register self p ms mw o) (fun _ => True).
Proof.
  destruct p as [p | ps]; simpl.
  - apply keeps_register_one.
  - eapply keeps_bind with (Q := fun _ => True).
    + apply keeps_for_each. intros curPath _.
      eapply keeps_bind; [apply keeps_register_one |].
      intros _ _. apply keeps_ret. exact I.
    + intros _ _. apply keeps_ret. exact I.
Qed.

Lemma keeps_slice_arguments (n : nat) (arguments : list Router.Arg) :
  keeps (Router.slice_arguments n arguments) (fun _ => True).
Proof.
  apply keeps_on_arrays. auto.
Qed.

Lemma keeps_verb (method : string) (self : loc) (arguments : list Router.Arg) :
  keeps (Router.verb method self arguments) (fun _ => True).
Proof.
  unfold Router.verb.
  assert (Hreg : forall p mw o,
             keeps (bind (Router.register self p [method] mw o) (fun _ => ret tt))
                   (fun _ => True)).
  { intros p mw o. eapply keeps_bind; [apply keeps_register |].
    intros _ _. apply keeps_ret. exact I. }
  destruct (arguments !! 1) as [[p | ps | m] |].
  - eapply keeps_bind; [apply keeps_slice_arguments |]. intros mw _. apply Hreg.
  - eapply keeps_bind; [apply keeps_slice_arguments |]. intros mw _.
    destruct (arguments !! 0) as [[p | ps' | m] |];
      first [apply Hreg | apply keeps_throw].
  - eapply keeps_bind; [apply keeps_slice_arguments |]. intros mw _.
    destruct (arguments !! 0) as [[p | ps' | m'] |];
      first [apply Hreg | apply keeps_throw].
  - eapply keeps_bind; [apply keeps_slice_arguments |]. intros mw _.
    destruct (arguments !! 0) as [[p | ps' | m'] |];
      first [apply Hreg | apply keeps_throw].
Qed.

Lemma keeps_param (self : loc) (prm : string) (f : FnId) :
  keeps (Router.param self prm f) (fun _ => True).
Proof.
  unfold Router.param.
  eapply keeps_bind.
  { apply keeps_update_router. intros r. apply set_param_good. }
  intros _ _. eapply keeps_bind; [apply keeps_get_router |]. intros r _.
  apply keeps_for_each. intros route _. apply keeps_update_arrays.
Qed.

Lemma keeps_use_router (self : loc) (p : option string) (nested : loc) :
  keeps (Router.use_router self p nested) (fun _ => True).
Proof.
  unfold Router.use_router.
  eapply keeps_bind; [apply keeps_get_router |]. intros child Hchild.
  eapply keeps_bind with (Q := fun _ => True).
  { unfold good_router in Hchild. revert Hchild.
    generalize (Router.stack child) as ls.
    induction ls as [| nestedLayer rest IH]; intros Hls.
    - apply keeps_ret. exact I.
    - inversion Hls as [| ? ? Hhd Htl]; subst.
      eapply keeps_bind; [apply keeps_get_router |]. intros router _.
      eapply keeps_bind.
      { apply keeps_update_router. intros r' Hr'. apply push_layer_good; [| exact Hr'].
        destruct (Js.truthy_opt (Router.prefix (Router.opts router)));
          destruct (Js.truthy_opt p);
          repeat apply setPrefix_lists_head; exact Hhd. }
      intros _ _. eapply keeps_bind; [apply (IH Htl) |].
      intros cs _. apply keeps_ret. exact I. }
  intros clones _.
  eapply keeps_bind; [apply keeps_get_router |]. intros router _.
  apply keeps_for_each. intros key _.
  destruct (Js.own (Router.params router) key) as [f |]; [| apply keeps_ret; exact I].
  eapply keeps_bind.
  { apply keeps_update_router. intros r. apply set_param_good. }
  intros _ _. apply keeps_for_each. intros l _. apply keeps_update_arrays.
Qed.

Lemma keeps_use_plain (self : loc) (hasPath : bool) (p : option string)
    (m : Router.Arg) :
  keeps (Router.use_plain self hasPath p m) (fun _ => True).
Proof.
  unfold Router.use_plain.
  eapply keeps_bind; [apply keeps_get_router |]. intros router _.
  eapply keeps_bind with (Q := fun _ => True).
  { destruct m as [s | items | m]; try (apply keeps_ret; exact I).
    eapply keeps_bind with (Q := fun _ => True); [apply keeps_on_arrays; auto |].
    intros a _. apply keeps_ret. exact I. }
  intros mw _. eapply keeps_bind; [apply keeps_register |].
  intros _ _. apply keeps_ret. exact I.
Qed.

Lemma keeps_use_at (self : loc) (arguments : list Router.Arg) :
  keeps (Router.use_at self arguments) (fun _ => True).
Proof.
  unfold Router.use_at. apply keeps_for_each. intros m _.
  destruct m as [s | items | [f | prm f | nested | ty]];
    first [apply keeps_use_router | apply keeps_use_plain].
Qed.

Lemma keeps_use (self : loc) (arguments : list Router.Arg) :
  keeps (Router.use self arguments) (fun _ => True).
Proof.
  unfold Router.use.
  destruct arguments as [| [s | [| p0 ps] | m] rest]; try apply keeps_use_at.
  apply keeps_for_each. intros p _. apply keeps_use_at.
Qed.

Lemma keeps_set_prefix (self : loc) (pre : string) :
  keeps (Router.set_prefix self pre) (fun _ => True).
Proof.
  unfold Router.set_prefix. apply keeps_update_router.
  intros r Hr. unfold good_router in *. simpl.
  rewrite Forall_forall in Hr. rewrite Forall_forall. intros l Hl.
  apply list_elem_of_fmap in Hl. destruct Hl as [l0 [-> Hl0]].
  apply setPrefix_lists_head. apply Hr. exact Hl0.
Qed.

Lemma keeps_new (o : Router.Opts) : keeps (Router.new o) (fun _ => True).
Proof.
  intros w Hw. split; [| auto]. unfold Router.new, good_world. simpl.
  apply Forall_app. split; [exact Hw |].
  constructor; [| constructor]. unfold good_router. simpl. constructor.
Qed.

Lemma keeps_exec_op (op : Config.Op) : keeps (Config.exec_op op) (fun _ => True).
Proof.
  destruct op; simpl.
  - eapply keeps_bind; [apply keeps_new |]. intros _ _. apply keeps_ret. exact I.
  - apply keeps_verb.
  - eapply keeps_bind; [apply keeps_register |]. intros _ _. apply keeps_ret. exact I.
  - apply keeps_use.
  - apply keeps_param.
  - apply keeps_set_prefix.
Qed.

Lemma configure_good (ops : list Config.Op) (w : Router.World) :
  good_world w -> good_world (Config.configure ops w).
Proof.
  revert w. induction ops as [| op ops IH]; intros w Hw; simpl.
  - exact Hw.
  - apply IH. apply (keeps_exec_op op w Hw).
Qed.

(** C5. In every world built by the configuration interface (verb methods
    with methods in any case, [register], [use], [param], [prefix]), an
    entry whose method list contains GET also contains HEAD, in the same
    list. *)
Theorem get_entries_list_head (ops : list Config.Op) (r : Router.t) (l : Layer.t) :
  In r (Router.routers (Config.configure ops Router.empty_world)) ->
  In l (Router.stack r) ->
  In "GET" (Layer.methods l) ->
  In "HEAD" (Layer.methods l).
Proof.
  intros Hr Hl.
  assert (Hw : good_world (Config.configure ops Router.empty_world)).
  { apply configure_good. constructor. }
  unfold good_world in Hw. rewrite Forall_forall in Hw.
  apply list_elem_of_In in Hr. specialize (Hw r Hr).
  unfold good_router in Hw. rewrite Forall_forall in Hw.
  apply list_elem_of_In in Hl. exact (Hw l Hl).
Qed.
End HeadInvariantOps.

Lemma get_entries_list_head_witness :
  In "HEAD" (Layer.methods (Examples.layer_at (Examples.built Examples.get_and_post) 0 0)).
Proof.
  apply (get_entries_list_head (lib := Sample.lib) Examples.get_and_post
           (Examples.router_at (Examples.built Examples.get_and_post) 0)
           (Examples.layer_at (Examples.built Examples.get_and_post) 0 0)).
  - vm_compute. left. reflexivity.
  - vm_compute. left. reflexivity.
  - vm_compute. right. left. reflexivity.
Defined.

(** ** [indexOf] *)

Lemma indexOf_from_bounds {A B : Type} (eqb : A -> B -> bool) (x : B) (l : list A) (i : Z) :
  (0 <= i)%Z ->
  Js.indexOf_from eqb x l i = (-1)%Z \/ (i <= Js.indexOf_from eqb x l i)%Z.
Proof.
  revert i. induction l as [| y l IH]; intros i Hi; simpl.
  - left. reflexivity.
  - destruct (eqb y x).
    + right. lia.
    + destruct (IH (i + 1)%Z ltac:(lia)) as [H | H]; [left; exact H | right; lia].
Qed.

Lemma indexOf_from_absent (x : string) (l : list string) (i : Z) :
  (0 <= i)%Z ->
  (Js.indexOf_from String.eqb x l i = (-1)%Z <-> ~ In x l).
Proof.
  revert i. induction l as [| y l IH]; intros i Hi; simpl.
  - split; [intros _ [] | reflexivity].
  - destruct (String.eqb_spec y x) as [-> | Hne].
    + split; [lia | intros H; exfalso; apply H; left; reflexivity].
    + rewrite (IH (i + 1)%Z ltac:(lia)). split.
      * intros H [Heq | Hin]; [exact (Hne Heq) | exact (H Hin)].
      * intros H Hin. apply H. right. exact Hin.
Qed.

Lemma indexOf_absent (x : string) (l : list string) :
  Js.indexOf String.eqb x l = (-1)%Z <-> ~ In x l.
Proof.
  apply indexOf_from_absent. lia.
Qed.

Lemma indexOf_present (x : string) (l : list string) :
  (Js.indexOf String.eqb x l =? -1)%Z = false <-> In x l.
Proof.
  rewrite Z.eqb_neq, indexOf_absent. split.
  - intros H. destruct (in_dec string_dec x l) as [Hin | Hout]; [exact Hin | contradiction].
  - intros H Hn. exact (Hn H).
Qed.

(** ** What [match] collects *)

Section Matching.
Context {lib : PathLib}.

Lemma match_fold (p method : string) (ls : list Layer.t) (acc : Router.Matched) :
  fold_left (Router.match_step p method) ls acc =
    {| Router.m_path :=
         Router.m_path acc ++ List.filter (fun l => Layer.matches l p) ls;
       Router.m_pathAndMethod :=
         Router.m_pathAndMethod acc
           ++ List.filter (fun l => Layer.matches l p && accepts method l) ls;
       Router.m_route :=
         Router.m_route acc
         || existsb (fun l => Layer.matches l p && accepts method l && has_methods l) ls |}.
Proof.
  revert acc. induction ls as [| l ls IH]; intros acc; simpl.
  - rewrite !app_nil_r, orb_false_r. destruct acc; reflexivity.
  - rewrite IH. unfold Router.match_step, accepts, has_methods.
    destruct (Layer.matches l p); simpl; [| reflexivity].
    destruct ((length (Layer.methods l) =? 0)%nat
              || negb (Js.indexOf String.eqb method (Layer.methods l) =? -1)%Z) eqn:E;
      simpl.
    + rewrite <- !app_assoc. simpl.
      destruct (length (Layer.methods l) =? 0)%nat; simpl.
      * reflexivity.
      * rewrite orb_true_r. reflexivity.
    + rewrite <- !app_assoc. reflexivity.
Qed.

Lemma match_path (r : Router.t) (p method : string) :
  Router.m_path (Router.match_ r p method)
  = List.filter (fun l => Layer.matches l p) (Router.stack r).
Proof.
  unfold Router.match_. rewrite match_fold. reflexivity.
Qed.

Lemma match_pathAndMethod (r : Router.t) (p method : string) :
  Router.m_pathAndMethod (Router.match_ r p method)
  = List.filter (fun l => Layer.matches l p && accepts method l) (Router.stack r).
Proof.
  unfold Router.match_. rewrite match_fold. reflexivity.
Qed.

Lemma match_route (r : Router.t) (p method : string) :
  Router.m_route (Router.match_ r p method)
  = existsb (fun l => Layer.matches l p && accepts method l && has_methods l)
            (Router.stack r).
Proof.
  unfold Router.match_. rewrite match_fold. reflexivity.
Qed.

Lemma has_methods_nonempty (l : Layer.t) :
  has_methods l = true <-> Layer.methods l <> [].
Proof.
  unfold has_methods. destruct (Layer.methods l); simpl; split; intros H; congruence.
Qed.

(** C6. [match] sets its [route] flag exactly when some entry among those
    matching both path and method has a non-empty method list, where an
    entry matches both when its pattern matches the path and its method list
    is empty or contains the method.  When the flag is false the dispatcher
    calls [next] on the context, with the path matches recorded, and raises
    nothing of its own. *)
Theorem exact_route_flag (w : Router.World) (env : Router.Env) (self : loc)
    (r : Router.t) (ctx : Ctx.t) :
  Router.routers w !! self = Some r ->
  let p := Router.lookup_path r ctx in
  let found := Router.match_ r p (Ctx.method ctx) in
  (forall l, In l (Router.m_pathAndMethod found) <->
             In l (Router.stack r) /\ Layer.matches l p = true
             /\ (Layer.methods l = [] \/ In (Ctx.method ctx) (Layer.methods l)))
  /\ (Router.m_route found = true <->
      exists l, In l (Router.m_pathAndMethod found) /\ Layer.methods l <> [])
  /\ (Router.m_route found = false ->
      forall next, Router.dispatch w env self ctx next
                   = next (Router.accumulate (Router.m_path found) ctx self)).
Proof.
  intros Hr p found. split; [| split].
  - intros l. unfold found. rewrite match_pathAndMethod, filter_In.
    unfold accepts. rewrite andb_true_iff, orb_true_iff, negb_true_iff, indexOf_present.
    rewrite Nat.eqb_eq, length_zero_iff_nil. tauto.
  - unfold found. rewrite match_route, match_pathAndMethod, existsb_exists.
    split.
    + intros [l [Hl Hc]]. rewrite !andb_true_iff in Hc. destruct Hc as [[Hm Ha] Hh].
      exists l. split.
      * apply filter_In. split; [exact Hl |]. rewrite Hm, Ha. reflexivity.
      * apply has_methods_nonempty. exact Hh.
    + intros [l [Hl Hne]]. apply filter_In in Hl. destruct Hl as [Hl Hc].
      exists l. split; [exact Hl |]. rewrite Hc. simpl.
      apply has_methods_nonempty. exact Hne.
  - intros Hroute next. unfold Router.dispatch. rewrite Hr.
    fold p. fold found. rewrite Hroute. reflexivity.
Qed.
End Matching.

Lemma exact_route_flag_witness :
  Router.dispatch (Examples.built Examples.route_and_mount) Examples.env 0
    (Examples.request "GET" "/y") Examples.finish
  = inr (Router.accumulate
           (Router.m_path
              (Router.match_ (Examples.router_at (Examples.built Examples.route_and_mount) 0)
                 "/y" "GET"))
           (Examples.request "GET" "/y") 0).
Proof.
  pose proof (exact_route_flag
                (Examples.built Examples.route_and_mount) Examples.env 0
                (Examples.router_at (Examples.built Examples.route_and_mount) 0)
                (Examples.request "GET" "/y") eq_refl) as H.
  destruct H as [_ [_ H]].
  exact (H eq_refl Examples.finish).
Defined.

(** ** URL generation by route name *)

Section UrlByName.
Context {lib : PathLib}.

Lemma route_in_none (ls : list Layer.t) (nm : string) :
  (forall l, In l ls -> Layer.name l <> Some nm) -> Router.route_in ls nm = None.
Proof.
  induction ls as [| l ls IH]; intros H; simpl.
  - reflexivity.
  - destruct (Layer.name l) as [n |] eqn:En; simpl.
    + destruct (String.eqb_spec n nm) as [-> | Hne].
      * exfalso. apply (H l); [left; reflexivity | exact En].
      * rewrite andb_false_r. apply IH. intros l' Hl'. apply H. right. exact Hl'.
    + apply IH. intros l' Hl'. apply H. right. exact Hl'.
Qed.

Lemma route_in_first (pre post : list Layer.t) (l : Layer.t) (nm : string) :
  Layer.name l = Some nm -> nm <> EmptyString ->
  (forall l', In l' pre -> Layer.name l' <> Some nm) ->
  Router.route_in (pre ++ l :: post) nm = Some l.
Proof.
  intros Hname Hnm. induction pre as [| l0 pre IH]; intros Hpre; simpl.
  - rewrite Hname. simpl. unfold Js.truthy_str.
    destruct (String.eqb_spec nm EmptyString) as [E | _]; [contradiction |].
    rewrite String.eqb_refl. reflexivity.
  - destruct (Layer.name l0) as [n |] eqn:En; simpl.
    + destruct (String.eqb_spec n nm) as [-> | Hne].
      * exfalso. apply (Hpre l0); [left; reflexivity | exact En].
      * rewrite andb_false_r. apply IH. intros l' Hl'. apply Hpre. right. exact Hl'.
    + apply IH. intros l' Hl'. apply Hpre. right. exact Hl'.
Qed.

(** C8. [url(name, ...)] never changes the world.  For a name that no entry
    of the router bears it returns an [Error] object as its value, it does
    not throw.  When entries bear the name, the first of them in
    registration order builds the URL. *)
Theorem url_by_name (w : Router.World) (self : loc) (r : Router.t)
    (nm : string) (args : list Val) :
  Router.routers w !! self = Some r ->
  snd (Router.url self nm args w) = w
  /\ ((forall l, In l (Router.stack r) -> Layer.name l <> Some nm) ->
      fst (Router.url self nm args w)
      = inr (Router.RError ("No route found for name: " ++ nm)))
  /\ (forall pre l post,
        Router.stack r = pre ++ l :: post ->
        Layer.name l = Some nm -> nm <> EmptyString ->
        (forall l', In l' pre -> Layer.name l' <> Some nm) ->
        fst (Router.url self nm args w)
        = match Layer.url l args with
          | inr s => inr (Router.RString s)
          | inl e => inl e
          end).
Proof.
  intros Hr. unfold Router.url, bind, Router.get_router. rewrite Hr.
  split; [| split].
  - destruct (Router.route r nm) as [l |]; [| reflexivity].
    destruct (Layer.url l args); reflexivity.
  - intros Hnone. unfold Router.route. rewrite (route_in_none _ _ Hnone). reflexivity.
  - intros pre l post Hstack Hname Hnm Hpre. unfold Router.route.
    rewrite Hstack, (route_in_first pre post l nm Hname Hnm Hpre).
    destruct (Layer.url l args); reflexivity.
Qed.
End UrlByName.

Lemma url_by_name_witness :
  let w := Examples.built Examples.named_user in
  snd (Router.url (lib := Sample.lib) 0 "nope" [] w) = w
  /\ fst (Router.url (lib := Sample.lib) 0 "nope" [] w)
     = inr (Router.RError "No route found for name: nope")
  /\ fst (Router.url (lib := Sample.lib) 0 "user" [VNum 3] w)
     = inr (Router.RString "/users/3").
Proof.
  intros w.
  pose proof (url_by_name (lib := Sample.lib) w 0 (Examples.router_at w 0) "nope" []
                eq_refl) as [Hsame [Hnone _]].
  pose proof (url_by_name (lib := Sample.lib) w 0 (Examples.router_at w 0) "user" [VNum 3]
                eq_refl) as [_ [_ Hfirst]].
  split; [exact Hsame | split].
  - apply Hnone. intros l Hl. vm_compute in Hl.
    destruct Hl as [<- | [<- | []]]; vm_compute; discriminate.
  - rewrite (Hfirst [] (Examples.layer_at w 0 0) [Examples.layer_at w 0 1]).
    + reflexivity.
    + reflexivity.
    + reflexivity.
    + discriminate.
    + intros l' [].
Defined.

(** ** Own properties after an assignment *)

Section ObjectFacts.
Context {V : Type}.

Lemma own_replace_eq (k : string) (v v0 : V) (o : Js.Obj V) :
  Js.own o k = Some v0 -> Js.own (Js.replace_own k v o) k = Some v.
Proof.
  induction o as [| [k' v'] o IH]; simpl; [discriminate |].
  destruct (String.eqb_spec k' k) as [-> | Hne]; simpl.
  - intros _. rewrite String.eqb_refl. reflexivity.
  - intros H. destruct (String.eqb_spec k' k); [contradiction | auto].
Qed.

Lemma own_replace_ne (k k' : string) (v : V) (o : Js.Obj V) :
  k <> k' -> Js.own (Js.replace_own k v o) k' = Js.own o k'.
Proof.
  intros Hne. induction o as [| [k0 v0] o IH]; simpl; [reflexivity |].
  destruct (String.eqb_spec k0 k) as [-> | Hk]; simpl.
  - destruct (String.eqb_spec k k') as [E | _]; [contradiction | reflexivity].
  - rewrite IH. reflexivity.
Qed.

Lemma own_app (o : Js.Obj V) (k k' : string) (v : V) :
  Js.own (o ++ [(k, v)]) k' =
    match Js.own o k' with
    | Some x => Some x
    | None => if k =? k' then Some v else None
    end.
Proof.
  induction o as [| [k0 v0] o IH]; simpl; [reflexivity |].
  destruct (k0 =? k'); [reflexivity | exact IH].
Qed.

Lemma own_set_eq (k : string) (v : V) (o : Js.Obj V) :
  k <> "__proto__" -> Js.own (Js.set k v o) k = Some v.
Proof.
  intros Hk. unfold Js.set.
  destruct (String.eqb_spec k "__proto__") as [E | _]; [contradiction |].
  destruct (Js.own o k) as [v0 |] eqn:E.
  - apply (own_replace_eq k v v0). exact E.
  - rewrite own_app, E, String.eqb_refl. reflexivity.
Qed.

Lemma own_set_ne (k k' : string) (v : V) (o : Js.Obj V) :
  k <> k' -> Js.own (Js.set k v o) k' = Js.own o k'.
Proof.
  intros Hne. unfold Js.set.
  destruct (k =? "__proto__"); [reflexivity |].
  destruct (Js.own o k) as [v0 |] eqn:E.
  - apply own_replace_ne. exact Hne.
  - rewrite own_app. destruct (String.eqb_spec k k') as [Heq | _]; [contradiction |].
    destruct (Js.own o k'); reflexivity.
Qed.
End ObjectFacts.

(** ** Parameter extraction *)

Lemma truthy_str_nonempty (s : string) : Js.truthy_str s = true <-> s <> EmptyString.
Proof.
  unfold Js.truthy_str. destruct (String.eqb_spec s EmptyString); simpl; split; congruence.
Qed.

Lemma params_step_skipped (names : list KeyName) (i : nat) (c : option string)
    (ps : Js.Obj string) :
  skipped c -> Layer.params_step names i c ps = ps.
Proof.
  intros [-> | ->]; unfold Layer.params_step; destruct (names !! i); reflexivity.
Qed.

Lemma params_from_frame (names : list KeyName) (key : string)
    (caps : list (option string)) :
  forall (i : nat) (ps : Js.Obj string),
    (forall j k c, names !! (i + j) = Some k -> prop_key k = key ->
                   caps !! j = Some c -> skipped c) ->
    Js.own (Layer.params_from names i caps ps) key = Js.own ps key.
Proof.
  induction caps as [| c0 caps IH]; intros i ps H; simpl; [reflexivity |].
  rewrite IH.
  - unfold Layer.params_step.
    destruct (names !! i) as [k |] eqn:Ek; [| reflexivity].
    destruct c0 as [s |]; [| reflexivity].
    destruct (Js.truthy_str s && negb (String.length s =? 0)%nat) eqn:Es; [| reflexivity].
    destruct (string_dec (prop_key k) key) as [Hkey | Hkey].
    + assert (Hs : skipped (Some s)).
      { apply (H 0 k (Some s)); [rewrite Nat.add_0_r; exact Ek | exact Hkey | reflexivity]. }
      destruct Hs as [Hs | Hs]; [discriminate |]. inversion Hs. subst. discriminate Es.
    + apply own_set_ne. exact Hkey.
  - intros j k c Hk Hkey Hc. apply (H (S j) k c); [| exact Hkey | exact Hc].
    rewrite <- Hk. f_equal. lia.
Qed.

Lemma params_from_all_skipped (names : list KeyName) (caps : list (option string)) :
  forall (i : nat) (ps : Js.Obj string),
    (forall c, In c caps -> skipped c) ->
    Layer.params_from names i caps ps = ps.
Proof.
  induction caps as [| c0 caps IH]; intros i ps H; simpl; [reflexivity |].
  rewrite params_step_skipped by (apply H; left; reflexivity).
  apply IH. intros c Hc. apply H. right. exact Hc.
Qed.

Lemma params_from_stores (names : list KeyName) (caps : list (option string)) :
  forall (i j : nat) (ps : Js.Obj string) (k : KeyName) (c : string),
    names !! (i + j) = Some k ->
    caps !! j = Some (Some c) ->
    c <> EmptyString ->
    prop_key k <> "__proto__" ->
    (forall j' k' c', j < j' -> names !! (i + j') = Some k' ->
                      prop_key k' = prop_key k -> caps !! j' = Some c' -> skipped c') ->
    Js.own (Layer.params_from names i caps ps) (prop_key k)
    = Some (Layer.safeDecodeURIComponent c).
Proof.
  induction caps as [| c0 caps IH]; intros i j ps k c Hk Hc Hne Hproto Hlater.
  - destruct j; discriminate Hc.
  - destruct j as [| j]; simpl in *.
    + inversion Hc. subst c0.
      rewrite params_from_frame.
      * unfold Layer.params_step. rewrite Nat.add_0_r in Hk. rewrite Hk.
        assert (Ht : Js.truthy_str c = true) by (apply truthy_str_nonempty; exact Hne).
        rewrite Ht. destruct c as [| a c]; [contradiction |]. simpl.
        apply own_set_eq. exact Hproto.
      * intros j' k' c' Hk' Hkey Hc'.
        apply (Hlater (S j') k' c'); [lia | | exact Hkey | exact Hc'].
        rewrite <- Hk'. f_equal. lia.
    + apply (IH (S i) j); try assumption.
      * rewrite <- Hk. f_equal. lia.
      * intros j' k' c' Hlt Hk' Hkey Hc'.
        apply (Hlater (S j') k' c'); [lia | | exact Hkey | exact Hc'].
        rewrite <- Hk'. f_equal. lia.
Qed.

(** C9. A capture that is undefined or empty neither adds the parameter to
    the map nor changes the value it has: the own property of every name
    whose captures are all undefined or empty is what it was, in the map
    that [params] returns and therefore in the context that the binding
    function of a later entry produces; and when every capture is undefined
    or empty the map is returned as it is. *)
Theorem empty_captures_change_nothing (l : Layer.t) (p : string)
    (caps : list (option string)) (key : string) :
  (forall i k c, Layer.paramNames l !! i = Some k -> prop_key k = key ->
                 caps !! i = Some c -> skipped c) ->
  (forall existing,
     Js.own (Layer.params l p caps existing) key = Js.own (default [] existing) key)
  /\ (forall ctx,
        option_map (fun ps => Js.own ps key) (Ctx.params (Router.bound l p caps ctx))
        = Some (Js.own (default [] (Ctx.params ctx)) key))
  /\ ((forall c, In c caps -> skipped c) ->
      forall existing, Layer.params l p caps existing = default [] existing).
Proof.
  intros H. split; [| split].
  - intros existing. unfold Layer.params. apply params_from_frame. exact H.
  - intros ctx. simpl. f_equal. unfold Layer.params. apply params_from_frame. exact H.
  - intros Hall existing. unfold Layer.params. apply params_from_all_skipped. exact Hall.
Qed.

(** C7. A captured text is stored after safe decoding: the parameter holds
    the decoded text, and the captured text itself when [decodeURIComponent]
    throws.  The binding function of a layer that matches the path raises
    nothing: it calls [next] on the context that holds the extracted
    parameters.  The capture is taken non-empty, its parameter is not named
    [__proto__] and no later capture of the same layer bears the same
    name. *)
Theorem malformed_escape_stored_raw (l : Layer.t) (p : string)
    (caps : list (option string)) (existing : option (Js.Obj string))
    (i : nat) (k : KeyName) (c : string) :
  Layer.paramNames l !! i = Some k ->
  caps !! i = Some (Some c) ->
  c <> EmptyString ->
  prop_key k <> "__proto__" ->
  (forall j k' c', i < j -> Layer.paramNames l !! j = Some k' ->
                   prop_key k' = prop_key k -> caps !! j = Some c' -> skipped c') ->
  Js.own (Layer.params l p caps existing) (prop_key k)
  = Some (match Js.decodeURIComponent c with Some d => d | None => c end)
  /\ (Js.decodeURIComponent c = None ->
      Js.own (Layer.params l p caps existing) (prop_key k) = Some c)
  /\ (Layer.captures l p = inr caps ->
      forall ctx next,
        Router.bind_layer l p ctx next = next (Router.bound l p caps ctx)).
Proof.
  intros Hk Hc Hne Hproto Hlater.
  assert (Hstored : Js.own (Layer.params l p caps existing) (prop_key k)
                    = Some (Layer.safeDecodeURIComponent c)).
  { unfold Layer.params. apply (params_from_stores _ caps 0 i); assumption. }
  split; [exact Hstored | split].
  - intros Hfail. rewrite Hstored. unfold Layer.safeDecodeURIComponent.
    rewrite Hfail. reflexivity.
  - intros Hcaps ctx next. unfold Router.bind_layer. rewrite Hcaps. reflexivity.
Qed.

Lemma matching_layer_has_captures (l : Layer.t) (p : string) :
  Layer.matches l p = true -> exists caps, Layer.captures l p = inr caps.
Proof.
  unfold Layer.matches, Layer.captures. intros H.
  destruct (opt_ignoreCaptures (Layer.opts l)); [eexists; reflexivity |].
  destruct (exec (Layer.regexp l) p) as [groups |]; [eexists; reflexivity | discriminate].
Qed.

Lemma empty_captures_change_nothing_witness :
  Js.own (Layer.params (Examples.layer_at (Examples.built Examples.named_user) 0 0)
            "/users" [None] (Some [("id", "7")])) "id"
  = Some "7".
Proof.
  refine (proj1 (empty_captures_change_nothing
                   (Examples.layer_at (Examples.built Examples.named_user) 0 0)
                   "/users" [None] "id" _) (Some [("id", "7")])).
  intros [| i] k c Hk Hkey Hc.
  - inversion Hc. left. reflexivity.
  - destruct i; discriminate Hc.
Defined.

Lemma malformed_escape_stored_raw_witness :
  Js.own (Layer.params (Examples.layer_at (Examples.built Examples.named_user) 0 0)
            "/users/%" [Some "%"] None) "id"
  = Some "%".
Proof.
  refine (proj1 (proj2 (malformed_escape_stored_raw
                          (Examples.layer_at (Examples.built Examples.named_user) 0 0)
                          "/users/%" [Some "%"] None 0 (KName "id") "%"
                          eq_refl eq_refl _ _ _)) eq_refl).
  - discriminate.
  - discriminate.
  - intros j k' c' Hlt Hk' _ Hc'. destruct j as [| j]; [lia |]. discriminate Hc'.
Defined.

Example dispatch_decodes_escape :
  Examples.params_after
    (Router.dispatch (Examples.built Examples.named_user) Examples.env 0
       (Examples.request "GET" "/users/%41") Examples.finish)
  = Some [("id", "A")].
Proof. reflexivity. Qed.

Example dispatch_keeps_malformed_escape :
  Examples.params_after
    (Router.dispatch (Examples.built Examples.named_user) Examples.env 0
       (Examples.request "GET" "/users/%") Examples.finish)
  = Some [("id", "%")].
Proof. reflexivity. Qed.

Example dispatch_plain_parameter :
  Examples.params_after
    (Router.dispatch (Examples.built Examples.named_user) Examples.env 0
       (Examples.request "GET" "/users/42") Examples.finish)
  = Some [("id", "42")].
Proof. reflexivity. Qed.

(** ** The guard of allowed methods *)

Lemma member_In (m : string) (l : list string) : member m l = true <-> In m l.
Proof.
  unfold member. rewrite existsb_exists. split.
  - intros [y [Hy E]]. apply String.eqb_eq in E. subst. exact Hy.
  - intros H. exists m. split; [exact H | apply String.eqb_refl].
Qed.

Lemma member_app (m : string) (l1 l2 : list string) :
  member m (l1 ++ l2) = member m l1 || member m l2.
Proof.
  unfold member. apply existsb_app.
Qed.

Lemma filter_twice {A : Type} (f g h : A -> bool) (l : list A) :
  (forall y, h y = g y && f y) ->
  List.filter f (List.filter g l) = List.filter h l.
Proof.
  intros H. induction l as [| y l IH]; simpl; [reflexivity |].
  rewrite H. destruct (g y); simpl; [| exact IH].
  destruct (f y); [f_equal |]; exact IH.
Qed.

Lemma filter_all {A : Type} (f : A -> bool) (l : list A) :
  (forall y, f y = true) -> List.filter f l = l.
Proof.
  intros H. induction l as [| y l IH]; simpl; [reflexivity |].
  rewrite H, IH. reflexivity.
Qed.

Lemma union_first_In (x : string) (l : list string) :
  In x (union_first l) <-> In x l.
Proof.
  induction l as [| y l IH]; simpl; [tauto |].
  rewrite filter_In, IH, negb_true_iff.
  destruct (String.eqb_spec x y) as [-> | Hne].
  - split; [intros _; left; reflexivity | intros _; left; reflexivity].
  - split.
    + intros [H | [H _]]; [left; exact H | right; exact H].
    + intros [H | H]; [left; exact H | right; split; [exact H | reflexivity]].
Qed.

Lemma union_first_NoDup (l : list string) : List.NoDup (union_first l).
Proof.
  induction l as [| y l IH]; simpl; constructor.
  - rewrite filter_In, String.eqb_refl. simpl. intros [_ H]. discriminate H.
  - apply List.NoDup_filter. exact IH.
Qed.

Lemma own_member {V : Type} (o : Js.Obj V) (k : string) :
  member k (map fst o) = match Js.own o k with Some _ => true | None => false end.
Proof.
  induction o as [| [k' v] o IH]; simpl; [reflexivity |].
  rewrite String.eqb_sym. destruct (k' =? k); simpl; [reflexivity | exact IH].
Qed.

Lemma fst_replace_own {V : Type} (k : string) (v : V) (o : Js.Obj V) :
  map fst (Js.replace_own k v o) = map fst o.
Proof.
  induction o as [| [k' v'] o IH]; simpl; [reflexivity |].
  destruct (k' =? k); simpl; [reflexivity | f_equal; exact IH].
Qed.

Lemma fst_set {V : Type} (k : string) (v : V) (o : Js.Obj V) :
  k <> "__proto__" ->
  map fst (Js.set k v o)
  = if member k (map fst o) then map fst o else map fst o ++ [k].
Proof.
  intros Hk. unfold Js.set.
  destruct (String.eqb_spec k "__proto__") as [E | _]; [contradiction |].
  rewrite own_member. destruct (Js.own o k).
  - apply fst_replace_own.
  - rewrite map_app. reflexivity.
Qed.

Lemma add_all_keys (ms : list string) :
  forall o : Js.Obj string,
    (forall m, In m ms -> m <> "__proto__") ->
    map fst (add_all ms o)
    = map fst o
      ++ List.filter (fun y => negb (member y (map fst o))) (union_first ms).
Proof.
  induction ms as [| x ms IH]; intros o Hms; simpl.
  - rewrite app_nil_r. reflexivity.
  - unfold add_all in *. simpl. rewrite IH by (intros m Hm; apply Hms; right; exact Hm).
    rewrite fst_set by (apply Hms; left; reflexivity).
    destruct (member x (map fst o)) eqn:Ex; simpl.
    + f_equal. symmetry. apply filter_twice. intros y.
      destruct (String.eqb_spec y x) as [-> | Hne]; simpl; [rewrite Ex |]; reflexivity.
    + rewrite <- app_assoc. simpl. f_equal. f_equal.
      symmetry. apply filter_twice. intros y. rewrite member_app. unfold member at 2.
      simpl. rewrite orb_false_r, negb_orb, andb_comm. reflexivity.
Qed.

Lemma replace_own_values (k : string) (o : Js.Obj string) :
  (forall kv, In kv o -> snd kv = fst kv) ->
  forall kv, In kv (Js.replace_own k k o) -> snd kv = fst kv.
Proof.
  induction o as [| [k' v'] o IH]; intros Ho kv; simpl; [intros [] |].
  destruct (String.eqb_spec k' k) as [-> | Hne]; simpl.
  - intros [<- | Hin]; [reflexivity | apply Ho; right; exact Hin].
  - intros [<- | Hin].
    + apply (Ho (k', v')). left. reflexivity.
    + apply IH; [| exact Hin]. intros kv' Hkv'. apply Ho. right. exact Hkv'.
Qed.

Lemma set_values (k : string) (o : Js.Obj string) :
  (forall kv, In kv o -> snd kv = fst kv) ->
  forall kv, In kv (Js.set k k o) -> snd kv = fst kv.
Proof.
  intros Ho kv. unfold Js.set. destruct (k =? "__proto__"); [apply Ho |].
  destruct (Js.own o k).
  - apply replace_own_values. exact Ho.
  - intros Hin. apply in_app_or in Hin. destruct Hin as [Hin | [<- | []]].
    + apply Ho. exact Hin.
    + reflexivity.
Qed.

Lemma add_all_values (ms : list string) :
  forall o : Js.Obj string,
    (forall kv, In kv o -> snd kv = fst kv) ->
    forall kv, In kv (add_all ms o) -> snd kv = fst kv.
Proof.
  induction ms as [| x ms IH]; intros o Ho; [exact Ho |].
  unfold add_all in *. simpl. apply IH. apply set_values. exact Ho.
Qed.

Lemma own_In {V : Type} (o : Js.Obj V) (k : string) (v : V) :
  Js.own o k = Some v -> In (k, v) o.
Proof.
  induction o as [| [k' v'] o IH]; simpl; [discriminate |].
  destruct (String.eqb_spec k' k) as [-> | Hne].
  - intros E. inversion E. left. reflexivity.
  - intros E. right. apply IH. exact E.
Qed.

Lemma collect_allowed_add_all (found : list Layer.t) :
  Router.collect_allowed found = add_all (concat (map Layer.methods found)) [].
Proof.
  unfold Router.collect_allowed, add_all. generalize (@nil (string * string)).
  induction found as [| l found IH]; intros o; simpl; [reflexivity |].
  rewrite IH, fold_left_app. reflexivity.
Qed.

Lemma index_keys_none {V : Type} (o : Js.Obj V) :
  (forall k, In k (map fst o) -> Js.is_array_index k = false) ->
  Js.index_keys o = [].
Proof.
  induction o as [| [k v] o IH]; intros H; simpl; [reflexivity |].
  pose proof (H k (or_introl eq_refl)) as Hk. unfold Js.is_array_index in Hk.
  destruct (Js.array_index k); [discriminate |].
  apply IH. intros k' Hk'. apply H. right. exact Hk'.
Qed.

Lemma name_keys_all {V : Type} (o : Js.Obj V) :
  (forall k, In k (map fst o) -> Js.is_array_index k = false) ->
  Js.name_keys o = map fst o.
Proof.
  induction o as [| [k v] o IH]; intros H; simpl; [reflexivity |].
  rewrite (H k (or_introl eq_refl)). f_equal.
  apply IH. intros k' Hk'. apply H. right. exact Hk'.
Qed.

Lemma keys_of_names {V : Type} (o : Js.Obj V) :
  (forall k, In k (map fst o) -> Js.is_array_index k = false) ->
  Js.keys o = map fst o.
Proof.
  intros H. unfold Js.keys.
  rewrite (index_keys_none o H), (name_keys_all o H). reflexivity.
Qed.

Lemma member_false (m : string) (l : list string) : member m l = false <-> ~ In m l.
Proof.
  rewrite <- member_In. destruct (member m l); split; congruence.
Qed.

(** The rows of the decision table, one by one. *)
Lemma guard_table_rows (implemented union : list string) (ctx : Ctx.t) :
  let m := Ctx.method ctx in
  let allow := Js.join ", " union in
  (~ In m implemented ->
   guard_table implemented union ctx
   = Ctx.set_header "Allow" allow (Ctx.set_status 501 ctx))
  /\ (In m implemented -> union <> [] -> m = "OPTIONS" ->
      guard_table implemented union ctx
      = Ctx.set_header "Allow" allow (Ctx.set_body EmptyString (Ctx.set_status 200 ctx)))
  /\ (In m implemented -> union <> [] -> ~ In m union -> m <> "OPTIONS" ->
      guard_table implemented union ctx
      = Ctx.set_header "Allow" allow (Ctx.set_status 405 ctx))
  /\ (In m implemented -> union = [] \/ (In m union /\ m <> "OPTIONS") ->
      guard_table implemented union ctx = ctx).
Proof.
  intros m allow. unfold guard_table. fold m. fold allow.
  assert (Hlen : forall l : list string, (length l =? 0)%nat = true <-> l = []).
  { intros l. rewrite Nat.eqb_eq. apply length_zero_iff_nil. }
  repeat split.
  - intros Hm. apply member_false in Hm. rewrite Hm. reflexivity.
  - intros Hm Hu Ho. apply member_In in Hm. rewrite Hm. simpl.
    destruct (length union =? 0)%nat eqn:E; [apply Hlen in E; contradiction |].
    apply String.eqb_eq in Ho. rewrite Ho. reflexivity.
  - intros Hm Hu Hnot Ho. apply member_In in Hm. rewrite Hm. simpl.
    destruct (length union =? 0)%nat eqn:E; [apply Hlen in E; contradiction |].
    apply String.eqb_neq in Ho. rewrite Ho. apply member_false in Hnot. rewrite Hnot.
    reflexivity.
  - intros Hm Hcase. apply member_In in Hm. rewrite Hm. simpl.
    destruct Hcase as [Hu | [Hin Ho]].
    + apply Hlen in Hu. rewrite Hu. reflexivity.
    + apply String.eqb_neq in Ho. rewrite Ho. apply member_In in Hin. rewrite Hin.
      destruct (length union =? 0)%nat; reflexivity.
Qed.

Lemma indexOf_member (x : string) (l : list string) :
  (Js.indexOf String.eqb x l =? -1)%Z = negb (member x l).
Proof.
  destruct (member x l) eqn:E; simpl.
  - apply indexOf_present, member_In. exact E.
  - apply Z.eqb_eq, indexOf_absent. intros Hin.
    apply member_In in Hin. congruence.
Qed.

Lemma plain_name_parts (m : string) :
  plain_name m = true ->
  Js.truthy_str m = true /\ Js.is_array_index m = false /\ Js.inherited m = false
  /\ m <> "__proto__".
Proof.
  unfold plain_name. rewrite !andb_true_iff, !negb_true_iff.
  intros [[H1 H2] H3]. repeat split; try assumption.
  intros ->. vm_compute in H3. discriminate H3.
Qed.

(** A name that begins with a capital letter, as the names of HTTP methods
    do, is a plain property name. *)
Lemma capital_names_are_plain (a : ascii) (r : string) :
  (65 <= N_of_ascii a <= 90)%N -> plain_name (String a r) = true.
Proof.
  intros Ha.
  assert (Hc : forall c, (90 < N_of_ascii c)%N -> Ascii.eqb a c = false).
  { intros c Hc. apply Ascii.eqb_neq. intros ->. lia. }
  unfold plain_name. rewrite !andb_true_iff, !negb_true_iff. repeat split.
  - unfold Js.is_array_index, Js.array_index.
    replace (N_of_ascii a =? 48)%N with false by (symmetry; apply N.eqb_neq; lia).
    simpl. unfold Js.digit_of.
    replace (N_of_ascii a <=? 57)%N with false by (symmetry; apply N.leb_gt; lia).
    rewrite andb_false_r. reflexivity.
  - unfold Js.inherited, Js.prototype_names. simpl.
    rewrite !Hc by reflexivity. reflexivity.
Qed.

Lemma found_methods_In (found : list Layer.t) (m : string) :
  In m (concat (map Layer.methods found)) <->
  exists l, In l found /\ In m (Layer.methods l).
Proof.
  rewrite in_concat. split.
  - intros [ms [Hms Hm]]. apply in_map_iff in Hms. destruct Hms as [l [<- Hl]].
    exists l. split; assumption.
  - intros [l [Hl Hm]]. exists (Layer.methods l). split; [| exact Hm].
    apply in_map. exact Hl.
Qed.

Section Guard.
Variable found : list Layer.t.
Hypothesis names_plain :
  forall l m, In l found -> In m (Layer.methods l) -> plain_name m = true.

Lemma collected_names : map fst (Router.collect_allowed found) = allowed_union found.
Proof.
  rewrite collect_allowed_add_all, add_all_keys.
  - simpl. apply filter_all. reflexivity.
  - intros m Hm. apply found_methods_In in Hm. destruct Hm as [l [Hl Hm]].
    apply (plain_name_parts m (names_plain l m Hl Hm)).
Qed.

Lemma collected_keys : Js.keys (Router.collect_allowed found) = allowed_union found.
Proof.
  rewrite keys_of_names; [apply collected_names |].
  intros k Hk. rewrite collected_names in Hk. unfold allowed_union in Hk.
  rewrite union_first_In in Hk. apply found_methods_In in Hk. destruct Hk as [l [Hl Hm]].
  apply (plain_name_parts k (names_plain l k Hl Hm)).
Qed.

Lemma collected_read (m : string) :
  plain_name m = true ->
  Js.truthy_read (Js.get (Router.collect_allowed found) m)
  = member m (allowed_union found).
Proof.
  intros Hm. destruct (plain_name_parts m Hm) as [Ht [_ [Hi _]]].
  rewrite <- collected_names, own_member. unfold Js.get.
  destruct (Js.own (Router.collect_allowed found) m) as [v |] eqn:E.
  - apply own_In in E. rewrite collect_allowed_add_all in E.
    apply add_all_values in E; [| intros kv []]. simpl in E. subst v. exact Ht.
  - rewrite Hi. reflexivity.
Qed.
End Guard.

(** C1. When downstream has completed with a context whose accumulator of
    path matches holds [found], the guard without [throw] leaves the context
    alone unless the status is unset or 404, and otherwise applies the
    decision table, read from top to bottom, to the union of the method
    lists of [found] taken in order of first discovery: 501 and [Allow] for
    a method that is not implemented; 200, an empty body and [Allow] for
    OPTIONS when the union is not empty; 405 and [Allow] when the union is
    not empty and lacks the method; no change otherwise.  Method names are
    taken to be plain property names, as the names of HTTP methods are. *)
Theorem allowed_methods_decision (r : Router.t) (options : Router.GuardOptions)
    (ctx ctx1 : Ctx.t) (next : Ctx.Next) (found : list Layer.t) :
  next ctx = inr ctx1 ->
  Ctx.matched ctx1 = Some found ->
  Router.throw_ options = false ->
  (forall l m, In l found -> In m (Layer.methods l) -> plain_name m = true) ->
  plain_name (Ctx.method ctx1) = true ->
  Router.allowedMethods r options ctx next
  = inr (if Router.unset_or_404 (Ctx.status ctx1)
         then guard_table (Router.methods r) (allowed_union found) ctx1
         else ctx1).
Proof.
  intros Hnext Hfound Hthrow Hnames Hmethod.
  unfold Router.allowedMethods. rewrite Hnext. unfold Router.after_downstream.
  destruct (Router.unset_or_404 (Ctx.status ctx1)); [| reflexivity].
  rewrite Hfound, Hthrow.
  rewrite (collected_keys found Hnames), (collected_read found Hnames _ Hmethod).
  rewrite indexOf_member. unfold guard_table.
  destruct (member (Ctx.method ctx1) (Router.methods r)); simpl; [| reflexivity].
  destruct (length (allowed_union found) =? 0)%nat; simpl; [reflexivity |].
  destruct (Ctx.method ctx1 =? "OPTIONS"); simpl; [reflexivity |].
  destruct (member (Ctx.method ctx1) (allowed_union found)); reflexivity.
Qed.

(** The guard does nothing when downstream fails. *)
Lemma allowed_methods_after_failure (r : Router.t) (options : Router.GuardOptions)
    (ctx : Ctx.t) (next : Ctx.Next) (e : Exn) :
  next ctx = inl e -> Router.allowedMethods r options ctx next = inl e.
Proof.
  intros H. unfold Router.allowedMethods. rewrite H. reflexivity.
Qed.

Lemma allowed_methods_decision_witness :
  let w := Examples.built Examples.get_and_post in
  let ctx := Examples.request "PUT" "/x" in
  let ctx1 := Router.accumulate [Examples.layer_at w 0 0; Examples.layer_at w 0 1] ctx 0 in
  Router.allowedMethods (Examples.router_at w 0) Examples.plain_guard ctx
    (fun c => Router.dispatch w Examples.env 0 c Examples.finish)
  = inr (Ctx.set_header "Allow" "HEAD, GET, POST" (Ctx.set_status 405 ctx1)).
Proof.
  intros w ctx ctx1.
  refine (allowed_methods_decision (Examples.router_at w 0) Examples.plain_guard
            ctx ctx1 (fun c => Router.dispatch w Examples.env 0 c Examples.finish)
            [Examples.layer_at w 0 0; Examples.layer_at w 0 1]
            eq_refl eq_refl eq_refl _ eq_refl).
  intros l m [<- | [<- | []]] Hm; vm_compute in Hm;
    repeat (destruct Hm as [<- | Hm]; [reflexivity |]); destruct Hm.
Defined.

Example guard_answers_405 :
  Examples.response
    (Examples.serve (Examples.built Examples.get_and_post) (Examples.request "PUT" "/x"))
  = Some (Some 405, None, [("Allow", "HEAD, GET, POST")]).
Proof. reflexivity. Qed.

Example guard_answers_options :
  Examples.response
    (Examples.serve (Examples.built Examples.get_and_post) (Examples.request "OPTIONS" "/x"))
  = Some (Some 200, Some EmptyString, [("Allow", "HEAD, GET, POST")]).
Proof. reflexivity. Qed.

Example guard_answers_501 :
  Examples.response
    (Examples.serve (Examples.built Examples.get_and_post) (Examples.request "SEARCH" "/nowhere"))
  = Some (Some 501, None, [("Allow", EmptyString)]).
Proof. reflexivity. Qed.

Example guard_leaves_unmatched_path :
  Examples.response
    (Examples.serve (Examples.built Examples.get_and_post) (Examples.request "GET" "/nowhere"))
  = Some (Some 404, None, []).
Proof. reflexivity. Qed.

(** ** The chain of a dispatch *)

Lemma layerChain_flat (h : Heap) (layers : list Layer.t) :
  Router.layerChain h layers = flat_map (steps_of h) layers.
Proof.
  unfold Router.layerChain.
  assert (H : forall acc,
             fold_left (fun memo layer =>
                          (memo ++ [Router.Bind layer])
                            ++ map Router.Call (read_array h (Layer.stack layer)))
                       layers acc
             = acc ++ flat_map (steps_of h) layers).
  { induction layers as [| l layers IH]; intros acc; simpl.
    - rewrite app_nil_r. reflexivity.
    - rewrite IH, <- !app_assoc. reflexivity. }
  apply (H []).
Qed.

Lemma caps_of_matching (l : Layer.t) (p : string) :
  Layer.matches l p = true -> Layer.captures l p = inr (caps_of l p).
Proof.
  intros H. destruct (matching_layer_has_captures l p H) as [caps E].
  unfold caps_of. rewrite E. reflexivity.
Qed.

Section Chain.
Variable env : Router.Env.
Variable upd : Middleware -> Ctx.t -> Ctx.t.
Variable p : string.

Lemma passes_on_is_function (m : Middleware) :
  passes_on env upd m -> Router.is_function (Router.Call m) = true.
Proof.
  intros [H _]. destruct m as [f | prm f | r | ty]; try reflexivity.
  exfalso.
  pose (ctx := {| Ctx.method := EmptyString; Ctx.path := EmptyString;
                  Ctx.routerPath := None; Ctx.status := None; Ctx.body := None;
                  Ctx.headers := []; Ctx.matched := None; Ctx.router := None;
                  Ctx.captures := None; Ctx.params := Some [];
                  Ctx.routerName := None; Ctx._matchedRoute := None;
                  Ctx._matchedRouteName := None |}).
  specialize (H ctx (fun c => inr c)). simpl in H.
  assert (Hp : Ctx.params ctx <> None) by discriminate.
  specialize (H Hp). discriminate H.
Qed.

Lemma run_all_app (a b : list Router.Step) (ctx : Ctx.t) :
  run_all upd p (a ++ b) ctx = run_all upd p b (run_all upd p a ctx).
Proof.
  unfold run_all. apply fold_left_app.
Qed.

Lemma run_calls (ms : list Middleware) (rest : list Router.Step) :
  (forall m, In m ms -> passes_on env upd m) ->
  forall ctx next,
    Ctx.params ctx <> None ->
    Router.compose_from env p (map Router.Call ms ++ rest) ctx next
    = Router.compose_from env p rest (run_all upd p (map Router.Call ms) ctx) next
    /\ Ctx.params (run_all upd p (map Router.Call ms) ctx) = Ctx.params ctx
    /\ Ctx._matchedRoute (run_all upd p (map Router.Call ms) ctx) = Ctx._matchedRoute ctx
    /\ Ctx._matchedRouteName (run_all upd p (map Router.Call ms) ctx)
       = Ctx._matchedRouteName ctx.
Proof.
  induction ms as [| m ms IH]; intros Hms ctx next Hps; simpl.
  - auto.
  - destruct (Hms m (or_introl eq_refl)) as [Hrun Hkeep].
    destruct (Hkeep ctx) as [K1 [K2 K3]].
    rewrite (Hrun ctx _ Hps).
    assert (Hps' : Ctx.params (upd m ctx) <> None) by (rewrite K1; exact Hps).
    destruct (IH (fun m' Hm' => Hms m' (or_intror Hm')) (upd m ctx) next Hps')
      as [E [P1 [P2 P3]]].
    unfold run_all in *. simpl. rewrite E, P1, P2, P3. auto.
Qed.

Lemma run_layer (h : Heap) (l : Layer.t) (rest : list Router.Step) :
  Layer.matches l p = true ->
  (forall m, In m (read_array h (Layer.stack l)) -> passes_on env upd m) ->
  forall ctx next,
    Router.compose_from env p (steps_of h l ++ rest) ctx next
    = Router.compose_from env p rest (run_all upd p (steps_of h l) ctx) next
    /\ Ctx.params (run_all upd p (steps_of h l) ctx)
       = Some (Layer.params l p (caps_of l p) (Ctx.params ctx))
    /\ Ctx._matchedRoute (run_all upd p (steps_of h l) ctx) = Some (Layer.path l)
    /\ Ctx._matchedRouteName (run_all upd p (steps_of h l) ctx)
       = if Js.truthy_opt (Layer.name l) then Layer.name l
         else Ctx._matchedRouteName ctx.
Proof.
  intros Hmatch Hms ctx next. unfold steps_of. simpl.
  unfold Router.bind_layer. rewrite (caps_of_matching l p Hmatch).
  assert (Hps : Ctx.params (Router.bound l p (caps_of l p) ctx) <> None) by discriminate.
  destruct (run_calls (read_array h (Layer.stack l)) rest Hms
              (Router.bound l p (caps_of l p) ctx) next Hps) as [E [P1 [P2 P3]]].
  unfold run_all in *. simpl. rewrite E, P1, P2, P3. auto.
Qed.

Lemma run_layers (h : Heap) (layers : list Layer.t) :
  (forall l, In l layers -> Layer.matches l p = true) ->
  (forall l m, In l layers -> In m (read_array h (Layer.stack l)) ->
               passes_on env upd m) ->
  forall ctx next,
    Router.compose_from env p (flat_map (steps_of h) layers) ctx next
    = next (run_all upd p (flat_map (steps_of h) layers) ctx)
    /\ Ctx.params (run_all upd p (flat_map (steps_of h) layers) ctx)
       = merged_params p layers (Ctx.params ctx)
    /\ Ctx._matchedRouteName (run_all upd p (flat_map (steps_of h) layers) ctx)
       = latest_name layers (Ctx._matchedRouteName ctx)
    /\ (forall l, last layers = Some l ->
          Ctx._matchedRoute (run_all upd p (flat_map (steps_of h) layers) ctx)
          = Some (Layer.path l)).
Proof.
  induction layers as [| l layers IH]; intros Hmatch Hms ctx next.
  - simpl. repeat split. intros l Hl. discriminate Hl.
  - change (flat_map (steps_of h) (l :: layers))
      with (steps_of h l ++ flat_map (steps_of h) layers).
    rewrite run_all_app.
    destruct (run_layer h l (flat_map (steps_of h) layers)
                (Hmatch l (or_introl eq_refl))
                (fun m Hm => Hms l m (or_introl eq_refl) Hm) ctx next)
      as [E [P1 [P2 P3]]].
    destruct (IH (fun l' Hl' => Hmatch l' (or_intror Hl'))
                 (fun l' m Hl' Hm => Hms l' m (or_intror Hl') Hm)
                 (run_all upd p (steps_of h l) ctx) next)
      as [E' [Q1 [Q3 Q2]]].
    rewrite E, E'.
    split; [reflexivity |].
    split; [rewrite Q1, P1; reflexivity |].
    split; [rewrite Q3, P3; reflexivity |].
    intros l' Hl'. destruct layers as [| l2 layers].
    + simpl in Hl'. inversion Hl'. subst l'. exact P2.
    + apply Q2. exact Hl'.
Qed.

Lemma chain_is_functions (h : Heap) (layers : list Layer.t) :
  (forall l m, In l layers -> In m (read_array h (Layer.stack l)) ->
               passes_on env upd m) ->
  forallb Router.is_function (flat_map (steps_of h) layers) = true.
Proof.
  intros Hms. apply forallb_forall. intros s Hs.
  apply in_flat_map in Hs. destruct Hs as [l [Hl Hs]].
  destruct Hs as [<- | Hs]; [reflexivity |].
  apply in_map_iff in Hs. destruct Hs as [m [<- Hm]].
  apply passes_on_is_function. apply (Hms l m Hl Hm).
Qed.
End Chain.

Lemma latest_name_of_named_last (layers : list Layer.t) (most : Layer.t) :
  last layers = Some most ->
  Js.truthy_opt (Layer.name most) = true ->
  forall x, latest_name layers x = Layer.name most.
Proof.
  induction layers as [| l layers IH]; intros Hlast Hnamed x; [discriminate |].
  destruct layers as [| l2 layers].
  - simpl in Hlast. inversion Hlast. subst l. unfold latest_name. simpl.
    rewrite Hnamed. reflexivity.
  - unfold latest_name in *. simpl fold_left at 1. apply IH; assumption.
Qed.

Lemma latest_name_after_expose (layers : list Layer.t) (most : Layer.t) (x : option string) :
  last layers = Some most ->
  latest_name layers (if Js.truthy_opt (Layer.name most) then Layer.name most else x)
  = latest_name layers x.
Proof.
  intros Hlast. destruct (Js.truthy_opt (Layer.name most)) eqn:E; [| reflexivity].
  rewrite !(latest_name_of_named_last layers most Hlast E). reflexivity.
Qed.

(** C3.  When [match] finds an exact route, the dispatcher
    builds one chain over the entries that match path and method, taken in
    registration order: for each of them its binding function, then its
    stack.  Where every function of these stacks does its work and passes
    control on, the dispatch runs the whole chain in that order and calls
    [next]; the parameters are those of the entries merged in order, a later
    entry writing over an earlier one; the exposed pattern is that of the
    last entry of the list; the exposed name is that of the latest named
    entry of the list (the name the context had when there is none), hence
    that of the last entry whenever it is named. *)
Theorem dispatch_chain_in_registration_order (w : Router.World) (env : Router.Env)
    (self : loc) (r : Router.t) (ctx : Ctx.t) (next : Ctx.Next)
    (upd : Middleware -> Ctx.t -> Ctx.t) :
  Router.routers w !! self = Some r ->
  let p := Router.lookup_path r ctx in
  let found := Router.match_ r p (Ctx.method ctx) in
  let layers := Router.m_pathAndMethod found in
  Router.m_route found = true ->
  (forall l m, In l layers -> In m (read_array (Router.arrays w) (Layer.stack l)) ->
               passes_on env upd m) ->
  layers = List.filter (fun l => Layer.matches l p && accepts (Ctx.method ctx) l)
                       (Router.stack r)
  /\ Router.layerChain (Router.arrays w) layers
     = flat_map (steps_of (Router.arrays w)) layers
  /\ exists most final,
       last layers = Some most
       /\ final = run_all upd p (flat_map (steps_of (Router.arrays w)) layers)
                    (Router.expose most (Router.accumulate (Router.m_path found) ctx self))
       /\ Router.dispatch w env self ctx next = next final
       /\ Ctx.params final = merged_params p layers (Ctx.params ctx)
       /\ Ctx._matchedRoute final = Some (Layer.path most)
       /\ Ctx._matchedRouteName final = latest_name layers (Ctx._matchedRouteName ctx)
       /\ (Js.truthy_opt (Layer.name most) = true ->
           Ctx._matchedRouteName final = Layer.name most).
Proof.
  intros Hr p found layers Hroute Hpass.
  assert (Hlayers : layers = List.filter
                      (fun l => Layer.matches l p && accepts (Ctx.method ctx) l)
                      (Router.stack r)).
  { unfold layers, found. apply match_pathAndMethod. }
  split; [exact Hlayers |]. split; [apply layerChain_flat |].
  assert (Hmatch : forall l, In l layers -> Layer.matches l p = true).
  { intros l Hl. rewrite Hlayers in Hl. apply filter_In in Hl.
    destruct Hl as [_ Hl]. apply andb_true_iff in Hl. apply Hl. }
  assert (Hne : layers <> []).
  { unfold layers, found in *. rewrite match_route in Hroute.
    apply existsb_exists in Hroute. destruct Hroute as [l [Hl Hc]].
    rewrite match_pathAndMethod. intros Hnil.
    assert (Hin : In l (List.filter
                          (fun l => Layer.matches l p && accepts (Ctx.method ctx) l)
                          (Router.stack r))).
    { apply filter_In. split; [exact Hl |].
      apply andb_true_iff in Hc. apply Hc. }
    fold p in Hnil. rewrite Hnil in Hin. destruct Hin. }
  destruct (last layers) as [most |] eqn:Hlast.
  2: { apply last_None in Hlast. contradiction. }
  set (ctx0 := Router.expose most (Router.accumulate (Router.m_path found) ctx self)).
  exists most, (run_all upd p (flat_map (steps_of (Router.arrays w)) layers) ctx0).
  destruct (run_layers env upd p (Router.arrays w) layers Hmatch Hpass ctx0 next)
    as [E [P1 [P3 P2]]].
  split; [reflexivity |]. split; [reflexivity |].
  split.
  { unfold Router.dispatch. rewrite Hr. fold p. fold found. rewrite Hroute. simpl.
    fold layers. rewrite Hlast. fold ctx0. unfold Router.compose.
    rewrite layerChain_flat, (chain_is_functions env upd _ _ Hpass). exact E. }
  split; [exact P1 |].
  split; [apply P2; exact Hlast |].
  assert (Hname : Ctx._matchedRouteName
                    (run_all upd p (flat_map (steps_of (Router.arrays w)) layers) ctx0)
                  = latest_name layers (Ctx._matchedRouteName ctx)).
  { rewrite P3. unfold ctx0. simpl.
    apply latest_name_after_expose. exact Hlast. }
  split; [exact Hname |].
  intros Hnamed. rewrite Hname.
  apply (latest_name_of_named_last layers most Hlast Hnamed).
Qed.

Lemma sample_functions_pass_on (m : Middleware) :
  (exists f, m = Fn f) -> passes_on Examples.env Examples.work m.
Proof.
  intros [f ->]. split.
  - intros ctx next _. reflexivity.
  - intros ctx. repeat split.
Qed.

Lemma dispatch_chain_in_registration_order_witness :
  let w := Examples.built Examples.two_matches_last_named in
  exists final,
    Router.dispatch w Examples.env 0 (Examples.request "GET" "/foo/3") Examples.finish
    = inr final
    /\ Ctx.body final = Some "12"
    /\ Ctx.params final = Some [("id", "3")]
    /\ Ctx._matchedRoute final = Some "/foo/3"
    /\ Ctx._matchedRouteName final = Some "literal".
Proof.
  intros w.
  destruct (dispatch_chain_in_registration_order w Examples.env 0
              (Examples.router_at w 0) (Examples.request "GET" "/foo/3")
              Examples.finish Examples.work eq_refl eq_refl)
    as [_ [_ [most [final [Hlast [Hfinal [Hrun [Hparams [Hroute [_ Hname]]]]]]]]]].
  - intros l m Hl Hm. apply sample_functions_pass_on.
    vm_compute in Hl. destruct Hl as [<- | [<- | []]]; vm_compute in Hm;
      destruct Hm as [<- | []]; eexists; reflexivity.
  - exists final. inversion Hlast. subst most.
    split; [exact Hrun |].
    split; [rewrite Hfinal; reflexivity |].
    split; [rewrite Hparams; reflexivity |].
    split; [rewrite Hroute; reflexivity |].
    rewrite (Hname eq_refl). reflexivity.
Defined.

(** Two requests on which the dispatcher departs from a chain over every
    entry that matches path and method with the name of the last of them
    exposed.  An entry registered by [use] matches the path and any method,
    but alone it makes no exact route: the dispatcher calls [next] and the
    function of the entry does not run.  With a named entry followed by an
    unnamed one, both matching, both run in order and the name of the first
    stays exposed. *)
Lemma dispatch_gate_and_stale_name :
  (let w := Examples.built Examples.route_and_mount in
   let found := Router.match_ (Examples.router_at w 0) "/y" "GET" in
   Router.m_pathAndMethod found = [Examples.layer_at w 0 1]
   /\ Examples.stack_at w 0 1 = [Fn 2]
   /\ Examples.body_after w 0 (Examples.request "GET" "/y") = None)
  /\ (let w := Examples.built Examples.two_matches in
      let layers := Router.m_pathAndMethod
                      (Router.match_ (Examples.router_at w 0) "/foo/3" "GET") in
      exists final most,
        Router.dispatch w Examples.env 0 (Examples.request "GET" "/foo/3") Examples.finish
        = inr final
        /\ last layers = Some most
        /\ Ctx.body final = Some "12"
        /\ Ctx._matchedRoute final = Some (Layer.path most)
        /\ Layer.name most = None
        /\ Ctx._matchedRouteName final = Some "user"
        /\ Ctx._matchedRouteName final <> Layer.name most).
Proof.
  split.
  - repeat split; reflexivity.
  - eexists. eexists.
    split; [reflexivity |]. split; [reflexivity |].
    split; [reflexivity |]. split; [reflexivity |].
    split; [reflexivity |]. split; [reflexivity |].
    discriminate.
Qed.

(** ** Middleware arrays shared between entries *)

(** The two places where a layer comes to refer to an array that another
    layer refers to: the constructor keeps the array it is given, and a
    layer that is prefixed keeps its stack. *)
Lemma new_keeps_the_array {lib : PathLib} (p : string) (ms : list string) (a : loc)
    (o : LayerOpts) (h : Heap) (l : Layer.t) :
  fst (Layer.new p ms (Layer.MwArray a) o h) = inr l -> Layer.stack l = a.
Proof.
  unfold Layer.new, bind, gets, throw, ret. simpl.
  destruct (Layer.first_non_function (read_array h a)); simpl; [discriminate |].
  destruct (pathToRegexp p o) as [re keys]. simpl.
  intros E. inversion E. reflexivity.
Qed.

Lemma setPrefix_keeps_the_stack {lib : PathLib} (pre : string) (l : Layer.t) :
  Layer.stack (Layer.setPrefix pre l) = Layer.stack l.
Proof.
  unfold Layer.setPrefix. destruct (Js.truthy_str (Layer.path l)); [| reflexivity].
  destruct (pathToRegexp _ _) as [re keys]. reflexivity.
Qed.

(** C2. The copy that [use] makes of a nested entry is a copy of its
    fields: the copy in the mounting router refers to the very array that
    the nested entry refers to.  A validator added to the mounting router
    afterwards is spliced into that array, so the entry of the nested
    router changes, and a dispatch of the nested router runs the
    validator. *)
Theorem nested_entry_shares_its_stack :
  let before := Examples.built Examples.mounted in
  let after := Examples.built Examples.mounted_param in
  Layer.path (Examples.layer_at before 1 0) = "/p/:id"
  /\ Layer.stack (Examples.layer_at before 1 0) = Layer.stack (Examples.layer_at before 0 0)
  /\ Examples.stack_at before 0 0 = [Fn 1]
  /\ Examples.stack_at after 0 0 = [ParamFn "id" 7; Fn 1]
  /\ Examples.body_after before 0 (Examples.request "GET" "/5") = Some "1"
  /\ Examples.body_after after 0 (Examples.request "GET" "/5") = Some "71".
Proof.
  repeat split; reflexivity.
Qed.

(** C10. The entries that one call registers for an array of paths refer to
    one middleware array.  A validator for [id] reaches the entry for
    ['/b'], whose pattern declares no parameter: its stack changes and a
    request for ['/b'] runs the validator. *)
Theorem validator_reaches_entry_without_the_parameter :
  let before := Examples.built Examples.two_paths in
  let after := Examples.built Examples.two_paths_param in
  Layer.path (Examples.layer_at after 0 1) = "/b"
  /\ Layer.paramNames (Examples.layer_at after 0 1) = []
  /\ Examples.stack_at before 0 1 = [Fn 1]
  /\ Examples.stack_at after 0 1 = [ParamFn "id" 7; Fn 1]
  /\ Examples.body_after before 0 (Examples.request "GET" "/b") = Some "1"
  /\ Examples.body_after after 0 (Examples.request "GET" "/b") = Some "71".
Proof.
  repeat split; reflexivity.
Qed.

(** C4. Two entries registered by one call for the paths ['/:a/:b'] and
    ['/:b/:a'] refer to one middleware array; each validator is spliced in
    once for each entry, at the place its own parameter order gives.  The
    entry for ['/:a/:b'] ends with the validator of [b] ahead of the
    validator of [a], and a request runs them in that order. *)
Theorem validators_out_of_parameter_order :
  let w := Examples.built Examples.crossed_paths in
  Layer.path (Examples.layer_at w 0 0) = "/:a/:b"
  /\ Layer.paramNames (Examples.layer_at w 0 0) = [KName "a"; KName "b"]
  /\ Examples.stack_at w 0 0
     = [ParamFn "b" 2; ParamFn "a" 1; ParamFn "a" 1; ParamFn "b" 2; Fn 9].
Proof.
  repeat split; reflexivity.
Qed.

(** ** Validators on a stack that belongs to one entry *)

Lemma param_of_undeclared_name (l : Layer.t) (prm : string) (f : FnId) (h : Heap) :
  Js.indexOf key_is prm (Layer.paramNames l) = (-1)%Z ->
  Layer.param l prm f h = h.
Proof.
  intros H. unfold Layer.param, Layer.param_stack. rewrite H. simpl.
  unfold read_array. destruct (h !! Layer.stack l) as [st |] eqn:E; simpl.
  - apply list_insert_id. exact E.
  - apply list_insert_ge. apply lookup_ge_None. exact E.
Qed.

Lemma for_each_update_arrays {A : Type} (g : A -> Heap -> Heap) (ls : list A)
    (w : Router.World) :
  for_each ls (fun l => Router.update_arrays (g l)) w
  = (inr tt, {| Router.routers := Router.routers w;
                Router.arrays := fold_left (fun h l => g l h) ls (Router.arrays w) |}).
Proof.
  revert w. induction ls as [| l ls IH]; intros w; simpl.
  - destruct w; reflexivity.
  - unfold bind. simpl. rewrite IH. reflexivity.
Qed.

Lemma router_param_arrays (w : Router.World) (self : loc) (r : Router.t)
    (prm : string) (f : FnId) :
  Router.routers w !! self = Some r ->
  Router.arrays (snd (Router.param self prm f w))
  = fold_left (fun h l => Layer.param l prm f h) (Router.stack r) (Router.arrays w).
Proof.
  intros Hr. unfold Router.param, bind, Router.update_router, modify, Router.get_router.
  cbv beta. cbn [Router.routers Router.arrays].
  rewrite list_lookup_alter_eq, Hr. cbn [fmap option_fmap option_map].
  rewrite for_each_update_arrays. reflexivity.
Qed.

(** [param] of a router changes an array only if an entry that declares the
    parameter refers to it. *)
Lemma router_param_frame (w : Router.World) (self : loc) (r : Router.t)
    (prm : string) (f : FnId) (a : loc) :
  Router.routers w !! self = Some r ->
  (forall l, In l (Router.stack r) -> Layer.stack l = a ->
             Js.indexOf key_is prm (Layer.paramNames l) = (-1)%Z) ->
  read_array (Router.arrays (snd (Router.param self prm f w))) a
  = read_array (Router.arrays w) a.
Proof.
  intros Hr H. rewrite (router_param_arrays w self r prm f Hr).
  generalize (Router.arrays w) as h. revert H.
  generalize (Router.stack r) as ls.
  induction ls as [| l ls IH]; intros H h; simpl; [reflexivity |].
  rewrite IH by (intros l' Hl'; apply H; right; exact Hl').
  destruct (decide (Layer.stack l = a)) as [E | Hne].
  - rewrite param_of_undeclared_name; [reflexivity |].
    apply H; [left; reflexivity | exact E].
  - unfold Layer.param, read_array. rewrite list_lookup_insert_ne by exact Hne.
    reflexivity.
Qed.

Lemma splice_on_own_stack (names : list KeyName) (x : Z) (mw h0 : Middleware)
    (vs hs : list Middleware) :
  Forall (fun v => is_validator v = true) vs ->
  is_validator h0 = false ->
  Layer.splice_before names x mw (vs ++ h0 :: hs)
  = insert_ranked names x mw vs ++ h0 :: hs.
Proof.
  intros Hvs Hh0. induction Hvs as [| v vs Hv Hvs IH]; simpl.
  - unfold Layer.stops_scan. unfold is_validator in Hh0. rewrite Hh0. reflexivity.
  - unfold Layer.stops_scan, rank. unfold is_validator in Hv. rewrite Hv. simpl.
    destruct (param_of v) as [prm |]; [| discriminate Hv].
    destruct (Js.indexOf key_is prm names >? x)%Z; [reflexivity |].
    rewrite IH. reflexivity.
Qed.

Lemma insert_ranked_In (names : list KeyName) (x : Z) (mw m : Middleware)
    (vs : list Middleware) :
  In m (insert_ranked names x mw vs) <-> m = mw \/ In m vs.
Proof.
  induction vs as [| v vs IH]; simpl.
  - split; [intros [H | []]; left; auto | intros [H | []]; left; auto].
  - destruct (rank names v >? x)%Z; simpl.
    + split; [intros [H | H]; auto | intros [H | H]; auto].
    + rewrite IH. split.
      * intros [H | [H | H]]; auto.
      * intros [H | [H | H]]; auto.
Qed.

Lemma insert_ranked_ordered (names : list KeyName) (mw : Middleware)
    (vs : list Middleware) :
  in_parameter_order names vs ->
  in_parameter_order names (insert_ranked names (rank names mw) mw vs).
Proof.
  unfold in_parameter_order. intros Hvs.
  induction Hvs as [| v vs Hvs IH Hv]; simpl.
  - constructor; constructor.
  - destruct (rank names v >? rank names mw)%Z eqn:E.
    + constructor.
      * constructor; assumption.
      * constructor; [lia |].
        rewrite List.Forall_forall in *. intros m Hm. specialize (Hv m Hm). lia.
    + constructor; [exact IH |].
      rewrite List.Forall_forall in *. intros m Hm.
      apply insert_ranked_In in Hm. destruct Hm as [-> | Hm]; [lia | apply Hv; exact Hm].
Qed.

Lemma insert_ranked_permutation (names : list KeyName) (x : Z) (mw : Middleware)
    (vs : list Middleware) :
  Permutation (insert_ranked names x mw vs) (mw :: vs).
Proof.
  induction vs as [| v vs IH]; simpl.
  - apply Permutation_refl.
  - destruct (rank names v >? x)%Z.
    + apply Permutation_refl.
    + apply Permutation_trans with (v :: mw :: vs).
      * apply perm_skip. exact IH.
      * apply perm_swap.
Qed.

(** On a stack that is made of validators in parameter order followed by
    functions of the entry, [param] keeps this shape: a validator of a
    declared parameter joins the validators at its place, a validator of any
    other name is not inserted. *)
Lemma param_on_own_stack (names : list KeyName) (prm : string) (f : FnId)
    (vs hs : list Middleware) :
  Forall (fun v => is_validator v = true) vs ->
  in_parameter_order names vs ->
  hs <> [] ->
  Forall (fun m => is_validator m = false) hs ->
  Js.truthy_str prm = true ->
  exists vs',
    Layer.param_stack names prm f (vs ++ hs) = vs' ++ hs
    /\ Forall (fun v => is_validator v = true) vs'
    /\ in_parameter_order names vs'
    /\ ((Js.indexOf key_is prm names > -1)%Z /\ Permutation vs' (ParamFn prm f :: vs)
        \/ Js.indexOf key_is prm names = (-1)%Z /\ vs' = vs).
Proof.
  intros Hvs Hsorted Hne Hhs Hprm. unfold Layer.param_stack.
  destruct (Js.indexOf key_is prm names >? -1)%Z eqn:E.
  - destruct hs as [| h0 hs]; [contradiction |].
    inversion Hhs as [| ? ? Hh0 _]; subst.
    exists (insert_ranked names (Js.indexOf key_is prm names) (ParamFn prm f) vs).
    split; [apply splice_on_own_stack; assumption |].
    split.
    { rewrite List.Forall_forall in *. intros m Hm. apply insert_ranked_In in Hm.
      destruct Hm as [-> | Hm]; [exact Hprm | apply Hvs; exact Hm]. }
    split.
    { apply (insert_ranked_ordered names (ParamFn prm f) vs Hsorted). }
    left. split; [lia | apply insert_ranked_permutation].
  - exists vs. repeat split; try assumption. right. split; [| reflexivity].
    pose proof (indexOf_from_bounds key_is prm names 0%Z ltac:(lia)) as Hb.
    unfold Js.indexOf in *. lia.
Qed.

(** Validators added in any order to the stack of an entry that no other
    entry shares come before the functions of the entry, in the order of
    the parameters of its pattern. *)
Lemma validators_ordered_on_own_stack (names : list KeyName) (hs : list Middleware)
    (vals : list (string * FnId)) :
  hs <> [] ->
  Forall (fun m => is_validator m = false) hs ->
  Forall (fun pf => Js.truthy_str (fst pf) = true) vals ->
  exists vs,
    fold_left (fun st pf => Layer.param_stack names (fst pf) (snd pf) st) vals hs
    = vs ++ hs
    /\ Forall (fun v => is_validator v = true) vs
    /\ in_parameter_order names vs.
Proof.
  intros Hne Hhs Hvals.
  assert (H : forall vs,
             Forall (fun v => is_validator v = true) vs ->
             in_parameter_order names vs ->
             exists vs',
               fold_left (fun st pf => Layer.param_stack names (fst pf) (snd pf) st)
                         vals (vs ++ hs)
               = vs' ++ hs
               /\ Forall (fun v => is_validator v = true) vs'
               /\ in_parameter_order names vs').
  { induction Hvals as [| [prm f] vals Hprm Hvals IH]; intros vs Hvs Hsorted; simpl.
    - exists vs. auto.
    - destruct (param_on_own_stack names prm f vs hs Hvs Hsorted Hne Hhs Hprm)
        as [vs' [E [Hvs' [Hsorted' _]]]].
      rewrite E. apply IH; assumption. }
  apply (H []); constructor.
Qed.

Example late_validators_in_parameter_order :
  Examples.stack_at (Examples.built Examples.late_validators) 0 0
  = [ParamFn "a" 1; ParamFn "b" 2; Fn 9].
Proof. reflexivity. Qed.

Example late_validators_run_first :
  Examples.body_after (Examples.built Examples.late_validators) 0
    (Examples.request "GET" "/x/y")
  = Some "129".
Proof. reflexivity. Qed.

(** Mounting a router into one that has validators writes them into the
    nested router as well: into its [params] object, which the copy of the
    router shares, and into the stacks of its entries. *)
Example mounting_changes_the_nested_router :
  let w := Examples.built Examples.mounted_after_param in
  Router.params (Examples.router_at w 0) = [("id", 7)]
  /\ Examples.stack_at w 0 0 = [ParamFn "id" 7; Fn 1]
  /\ Layer.path (Examples.layer_at w 1 0) = "/p/:id".
Proof. repeat split; reflexivity. Qed.

(* ===================================================================== *)
(** * Further properties of the code *)
(* ===================================================================== *)

(** ** The method list of a layer *)

Lemma fold_push_methods (ms : list string) :
  forall (k : nat) (xs : list string),
    fold_left Layer.push_method ms (repeat "HEAD" k ++ xs)
    = repeat "HEAD"
        (k + length (List.filter (fun m => Js.toUpperCase m =? "GET") ms))
      ++ xs ++ map Js.toUpperCase ms.
Proof.
  induction ms as [| m ms IH]; intros k xs.
  - simpl. rewrite Nat.add_0_r, app_nil_r. reflexivity.
  - cbn [fold_left List.filter map]. rewrite push_method_pushes.
    destruct (Js.toUpperCase m =? "GET") eqn:E.
    + replace ("HEAD" :: (repeat "HEAD" k ++ xs) ++ [Js.toUpperCase m])
        with (repeat "HEAD" (S k) ++ (xs ++ [Js.toUpperCase m]))
        by (simpl; rewrite app_assoc; reflexivity).
      rewrite IH. cbn [length].
      replace (k + S (length (List.filter (fun m0 => Js.toUpperCase m0 =? "GET") ms)))
        with (S k + length (List.filter (fun m0 => Js.toUpperCase m0 =? "GET") ms))
        by lia.
      rewrite <- app_assoc. reflexivity.
    + rewrite <- app_assoc, IH, <- app_assoc. reflexivity.
Qed.

Lemma build_methods_closed_form (ms : list string) :
  Layer.build_methods ms
  = repeat "HEAD" (length (List.filter (fun m => Js.toUpperCase m =? "GET") ms))
    ++ map Js.toUpperCase ms.
Proof.
  unfold Layer.build_methods. apply (fold_push_methods ms 0 []).
Qed.




(** ** Registration, step by step *)

Section RegistrationSteps.
Context {lib : PathLib}.

Lemma world_eta (w : Router.World) :
  {| Router.routers := Router.routers w; Router.arrays := Router.arrays w |} = w.
Proof.
  destruct w; reflexivity.
Qed.

Lemma param_loop_runs (route : Layer.t) (params : Js.Obj FnId) (ks : list string)
    (w : Router.World) :
  for_each ks
    (fun prm =>
       match Js.own params prm with
       | Some f => Router.update_arrays (Layer.param route prm f)
       | None => ret tt
       end) w
  = (inr tt,
     {| Router.routers := Router.routers w;
        Router.arrays :=
          with_validators route
            (flat_map (fun prm => match Js.own params prm with
                                  | Some f => [(prm, f)]
                                  | None => []
                                  end) ks)
            (Router.arrays w) |}).
Proof.
  revert w. induction ks as [| k ks IH]; intros w; simpl.
  - rewrite world_eta. reflexivity.
  - unfold bind. destruct (Js.own params k) as [f |]; simpl.
    + rewrite IH. reflexivity.
    + rewrite IH. reflexivity.
Qed.

Lemma new_around_array (p : string) (ms : list string) (a : loc) (o : LayerOpts)
    (h : Heap) :
  Layer.new p ms (Layer.MwArray a) o h
  = match Layer.first_non_function (read_array h a) with
    | Some ty => (inl (Layer.not_a_function ms o p ty), h)
    | None => (inr (constructed p ms a o), h)
    end.
Proof.
  unfold Layer.new, bind, gets, throw, ret, constructed. simpl.
  destruct (Layer.first_non_function (read_array h a)); [reflexivity |].
  destruct (pathToRegexp p o) as [re keys]. reflexivity.
Qed.

Lemma register_one_succeeds (w : Router.World) (self : loc) (r : Router.t)
    (p : string) (ms : list string) (a : loc) (o : Router.RegOpts) :
  Router.routers w !! self = Some r ->
  Layer.first_non_function (read_array (Router.arrays w) a) = None ->
  Router.register_one self p ms (Layer.MwArray a) o w
  = (inr (Router.Route (entry_for r p ms a o)),
     {| Router.routers :=
          alter (Router.push_layer (entry_for r p ms a o)) self (Router.routers w);
        Router.arrays :=
          with_validators (entry_for r p ms a o) (stored_validators r)
                          (Router.arrays w) |}).
Proof.
  intros Hr Hfn. unfold Router.register_one, bind, Router.get_router. rewrite Hr.
  unfold Router.on_arrays. rewrite new_around_array, Hfn.
  fold (entry_for r p ms a o). rewrite param_loop_runs.
  reflexivity.
Qed.


Lemma read_new_array (h : Heap) (elems : list Middleware) :
  read_array (h ++ [elems]) (length h) = elems.
Proof.
  unfold read_array. rewrite (list_lookup_middle h [] elems (length h) eq_refl).
  reflexivity.
Qed.

Lemma slice_arguments_runs (n : nat) (arguments : list Router.Arg) (w : Router.World) :
  Router.slice_arguments n arguments w
  = (inr (length (Router.arrays w)),
     {| Router.routers := Router.routers w;
        Router.arrays :=
          Router.arrays w ++ [map Router.as_middleware (drop n arguments)] |}).
Proof.
  reflexivity.
Qed.
End RegistrationSteps.

Lemma setPrefix_fields {lib : PathLib} (pre : string) (l : Layer.t) :
  Layer.name (Layer.setPrefix pre l) = Layer.name l
  /\ Layer.methods (Layer.setPrefix pre l) = Layer.methods l
  /\ Layer.stack (Layer.setPrefix pre l) = Layer.stack l
  /\ Layer.opts (Layer.setPrefix pre l) = Layer.opts l.
Proof.
  unfold Layer.setPrefix. destruct (Js.truthy_str (Layer.path l)); [| auto].
  destruct (pathToRegexp _ _) as [re keys]. simpl. auto.
Qed.

Lemma entry_for_fields {lib : PathLib} (r : Router.t) (p : string) (ms : list string) (a : loc)
    (o : Router.RegOpts) :
  Layer.name (entry_for r p ms a o) = Js.or_str (Router.r_name o) None
  /\ Layer.methods (entry_for r p ms a o) = Layer.build_methods ms
  /\ Layer.stack (entry_for r p ms a o) = a.
Proof.
  unfold entry_for.
  destruct (Router.prefix (Router.opts r)) as [pre |]; [| simpl; auto].
  destruct (Js.truthy_str pre); [| simpl; auto].
  destruct (setPrefix_fields pre
              (constructed p ms a (Router.layer_opts r o))) as [H1 [H2 [H3 _]]].
  rewrite H1, H2, H3. simpl. auto.
Qed.



(** X3. A route registered under a name that is not empty, on a router of
    which no entry bears that name, is the entry that [route] finds for
    the name, and [url] builds the URL of the name from it. *)
Theorem named_route_is_found {lib : PathLib} (method : string) (self : loc) (r : Router.t)
    (nm p : string) (fns : list Router.Arg) (w : Router.World) :
  Router.routers w !! self = Some r ->
  nm <> EmptyString ->
  (forall l, In l (Router.stack r) -> Layer.name l <> Some nm) ->
  Layer.first_non_function (map Router.as_middleware fns) = None ->
  let done := Router.verb method self (Router.AStr nm :: Router.AStr p :: fns) w in
  exists e,
    fst done = inr tt
    /\ Router.routers (snd done) !! self = Some (Router.push_layer e r)
    /\ Layer.name e = Some nm
    /\ Layer.methods e = Layer.build_methods [method]
    /\ Router.route (Router.push_layer e r) nm = Some e
    /\ (forall args,
          fst (Router.url self nm args (snd done))
          = match Layer.url e args with
            | inr s => inr (Router.RString s)
            | inl err => inl err
            end).
Proof.
  intros Hr Hnm Hfree Hfn done.
  set (o := {| Router.r_end := None; Router.r_name := Some nm;
               Router.r_sensitive := false; Router.r_strict := false;
               Router.r_prefix := None; Router.r_ignoreCaptures := false |}).
  set (e := entry_for r p [method] (length (Router.arrays w)) o).
  set (w1 := {| Router.routers := Router.routers w;
                Router.arrays := Router.arrays w
                                 ++ [map Router.as_middleware fns] |}).
  assert (Hdone : done
                  = (inr tt,
                     {| Router.routers := alter (Router.push_layer e) self (Router.routers w);
                        Router.arrays := with_validators e (stored_validators r)
                                           (Router.arrays w1) |})).
  { unfold done, Router.verb.
    change ((Router.AStr nm :: Router.AStr p :: fns) !! 1) with (Some (Router.AStr p)).
    change ((Router.AStr nm :: Router.AStr p :: fns) !! 0) with (Some (Router.AStr nm)).
    cbv iota beta. unfold bind. rewrite slice_arguments_runs.
    change (drop 2 (Router.AStr nm :: Router.AStr p :: fns)) with fns.
    unfold Router.register. simpl Router.name_of. fold o. fold w1.
    rewrite (register_one_succeeds w1 self r p [method] (length (Router.arrays w)) o Hr).
    - reflexivity.
    - unfold w1. simpl Router.arrays. rewrite read_new_array. exact Hfn. }
  destruct (entry_for_fields r p [method] (length (Router.arrays w)) o)
    as [Hname [Hmethods _]].
  assert (Hname' : Layer.name e = Some nm).
  { unfold e. rewrite Hname. simpl. unfold Js.or_str. simpl.
    apply truthy_str_nonempty in Hnm. rewrite Hnm. reflexivity. }
  assert (Hroute : Router.route (Router.push_layer e r) nm = Some e).
  { unfold Router.route, Router.push_layer. simpl.
    apply route_in_first; assumption. }
  exists e. rewrite Hdone. simpl fst. simpl snd.
  split; [reflexivity |].
  split; [simpl; rewrite list_lookup_alter_eq, Hr; reflexivity |].
  split; [exact Hname' |]. split; [exact Hmethods |]. split; [exact Hroute |].
  intros args. unfold Router.url, bind, Router.get_router. simpl Router.routers.
  rewrite list_lookup_alter_eq, Hr. simpl. rewrite Hroute.
  destruct (Layer.url e args); reflexivity.
Qed.

Lemma named_route_is_found_witness :
  let w := Examples.built Examples.one_router in
  let done := Router.verb (lib := Sample.lib) "get" 0
                [Router.AStr "user"; Router.AStr "/users/:id"; Router.AFn (Fn 1)] w in
  fst done = inr tt
  /\ fst (Router.url (lib := Sample.lib) 0 "user" [VNum 3] (snd done))
     = inr (Router.RString "/users/3").
Proof.
  intros w done.
  destruct (named_route_is_found (lib := Sample.lib) "get" 0 (Examples.router_at w 0)
              "user" "/users/:id" [Router.AFn (Fn 1)] w eq_refl)
    as [e [Hdone [_ [_ [_ [_ Hurl]]]]]].
  - discriminate.
  - intros l [].
  - reflexivity.
  - split; [exact Hdone |]. reflexivity.
Defined.

(** ** The registry only grows *)

Lemma heap_grows_refl (h : Heap) : heap_grows h h.
Proof.
  intros a st H. exists st. split; [exact H | reflexivity].
Qed.

Lemma heap_grows_trans (h1 h2 h3 : Heap) :
  heap_grows h1 h2 -> heap_grows h2 h3 -> heap_grows h1 h3.
Proof.
  intros H12 H23 a st H. destruct (H12 a st H) as [st2 [E2 S2]].
  destruct (H23 a st2 E2) as [st3 [E3 S3]].
  exists st3. split; [exact E3 | etransitivity; eassumption].
Qed.

Lemma heap_grows_alloc (h : Heap) (elems : list Middleware) :
  heap_grows h (h ++ [elems]).
Proof.
  intros a st H. exists st. split; [| reflexivity].
  apply lookup_app_l_Some. exact H.
Qed.

Lemma router_grows_refl (r : Router.t) : router_grows r r.
Proof.
  exists []. rewrite app_nil_r. reflexivity.
Qed.

Lemma router_grows_trans (r1 r2 r3 : Router.t) :
  router_grows r1 r2 -> router_grows r2 r3 -> router_grows r1 r3.
Proof.
  intros [a E] [b F]. exists (a ++ b). rewrite F, E, app_assoc. reflexivity.
Qed.

Lemma world_grows_refl (w : Router.World) : world_grows w w.
Proof.
  split.
  - intros i r H. exists r. split; [exact H | apply router_grows_refl].
  - apply heap_grows_refl.
Qed.

Lemma world_grows_trans (w1 w2 w3 : Router.World) :
  world_grows w1 w2 -> world_grows w2 w3 -> world_grows w1 w3.
Proof.
  intros [R12 H12] [R23 H23]. split.
  - intros i r H. destruct (R12 i r H) as [r2 [E2 G2]].
    destruct (R23 i r2 E2) as [r3 [E3 G3]].
    exists r3. split; [exact E3 | eapply router_grows_trans; eassumption].
  - eapply heap_grows_trans; eassumption.
Qed.

Lemma grows_ret {A : Type} (a : A) : grows (ret a).
Proof.
  intros w. apply world_grows_refl.
Qed.

Lemma grows_throw {A : Type} (e : Exn) : grows (@throw Router.World A e).
Proof.
  intros w. apply world_grows_refl.
Qed.

Lemma grows_bind {A B : Type} (m : M Router.World A) (k : A -> M Router.World B) :
  grows m -> (forall a, grows (k a)) -> grows (bind m k).
Proof.
  intros Hm Hk w. unfold bind. specialize (Hm w).
  destruct (m w) as [[e | a] w']; simpl in *.
  - exact Hm.
  - eapply world_grows_trans; [exact Hm | apply Hk].
Qed.

Lemma grows_for_each {A : Type} (l : list A) (body : A -> M Router.World unit) :
  (forall x, grows (body x)) -> grows (for_each l body).
Proof.
  intros Hbody. induction l as [| x l IH]; simpl.
  - apply grows_ret.
  - apply grows_bind; [apply Hbody | intros _; exact IH].
Qed.

Lemma grows_get_router (self : loc) : grows (Router.get_router self).
Proof.
  intros w. unfold Router.get_router.
  destruct (Router.routers w !! self); apply world_grows_refl.
Qed.

Lemma grows_update_router (self : loc) (f : Router.t -> Router.t) :
  (forall r, router_grows r (f r)) -> grows (Router.update_router self f).
Proof.
  intros Hf w. split; simpl.
  - intros i r H. destruct (decide (self = i)) as [-> | Hne].
    + exists (f r). split; [| apply Hf].
      rewrite list_lookup_alter_eq, H. reflexivity.
    + exists r. split; [| apply router_grows_refl].
      rewrite list_lookup_alter_ne by exact Hne. exact H.
  - apply heap_grows_refl.
Qed.

Lemma grows_update_arrays (g : Heap -> Heap) :
  (forall h, heap_grows h (g h)) -> grows (Router.update_arrays g).
Proof.
  intros Hg w. split; simpl.
  - intros i r H. exists r. split; [exact H | apply router_grows_refl].
  - apply Hg.
Qed.

Lemma grows_on_arrays {A : Type} (m : M Heap A) :
  (forall h, heap_grows h (snd (m h))) -> grows (Router.on_arrays m).
Proof.
  intros Hm w. unfold Router.on_arrays. specialize (Hm (Router.arrays w)).
  destruct (m (Router.arrays w)) as [res h']. split; simpl.
  - intros i r H. exists r. split; [exact H | apply router_grows_refl].
  - exact Hm.
Qed.

Lemma splice_before_sublist (names : list KeyName) (x : Z) (mw : Middleware)
    (st : list Middleware) :
  sublist st (Layer.splice_before names x mw st).
Proof.
  induction st as [| fn st IH]; simpl.
  - constructor.
  - destruct (Layer.stops_scan names x fn).
    + apply sublist_cons. reflexivity.
    + apply sublist_skip. exact IH.
Qed.

Lemma param_stack_sublist (names : list KeyName) (prm : string) (f : FnId)
    (st : list Middleware) :
  sublist st (Layer.param_stack names prm f st).
Proof.
  unfold Layer.param_stack. destruct (_ >? _)%Z; [| reflexivity].
  apply splice_before_sublist.
Qed.

Lemma heap_grows_param (l : Layer.t) (prm : string) (f : FnId) (h : Heap) :
  heap_grows h (Layer.param l prm f h).
Proof.
  intros a st H. unfold Layer.param.
  destruct (decide (Layer.stack l = a)) as [E | Hne].
  - subst a. exists (Layer.param_stack (Layer.paramNames l) prm f st). split.
    + unfold read_array. rewrite H. simpl. apply list_lookup_insert_eq.
      apply lookup_lt_is_Some. eexists. exact H.
    + apply param_stack_sublist.
  - exists st. split; [| reflexivity].
    rewrite list_lookup_insert_ne by exact Hne. exact H.
Qed.

Lemma router_grows_push (l : Layer.t) (r : Router.t) :
  router_grows r (Router.push_layer l r).
Proof.
  exists [entry_key l]. unfold Router.push_layer. simpl. apply map_app.
Qed.

Lemma router_grows_set_param (prm : string) (f : FnId) (r : Router.t) :
  router_grows r (Router.set_param prm f r).
Proof.
  exists []. rewrite app_nil_r. reflexivity.
Qed.

Section GrowthOfOperations.
Context {lib : PathLib}.

Lemma heap_grows_new (p : string) (ms : list string) (mw : Layer.MwArg)
    (o : LayerOpts) (h : Heap) :
  heap_grows h (snd (Layer.new p ms mw o h)).
Proof.
  unfold Layer.new, bind, gets, throw, ret. destruct mw as [a | m]; simpl.
  - destruct (Layer.first_non_function (read_array h a)); simpl;
      [apply heap_grows_refl |].
    destruct (pathToRegexp p o). apply heap_grows_refl.
  - destruct (Layer.first_non_function _); simpl; [apply heap_grows_alloc |].
    destruct (pathToRegexp p o). apply heap_grows_alloc.
Qed.

Lemma entry_key_setPrefix (pre : string) (l : Layer.t) :
  entry_key (Layer.setPrefix pre l) = entry_key l.
Proof.
  unfold entry_key. destruct (setPrefix_fields pre l) as [H1 [H2 [H3 _]]].
  rewrite H1, H2, H3. reflexivity.
Qed.

Lemma grows_register_one (self : loc) (p : string) (ms : list string)
    (mw : Layer.MwArg) (o : Router.RegOpts) :
  grows (Router.register_one self p ms mw o).
Proof.
  unfold Router.register_one.
  apply grows_bind; [apply grows_get_router |]. intros r.
  apply grows_bind; [apply grows_on_arrays, heap_grows_new |]. intros route.
  apply grows_bind.
  { apply grows_for_each. intros prm. destruct (Js.own (Router.params r) prm).
    - apply grows_update_arrays. intros h. apply heap_grows_param.
    - apply grows_ret. }
  intros _. apply grows_bind; [| intros _; apply grows_ret].
  apply grows_update_router. intros r'. apply router_grows_push.
Qed.

Lemma grows_register (self : loc) (p : Router.PathArg) (ms : list string)
    (mw : Layer.MwArg) (o : Router.RegOpts) :
  grows (Router.register self p ms mw o).
Proof.
  destruct p as [p | ps]; simpl.
  - apply grows_register_one.
  - apply grows_bind; [| intros _; apply grows_ret].
    apply grows_for_each. intros curPath.
    apply grows_bind; [apply grows_register_one | intros _; apply grows_ret].
Qed.

Lemma grows_slice_arguments (n : nat) (arguments : list Router.Arg) :
  grows (Router.slice_arguments n arguments).
Proof.
  apply grows_on_arrays. intros h. simpl. apply heap_grows_alloc.
Qed.

Lemma grows_registering (ms : list string) (self : loc) (arguments : list Router.Arg)
    (o : Router.RegOpts) :
  grows (match arguments !! 1 with
         | Some (Router.AStr p) =>
             bind (Router.slice_arguments 2 arguments)
               (fun mw => bind (Router.register self (Router.OnePath p) ms
                                  (Layer.MwArray mw) o)
                            (fun _ => ret tt))
         | _ =>
             bind (Router.slice_arguments 1 arguments)
               (fun mw =>
                  match arguments !! 0 with
                  | Some (Router.AStr p) =>
                      bind (Router.register self (Router.OnePath p) ms
                              (Layer.MwArray mw) Router.no_opts)
                           (fun _ => ret tt)
                  | Some (Router.AArr ps) =>
                      bind (Router.register self (Router.Paths ps) ms
                              (Layer.MwArray mw) Router.no_opts)
                           (fun _ => ret tt)
                  | _ => throw (TypeError "path must be a string or an array of strings")
                  end)
         end).
Proof.
  assert (Hreg : forall p mw o',
             grows (bind (Router.register self p ms mw o') (fun _ => ret tt))).
  { intros p mw o'. apply grows_bind; [apply grows_register | intros _; apply grows_ret]. }
  assert (Hrest : grows
            (bind (Router.slice_arguments 1 arguments)
               (fun mw =>
                  match arguments !! 0 with
                  | Some (Router.AStr p) =>
                      bind (Router.register self (Router.OnePath p) ms
                              (Layer.MwArray mw) Router.no_opts)
                           (fun _ => ret tt)
                  | Some (Router.AArr ps) =>
                      bind (Router.register self (Router.Paths ps) ms
                              (Layer.MwArray mw) Router.no_opts)
                           (fun _ => ret tt)
                  | _ => throw (TypeError "path must be a string or an array of strings")
                  end))).
  { apply grows_bind; [apply grows_slice_arguments |]. intros mw.
    destruct (arguments !! 0) as [[p | ps | m] |];
      first [apply Hreg | apply grows_throw]. }
  destruct (arguments !! 1) as [[p | ps | m] |]; try exact Hrest.
  apply grows_bind; [apply grows_slice_arguments |]. intros mw. apply Hreg.
Qed.

Lemma grows_verb (method : string) (self : loc) (arguments : list Router.Arg) :
  grows (Router.verb method self arguments).
Proof.
  apply (grows_registering [method] self arguments).
Qed.

Lemma grows_all (http_methods : list string) (self : loc)
    (arguments : list Router.Arg) :
  grows (Router.all http_methods self arguments).
Proof.
  apply (grows_registering http_methods self arguments).
Qed.

Lemma grows_param (self : loc) (prm : string) (f : FnId) :
  grows (Router.param self prm f).
Proof.
  unfold Router.param.
  apply grows_bind.
  { apply grows_update_router. intros r. apply router_grows_set_param. }
  intros _. apply grows_bind; [apply grows_get_router |]. intros r.
  apply grows_for_each. intros route. apply grows_update_arrays.
  intros h. apply heap_grows_param.
Qed.

Lemma grows_use_router (self : loc) (p : option string) (nested : loc) :
  grows (Router.use_router self p nested).
Proof.
  unfold Router.use_router.
  apply grows_bind; [apply grows_get_router |]. intros child.
  apply grows_bind.
  { generalize (Router.stack child) as ls.
    induction ls as [| nestedLayer rest IH].
    - apply grows_ret.
    - apply grows_bind; [apply grows_get_router |]. intros router.
      apply grows_bind.
      { apply grows_update_router. intros r'. apply router_grows_push. }
      intros _. apply grows_bind; [exact IH | intros cs; apply grows_ret]. }
  intros clones. apply grows_bind; [apply grows_get_router |]. intros router.
  apply grows_for_each. intros key.
  destruct (Js.own (Router.params router) key) as [f |]; [| apply grows_ret].
  apply grows_bind.
  { apply grows_update_router. intros r. apply router_grows_set_param. }
  intros _. apply grows_for_each. intros l. apply grows_update_arrays.
  intros h. apply heap_grows_param.
Qed.

Lemma grows_use_plain (self : loc) (hasPath : bool) (p : option string)
    (m : Router.Arg) :
  grows (Router.use_plain self hasPath p m).
Proof.
  unfold Router.use_plain.
  apply grows_bind; [apply grows_get_router |]. intros router.
  apply grows_bind.
  { destruct m as [s | items | m]; try apply grows_ret.
    apply grows_bind; [| intros a; apply grows_ret].
    apply grows_on_arrays. intros h. simpl. apply heap_grows_alloc. }
  intros mw. apply grows_bind; [apply grows_register | intros _; apply grows_ret].
Qed.

Lemma grows_use (self : loc) (arguments : list Router.Arg) :
  grows (Router.use self arguments).
Proof.
  assert (Hat : forall args, grows (Router.use_at self args)).
  { intros args. unfold Router.use_at. apply grows_for_each. intros m.
    destruct m as [s | items | [f | prm f | nested | ty]];
      first [apply grows_use_router | apply grows_use_plain]. }
  unfold Router.use.
  destruct arguments as [| [s | [| p0 ps] | m] rest]; try apply Hat.
  apply grows_for_each. intros p. apply Hat.
Qed.

Lemma grows_set_prefix (self : loc) (pre : string) :
  grows (Router.set_prefix self pre).
Proof.
  unfold Router.set_prefix. apply grows_update_router. intros r.
  exists []. rewrite app_nil_r. simpl. rewrite map_map.
  apply map_ext. intros l. apply entry_key_setPrefix.
Qed.

Lemma grows_new (o : Router.Opts) : grows (Router.new o).
Proof.
  intros w. split; simpl.
  - intros i r H. exists r. split; [| apply router_grows_refl].
    apply lookup_app_l_Some. exact H.
  - apply heap_grows_refl.
Qed.

Lemma grows_exec_op (op : Config.Op) : grows (Config.exec_op op).
Proof.
  destruct op; simpl.
  - apply grows_bind; [apply grows_new | intros _; apply grows_ret].
  - apply grows_verb.
  - apply grows_bind; [apply grows_register | intros _; apply grows_ret].
  - apply grows_use.
  - apply grows_param.
  - apply grows_set_prefix.
Qed.

Lemma configure_grows (ops : list Config.Op) (w : Router.World) :
  world_grows w (Config.configure ops w).
Proof.
  revert w. induction ops as [| op ops IH]; intros w; simpl.
  - apply world_grows_refl.
  - eapply world_grows_trans; [apply grows_exec_op | apply IH].
Qed.

(** X4. No call of the configuration interface removes, reorders or
    replaces an entry: the entries that a router has keep their name, their
    method list and their stack, in the same positions, and what a call adds
    comes after them.  This holds for calls that throw as well. *)
Theorem entries_are_only_appended (ops : list Config.Op) (w : Router.World)
    (i : loc) (r : Router.t) :
  Router.routers w !! i = Some r ->
  exists r' added,
    Router.routers (Config.configure ops w) !! i = Some r'
    /\ map entry_key (Router.stack r') = map entry_key (Router.stack r) ++ added.
Proof.
  intros H. destruct (configure_grows ops w) as [Hr _].
  destruct (Hr i r H) as [r' [E [added G]]]. exists r', added. auto.
Qed.

(** X5. No call of the configuration interface takes a function out of a
    middleware stack or changes the order of the functions it holds: every
    array keeps its elements, in order, among those it has afterwards. *)
Theorem stacks_keep_their_functions (ops : list Config.Op) (w : Router.World)
    (a : loc) (st : list Middleware) :
  Router.arrays w !! a = Some st ->
  exists st',
    Router.arrays (Config.configure ops w) !! a = Some st' /\ sublist st st'.
Proof.
  intros H. destruct (configure_grows ops w) as [_ Hh]. exact (Hh a st H).
Qed.
End GrowthOfOperations.

Lemma entries_are_only_appended_witness :
  let w := Examples.built Examples.named_user in
  exists r' added,
    Router.routers (Config.configure (lib := Sample.lib) Examples.later_calls w) !! 0
    = Some r'
    /\ map entry_key (Router.stack r')
       = map entry_key (Router.stack (Examples.router_at w 0)) ++ added.
Proof.
  intros w.
  exact (entries_are_only_appended (lib := Sample.lib) Examples.later_calls w 0
           (Examples.router_at w 0) eq_refl).
Defined.

Lemma stacks_keep_their_functions_witness :
  let w := Examples.built Examples.named_user in
  exists st',
    Router.arrays (Config.configure (lib := Sample.lib) Examples.later_calls w) !! 0
    = Some st'
    /\ sublist [Fn 1] st'.
Proof.
  intros w.
  exact (stacks_keep_their_functions (lib := Sample.lib) Examples.later_calls w 0
           [Fn 1] eq_refl).
Defined.

Example later_calls_on_named_user :
  let w := Config.configure (lib := Sample.lib) Examples.later_calls
             (Examples.built Examples.named_user) in
  map Layer.path (Router.stack (Examples.router_at w 0))
  = ["/api/users/:id"; "/api/users/:id/edit"; "/api/users"]
  /\ Examples.stack_at w 0 0 = [ParamFn "id" 7; Fn 1].
Proof. split; reflexivity. Qed.

(** ** The guard of allowed methods with [throw] *)



(** ** What [match] collects, in order *)

Lemma filter_sublist {A : Type} (f : A -> bool) (l : list A) :
  sublist (List.filter f l) l.
Proof.
  induction l as [| x l IH]; simpl.
  - constructor.
  - destruct (f x); [apply sublist_skip | apply sublist_cons]; exact IH.
Qed.

Lemma filter_and_sublist {A : Type} (f g : A -> bool) (l : list A) :
  sublist (List.filter (fun x => f x && g x) l) (List.filter f l).
Proof.
  induction l as [| x l IH]; simpl.
  - constructor.
  - destruct (f x); simpl; [| exact IH].
    destruct (g x); [apply sublist_skip | apply sublist_cons]; exact IH.
Qed.

(** X7. The entries that match path and method are among the entries that
    match the path, which are among the entries of the router, each list in
    registration order; and the [route] flag is set only if an entry
    matches path and method. *)
Theorem match_lists_are_nested (r : Router.t) (p method : string) :
  sublist (Router.m_pathAndMethod (Router.match_ r p method))
          (Router.m_path (Router.match_ r p method))
  /\ sublist (Router.m_path (Router.match_ r p method)) (Router.stack r)
  /\ (Router.m_pathAndMethod (Router.match_ r p method) = [] ->
      Router.m_route (Router.match_ r p method) = false).
Proof.
  rewrite match_pathAndMethod, match_path, match_route.
  split; [apply filter_and_sublist |]. split; [apply filter_sublist |].
  intros Hnone. destruct (existsb _ _) eqn:E; [| reflexivity].
  apply existsb_exists in E. destruct E as [l [Hl Hc]].
  assert (Hin : In l (List.filter
                        (fun l => Layer.matches l p && accepts method l)
                        (Router.stack r))).
  { apply filter_In. split; [exact Hl |]. apply andb_true_iff in Hc. apply Hc. }
  rewrite Hnone in Hin. destruct Hin.
Qed.

Lemma match_lists_are_nested_witness :
  let r := Examples.router_at (Examples.built Examples.get_and_post) 0 in
  Router.m_route (Router.match_ r "/nowhere" "GET") = false.
Proof.
  intros r.
  exact (proj2 (proj2 (match_lists_are_nested r "/nowhere" "GET")) eq_refl).
Defined.

(** X8. In every world built by the configuration interface, a HEAD request
    on a path reaches every entry that lists GET and whose pattern matches
    the path: the entry is among the matches for path and method and
    [match] reports an exact route. *)
Theorem head_request_reaches_get_entries {lib : PathLib} (ops : list Config.Op)
    (r : Router.t) (l : Layer.t) (p : string) :
  In r (Router.routers (Config.configure ops Router.empty_world)) ->
  In l (Router.stack r) ->
  In "GET" (Layer.methods l) ->
  Layer.matches l p = true ->
  In l (Router.m_pathAndMethod (Router.match_ r p "HEAD"))
  /\ Router.m_route (Router.match_ r p "HEAD") = true.
Proof.
  intros Hr Hl Hget Hmatch.
  assert (Hhead : In "HEAD" (Layer.methods l)).
  { assert (Hw : good_world (Config.configure ops Router.empty_world)).
    { apply configure_good. constructor. }
    unfold good_world in Hw. rewrite Forall_forall in Hw.
    apply list_elem_of_In in Hr. specialize (Hw r Hr).
    unfold good_router in Hw. rewrite Forall_forall in Hw.
    apply list_elem_of_In in Hl. exact (Hw l Hl Hget). }
  assert (Hacc : accepts "HEAD" l = true).
  { unfold accepts. apply orb_true_iff. right.
    apply negb_true_iff, indexOf_present. exact Hhead. }
  split.
  - rewrite match_pathAndMethod. apply filter_In. split; [exact Hl |].
    rewrite Hmatch, Hacc. reflexivity.
  - rewrite match_route. apply existsb_exists. exists l. split; [exact Hl |].
    rewrite Hmatch, Hacc. simpl. apply has_methods_nonempty.
    intros Hnil. rewrite Hnil in Hget. destruct Hget.
Qed.

Lemma head_request_reaches_get_entries_witness :
  let w := Examples.built Examples.named_user in
  Router.m_route (Router.match_ (Examples.router_at w 0) "/users/7" "HEAD") = true.
Proof.
  intros w.
  refine (proj2 (head_request_reaches_get_entries (lib := Sample.lib)
                   Examples.named_user (Examples.router_at w 0)
                   (Examples.layer_at w 0 0) "/users/7" _ _ _ eq_refl)).
  - vm_compute. left. reflexivity.
  - vm_compute. left. reflexivity.
  - vm_compute. right. left. reflexivity.
Defined.

(** ** Prefixes *)

Lemma append_is_slash (a p : string) :
  p <> EmptyString -> (a ++ p)%string = "/" -> a = EmptyString /\ p = "/".
Proof.
  intros Hp H. destruct a as [| c a]; simpl in H.
  - auto.
  - inversion H as [[Hc Ha]]. destruct a; simpl in Ha; [| discriminate].
    subst p. contradiction.
Qed.

Lemma string_app_assoc (a b c : string) :
  ((a ++ b) ++ c)%string = (a ++ (b ++ c))%string.
Proof.
  induction a as [| x a IH]; simpl; [reflexivity | rewrite IH; reflexivity].
Qed.

(** Two calls of [setPrefix] are one call with the two prefixes joined,
    unless the entry is the root path of a pattern that is not strict and
    the first prefix is empty or a slash. *)
Lemma setPrefix_composes {lib : PathLib} (a b : string) (l : Layer.t) :
  Layer.path l <> "/" \/ opt_strict (Layer.opts l) = true
  \/ (a <> EmptyString /\ a <> "/") ->
  Layer.setPrefix b (Layer.setPrefix a l) = Layer.setPrefix (b ++ a)%string l.
Proof.
  intros H. unfold Layer.setPrefix at 2 3.
  destruct (Js.truthy_str (Layer.path l)) eqn:Ht.
  - apply truthy_str_nonempty in Ht.
    set (first := if negb (Layer.path l =? "/") || opt_strict (Layer.opts l)
                  then (a ++ Layer.path l)%string else a).
    assert (Hfirst : Js.truthy_str first = true
                     /\ negb (first =? "/") || opt_strict (Layer.opts l) = true
                     /\ (b ++ first)%string
                        = if negb (Layer.path l =? "/") || opt_strict (Layer.opts l)
                          then ((b ++ a) ++ Layer.path l)%string else (b ++ a)%string).
    { unfold first.
      destruct (String.eqb_spec (Layer.path l) "/") as [E | E];
        destruct (opt_strict (Layer.opts l)) eqn:Es; simpl.
      - split; [| split; [apply orb_true_r | symmetry; apply string_app_assoc]].
        apply truthy_str_nonempty. rewrite E. destruct a; discriminate.
      - destruct H as [H | [H | [H1 H2]]]; [contradiction | discriminate |].
        split; [apply truthy_str_nonempty; exact H1 |].
        split; [| reflexivity].
        rewrite orb_false_r. apply negb_true_iff, String.eqb_neq. exact H2.
      - split; [| split; [apply orb_true_r | symmetry; apply string_app_assoc]].
        apply truthy_str_nonempty. destruct a; [exact Ht | discriminate].
      - split; [| split; [| symmetry; apply string_app_assoc]].
        + apply truthy_str_nonempty. destruct a; [exact Ht | discriminate].
        + rewrite orb_false_r. apply negb_true_iff, String.eqb_neq.
          intros Hs. apply append_is_slash in Hs; [| exact Ht]. apply E, Hs. }
    destruct Hfirst as [H1 [H2 H3]]. fold first.
    destruct (pathToRegexp first (Layer.opts l)) as [re keys].
    unfold Layer.setPrefix.
    cbn [Layer.path Layer.opts Layer.name Layer.methods Layer.stack].
    rewrite H1, H2, H3. reflexivity.
  - unfold Layer.setPrefix. rewrite Ht. reflexivity.
Qed.

(** X9. Two calls of [prefix] add up on the entries that a router has: each
    entry is prefixed as by one call with the second prefix followed by the
    first (each without its final slash), while the prefix option of the
    router, which later registrations receive, is the second prefix alone.
    This holds when no entry is the root path of a pattern that is not
    strict, or when the first prefix is neither empty nor a slash. *)
Theorem prefixes_accumulate {lib : PathLib} (self : loc) (a b : string)
    (r : Router.t) (w : Router.World) :
  Router.routers w !! self = Some r ->
  (forall l, In l (Router.stack r) ->
             Layer.path l <> "/" \/ opt_strict (Layer.opts l) = true
             \/ (Router.drop_trailing_slash a <> EmptyString
                 /\ Router.drop_trailing_slash a <> "/")) ->
  exists r2,
    Router.routers (snd (Router.set_prefix self b (snd (Router.set_prefix self a w))))
      !! self = Some r2
    /\ Router.stack r2
       = map (Layer.setPrefix (Router.drop_trailing_slash b
                               ++ Router.drop_trailing_slash a)%string)
             (Router.stack r)
    /\ Router.prefix (Router.opts r2) = Some (Router.drop_trailing_slash b).
Proof.
  intros Hr Hl. unfold Router.set_prefix, Router.update_router, modify. simpl.
  rewrite !list_lookup_alter_eq, Hr. simpl. eexists. split; [reflexivity |].
  simpl. split; [| reflexivity].
  rewrite map_map. apply map_ext_in. intros l Hin.
  apply setPrefix_composes. apply Hl. exact Hin.
Qed.

Lemma prefixes_accumulate_witness :
  let w := Examples.built Examples.named_user in
  exists r2,
    Router.routers (snd (Router.set_prefix (lib := Sample.lib) 0 "/api/"
                           (snd (Router.set_prefix (lib := Sample.lib) 0 "/v1" w))))
      !! 0 = Some r2
    /\ Router.stack r2
       = map (Layer.setPrefix (lib := Sample.lib) "/api/v1")
             (Router.stack (Examples.router_at w 0))
    /\ Router.prefix (Router.opts r2) = Some "/api".
Proof.
  intros w.
  refine (prefixes_accumulate (lib := Sample.lib) 0 "/v1" "/api/"
            (Examples.router_at w 0) w eq_refl _).
  intros l [<- | [<- | []]]; left; vm_compute; discriminate.
Defined.

(** X10. An entry whose path is the root, of a pattern that is not strict,
    has the empty path once it is given the empty prefix (which is what
    [prefix] passes for a slash), and no later prefix changes it. *)
Theorem root_entry_loses_its_path {lib : PathLib} (l : Layer.t) :
  Layer.path l = "/" ->
  opt_strict (Layer.opts l) = false ->
  Layer.path (Layer.setPrefix EmptyString l) = EmptyString
  /\ forall b, Layer.setPrefix b (Layer.setPrefix EmptyString l)
               = Layer.setPrefix EmptyString l.
Proof.
  intros Hp Hs. unfold Layer.setPrefix at 1 3 4. rewrite Hp, Hs. simpl.
  destruct (pathToRegexp EmptyString (Layer.opts l)) as [re keys].
  split; [reflexivity |]. intros b. unfold Layer.setPrefix. reflexivity.
Qed.

Lemma root_entry_loses_its_path_witness :
  let w := Examples.built Examples.root_route in
  let w' := snd (Router.set_prefix (lib := Sample.lib) 0 "/api"
                   (snd (Router.set_prefix (lib := Sample.lib) 0 "/" w))) in
  Layer.path (Layer.setPrefix (lib := Sample.lib) EmptyString (Examples.layer_at w 0 0))
  = EmptyString
  /\ map Layer.path (Router.stack (Examples.router_at w' 0)) = [EmptyString].
Proof.
  intros w w'.
  split; [| reflexivity].
  exact (proj1 (root_entry_loses_its_path (lib := Sample.lib)
                  (Examples.layer_at w 0 0) eq_refl eq_refl)).
Defined.

(** ** Mounting a router *)

Lemma for_each_preserves {S A : Type} (Q : S -> Prop) (l : list A)
    (body : A -> M S unit) :
  (forall x s, Q s -> fst (body x s) = inr tt /\ Q (snd (body x s))) ->
  forall s, Q s -> fst (for_each l body s) = inr tt /\ Q (snd (for_each l body s)).
Proof.
  intros Hbody. induction l as [| x l IH]; intros s Hs; simpl.
  - split; [reflexivity | exact Hs].
  - unfold bind. destruct (Hbody x s Hs) as [E Q'].
    destruct (body x s) as [[e | []] s']; simpl in *; [discriminate |].
    apply IH. exact Q'.
Qed.

Lemma push_layers_stack (ls : list Layer.t) (r : Router.t) :
  Router.stack (push_layers ls r) = Router.stack r ++ ls
  /\ Router.opts (push_layers ls r) = Router.opts r
  /\ Router.params (push_layers ls r) = Router.params r.
Proof.
  revert r. induction ls as [| l ls IH]; intros r; simpl.
  - rewrite app_nil_r. auto.
  - destruct (IH (Router.push_layer l r)) as [H1 [H2 H3]].
    unfold push_layers in *. rewrite H1, H2, H3. simpl. rewrite <- app_assoc. auto.
Qed.

Lemma mount_copy_key {lib : PathLib} (p pre : option string) (l : Layer.t) :
  entry_key (mount_copy p pre l) = entry_key l.
Proof.
  unfold mount_copy.
  destruct (Js.truthy_opt pre); destruct (Js.truthy_opt p);
    rewrite ?entry_key_setPrefix; reflexivity.
Qed.

(** X11. Mounting the dispatcher of a router that exists on a router that
    exists never throws.  It appends to the mounting router one copy of
    each entry of the nested router, in order; a copy is the entry prefixed
    by the mount path and then by the prefix of the mounting router, and it
    keeps the name, the method list and the very middleware array of the
    entry.  The options of the mounting router are unchanged. *)
Theorem mount_appends_prefixed_copies {lib : PathLib} (self nested : loc)
    (p : option string) (r c : Router.t) (w : Router.World) :
  Router.routers w !! self = Some r ->
  Router.routers w !! nested = Some c ->
  let done := Router.use_router self p nested w in
  fst done = inr tt
  /\ exists r',
       Router.routers (snd done) !! self = Some r'
       /\ Router.opts r' = Router.opts r
       /\ Router.stack r'
          = Router.stack r
            ++ map (mount_copy p (Router.prefix (Router.opts r))) (Router.stack c)
       /\ map entry_key (Router.stack r')
          = map entry_key (Router.stack r) ++ map entry_key (Router.stack c).
Proof.
  intros Hr Hc done.
  set (mc := mount_copy p (Router.prefix (Router.opts r))).
  destruct done as [res w'] eqn:E. unfold done in E. clear done.
  unfold Router.use_router in E.
  unfold bind at 1 in E. unfold Router.get_router at 1 in E. rewrite Hc in E.
  match type of E with
  | context [bind (?f (Router.stack c))] => set (loop := f) in E
  end.
  assert (Hloop : forall ls w0 r0,
             Router.routers w0 !! self = Some r0 ->
             Router.opts r0 = Router.opts r ->
             loop ls w0
             = (inr (map mc ls),
                {| Router.routers :=
                     alter (push_layers (map mc ls)) self (Router.routers w0);
                   Router.arrays := Router.arrays w0 |})).
  { induction ls as [| l ls IH]; intros w0 r0 H0 Ho.
    - simpl. unfold ret. rewrite list_alter_id; [| reflexivity].
      destruct w0; reflexivity.
    - simpl. unfold bind at 1. unfold Router.get_router at 1. rewrite H0.
      unfold bind at 1. unfold Router.update_router at 1. unfold modify.
      unfold bind at 1. fold loop.
      erewrite IH.
      + unfold ret. simpl. rewrite Ho.
        fold (mount_copy p (Router.prefix (Router.opts r)) l). fold mc.
        rewrite list_alter_alter_eq. reflexivity.
      + simpl. rewrite list_lookup_alter_eq, H0. reflexivity.
      + simpl. exact Ho. }
  unfold bind at 1 in E. rewrite (Hloop (Router.stack c) w r Hr eq_refl) in E.
  unfold bind at 1 in E. unfold Router.get_router at 1 in E.
  simpl Router.routers in E.
  rewrite list_lookup_alter_eq, Hr in E. simpl fmap in E. cbv iota beta in E.
  destruct (push_layers_stack (map mc (Router.stack c)) r) as [Hs [Ho Hp]].
  set (Q := fun w0 : Router.World =>
              exists r', Router.routers w0 !! self = Some r'
                         /\ Router.opts r' = Router.opts r
                         /\ Router.stack r' = Router.stack r ++ map mc (Router.stack c)).
  match type of E with
  | for_each ?ks ?body ?w1 = _ =>
      assert (Hq : fst (for_each ks body w1) = inr tt /\ Q (snd (for_each ks body w1)))
  end.
  { apply (for_each_preserves Q).
    - intros key w0 [r' [H1 [H2 H3]]].
      destruct (Js.own _ key) as [f |]; [| split; [reflexivity | exists r'; auto]].
      unfold bind. unfold Router.update_router, modify.
      rewrite for_each_update_arrays. simpl. split; [reflexivity |].
      destruct (decide (nested = self)) as [-> | Hne].
      + exists (Router.set_param key f r'). simpl.
        rewrite list_lookup_alter_eq, H1. auto.
      + exists r'. simpl. rewrite list_lookup_alter_ne by exact Hne. auto.
    - exists (push_layers (map mc (Router.stack c)) r). simpl.
      rewrite list_lookup_alter_eq, Hr. auto. }
  rewrite E in Hq. simpl in Hq. destruct Hq as [Hres [r' [H1 [H2 H3]]]].
  split; [exact Hres |]. exists r'. split; [exact H1 |]. split; [exact H2 |].
  split; [exact H3 |].
  rewrite H3, map_app, map_map. f_equal.
  apply map_ext. intros l. apply mount_copy_key.
Qed.

Lemma mount_appends_prefixed_copies_witness :
  let w := Examples.built Examples.child_and_parent in
  let done := Router.use_router (lib := Sample.lib) 1 (Some "/p") 0 w in
  fst done = inr tt
  /\ exists r',
       Router.routers (snd done) !! 1 = Some r'
       /\ Router.opts r' = Router.opts (Examples.router_at w 1)
       /\ Router.stack r'
          = Router.stack (Examples.router_at w 1)
            ++ map (mount_copy (lib := Sample.lib) (Some "/p")
                      (Router.prefix (Router.opts (Examples.router_at w 1))))
                   (Router.stack (Examples.router_at w 0))
       /\ map entry_key (Router.stack r')
          = map entry_key (Router.stack (Examples.router_at w 1))
            ++ map entry_key (Router.stack (Examples.router_at w 0)).
Proof.
  intros w.
  exact (mount_appends_prefixed_copies (lib := Sample.lib) 1 0 (Some "/p")
           (Examples.router_at w 1) (Examples.router_at w 0) w eq_refl eq_refl).
Defined.

Example mounted_copy_path :
  let w := Examples.built Examples.mounted in
  map Layer.path (Router.stack (Examples.router_at w 1)) = ["/p/:id"]
  /\ map Layer.stack (Router.stack (Examples.router_at w 1))
     = map Layer.stack (Router.stack (Examples.router_at w 0)).
Proof. split; reflexivity. Qed.

(** ** URLs *)

Lemma url_reads_only_the_path {lib : PathLib} (l1 l2 : Layer.t) (args : list Val) :
  Layer.path l1 = Layer.path l2 -> Layer.url l1 args = Layer.url l2 args.
Proof.
  intros H. unfold Layer.url. rewrite H. reflexivity.
Qed.

(** X12. The URL that [url] builds for a name is the URL that the static
    [Router.url] builds from the path of the entry that [route] finds for
    the name, with the same arguments: nothing of an entry but its path
    bears on its URL. *)
Theorem url_by_name_is_static_url {lib : PathLib} (w : Router.World) (self : loc)
    (r : Router.t) (nm : string) (l : Layer.t) (args : list Val) :
  Router.routers w !! self = Some r ->
  Router.route r nm = Some l ->
  fst (Router.url self nm args w)
  = match Router.static_url (Layer.path l) args with
    | inr s => inr (Router.RString s)
    | inl e => inl e
    end.
Proof.
  intros Hr Hl. unfold Router.url, bind, Router.get_router. rewrite Hr, Hl.
  unfold Router.static_url.
  rewrite (url_reads_only_the_path (Router.only_path (Layer.path l)) l args eq_refl).
  destruct (Layer.url l args); reflexivity.
Qed.

Lemma url_by_name_is_static_url_witness :
  let w := Examples.built Examples.named_user in
  fst (Router.url (lib := Sample.lib) 0 "user" [VNum 3] w)
  = match Router.static_url (lib := Sample.lib) "/users/:id" [VNum 3] with
    | inr s => inr (Router.RString s)
    | inl e => inl e
    end.
Proof.
  intros w.
  exact (url_by_name_is_static_url (lib := Sample.lib) w 0 (Examples.router_at w 0)
           "user" (Examples.layer_at w 0 0) [VNum 3] eq_refl eq_refl).
Defined.

Lemma positional_unnamed (tokens : list Token) (args : list Val)
    (replace : Js.Obj Val) :
  existsb Layer.truthy_name tokens = false ->
  Layer.positional tokens args replace = replace.
Proof.
  revert args replace. induction tokens as [| tk tokens IH]; intros args replace H.
  - reflexivity.
  - simpl in *. apply orb_false_iff in H. destruct H as [H1 H2].
    rewrite H1. apply IH. exact H2.
Qed.

(** X13. Positional arguments of which the first and the last are not
    objects give the URL that the named form gives: the object that pairs
    the named tokens of the path, in order, with the arguments, in order (a
    missing argument is [undefined]), followed by the second argument, which
    the function also takes as its options. *)
Theorem positional_arguments_are_named {lib : PathLib} (l : Layer.t) (vs : list Val) :
  typeof_val (hd VUndefined vs) <> "object" ->
  typeof_val (default VUndefined (last vs)) <> "object" ->
  Layer.url l vs
  = Layer.url l [VObj (Layer.positional (parse (Layer.strip_wildcards (Layer.path l))) vs []);
                 hd VUndefined (tl vs)].
Proof.
  intros H1 H2. unfold Layer.url.
  apply String.eqb_neq in H1. apply String.eqb_neq in H2.
  rewrite H1, H2. simpl.
  destruct (existsb Layer.truthy_name _) eqn:E; [reflexivity |].
  rewrite (positional_unnamed _ vs [] E).
  destruct (truthy_val (hd VUndefined (tl vs))) eqn:Et; simpl.
  - rewrite Et. reflexivity.
  - rewrite ?Et. destruct (compile _ _ _); reflexivity.
Qed.

Lemma positional_arguments_are_named_witness :
  let l := Examples.layer_at (Examples.built Examples.named_user) 0 0 in
  Layer.url (lib := Sample.lib) l [VNum 3]
  = Layer.url (lib := Sample.lib) l [VObj [("id", VNum 3)]; VUndefined].
Proof.
  intros l.
  refine (positional_arguments_are_named (lib := Sample.lib) l [VNum 3] _ _);
    discriminate.
Defined.

(** ** Decoding *)

Lemma uri_tokens_literal (a : ascii) (r : string) :
  Ascii.eqb a "%" = false ->
  Js.uri_tokens (String a r)
  = match Js.uri_tokens r with
    | Some ts => Some (Js.Lit a :: ts)
    | None => None
    end.
Proof.
  intros H.
  destruct a as [[] [] [] [] [] [] [] []]; try reflexivity; discriminate H.
Qed.

(** X14. A text without a percent sign is decoded to itself:
    [decodeURIComponent] does not throw on it, and
    [safeDecodeURIComponent] returns it unchanged. *)
Theorem text_without_escapes_decodes_to_itself (s : string) :
  no_percent s = true ->
  Js.decodeURIComponent s = Some s /\ Layer.safeDecodeURIComponent s = s.
Proof.
  intros H.
  assert (E : Js.decodeURIComponent s = Some s).
  { unfold Js.decodeURIComponent.
    assert (Hts : exists ts, Js.uri_tokens s = Some ts /\ Js.decode_tokens ts = Some s).
    { induction s as [| a s IH].
      - exists []. split; reflexivity.
      - simpl in H. apply andb_true_iff in H. destruct H as [Ha Hs].
        apply negb_true_iff in Ha.
        destruct (IH Hs) as [ts [E1 E2]].
        exists (Js.Lit a :: ts). rewrite (uri_tokens_literal a s Ha), E1.
        split; [reflexivity |]. simpl. rewrite E2. reflexivity. }
    destruct Hts as [ts [E1 E2]]. rewrite E1. exact E2. }
  split; [exact E |]. unfold Layer.safeDecodeURIComponent. rewrite E. reflexivity.
Qed.

Lemma text_without_escapes_decodes_to_itself_witness :
  Js.decodeURIComponent "a b+c" = Some "a b+c"
  /\ Layer.safeDecodeURIComponent "a b+c" = "a b+c".
Proof.
  exact (text_without_escapes_decodes_to_itself "a b+c" eq_refl).
Defined.

(** ** Registration by a verb method and by [all] *)

Lemma verb_path_first {lib : PathLib} (method : string) (self : loc) (r : Router.t)
    (p : string) (m : Middleware) (rest : list Router.Arg) (w : Router.World) :
  Router.routers w !! self = Some r ->
  Layer.first_non_function (m :: map Router.as_middleware rest) = None ->
  let e := entry_for r p [method] (length (Router.arrays w)) Router.no_opts in
  Router.verb method self (Router.AStr p :: Router.AFn m :: rest) w
  = (inr tt,
     {| Router.routers := alter (Router.push_layer e) self (Router.routers w);
        Router.arrays :=
          with_validators e (stored_validators r)
            (Router.arrays w ++ [m :: map Router.as_middleware rest]) |}).
Proof.
  intros Hr Hfn e.
  set (w1 := {| Router.routers := Router.routers w;
                Router.arrays := Router.arrays w
                                 ++ [m :: map Router.as_middleware rest] |}).
  unfold Router.verb.
  change ((Router.AStr p :: Router.AFn m :: rest) !! 1) with (Some (Router.AFn m)).
  change ((Router.AStr p :: Router.AFn m :: rest) !! 0) with (Some (Router.AStr p)).
  cbv iota beta. unfold bind. rewrite slice_arguments_runs.
  change (map Router.as_middleware (drop 1 (Router.AStr p :: Router.AFn m :: rest)))
    with (m :: map Router.as_middleware rest).
  fold w1. unfold Router.register.
  rewrite (register_one_succeeds w1 self r p [method] (length (Router.arrays w))
             Router.no_opts Hr).
  - reflexivity.
  - unfold w1. simpl Router.arrays. rewrite read_new_array. exact Hfn.
Qed.

Lemma all_path_first {lib : PathLib} (ms : list string) (self : loc) (r : Router.t)
    (p : string) (m : Middleware) (rest : list Router.Arg) (w : Router.World) :
  Router.routers w !! self = Some r ->
  Layer.first_non_function (m :: map Router.as_middleware rest) = None ->
  let e := entry_for r p ms (length (Router.arrays w)) Router.no_opts in
  Router.all ms self (Router.AStr p :: Router.AFn m :: rest) w
  = (inr tt,
     {| Router.routers := alter (Router.push_layer e) self (Router.routers w);
        Router.arrays :=
          with_validators e (stored_validators r)
            (Router.arrays w ++ [m :: map Router.as_middleware rest]) |}).
Proof.
  intros Hr Hfn e.
  set (w1 := {| Router.routers := Router.routers w;
                Router.arrays := Router.arrays w
                                 ++ [m :: map Router.as_middleware rest] |}).
  unfold Router.all.
  change ((Router.AStr p :: Router.AFn m :: rest) !! 1) with (Some (Router.AFn m)).
  change ((Router.AStr p :: Router.AFn m :: rest) !! 0) with (Some (Router.AStr p)).
  cbv iota beta. unfold bind. rewrite slice_arguments_runs.
  change (map Router.as_middleware (drop 1 (Router.AStr p :: Router.AFn m :: rest)))
    with (m :: map Router.as_middleware rest).
  fold w1. unfold Router.register.
  rewrite (register_one_succeeds w1 self r p ms (length (Router.arrays w))
             Router.no_opts Hr).
  - reflexivity.
  - unfold w1. simpl Router.arrays. rewrite read_new_array. exact Hfn.
Qed.

(** X15. [all], given a path and functions, adds one entry without a name
    that accepts every method of the list of the package [methods], read in
    upper case; when that list is not empty the entry accepts nothing but
    these methods and HEAD. *)
Theorem all_accepts_listed_methods {lib : PathLib} (ms : list string) (self : loc)
    (r : Router.t) (p : string) (m : Middleware) (rest : list Router.Arg)
    (w : Router.World) :
  Router.routers w !! self = Some r ->
  Layer.first_non_function (m :: map Router.as_middleware rest) = None ->
  let done := Router.all ms self (Router.AStr p :: Router.AFn m :: rest) w in
  exists e,
    fst done = inr tt
    /\ Router.routers (snd done) !! self = Some (Router.push_layer e r)
    /\ Layer.name e = None
    /\ (forall x, In x ms -> accepts (Js.toUpperCase x) e = true)
    /\ (forall x, accepts x e = true ->
                  ms = [] \/ x = "HEAD" \/ In x (map Js.toUpperCase ms)).
Proof.
  intros Hr Hfn done.
  set (e := entry_for r p ms (length (Router.arrays w)) Router.no_opts).
  exists e. unfold done. rewrite (all_path_first ms self r p m rest w Hr Hfn).
  fold e. simpl fst. simpl snd. simpl Router.routers.
  destruct (entry_for_fields r p ms (length (Router.arrays w)) Router.no_opts)
    as [Hname [Hmethods _]]. fold e in Hname, Hmethods.
  split; [reflexivity |].
  split; [rewrite list_lookup_alter_eq, Hr; reflexivity |].
  split; [exact Hname |].
  split.
  - intros x Hx. unfold accepts. apply orb_true_iff. right.
    apply negb_true_iff, indexOf_present.
    rewrite Hmethods, build_methods_closed_form. apply in_or_app. right.
    apply in_map. exact Hx.
  - intros x Hx. unfold accepts in Hx. apply orb_true_iff in Hx.
    destruct Hx as [Hx | Hx].
    + left. apply Nat.eqb_eq in Hx. rewrite Hmethods, build_methods_closed_form in Hx.
      rewrite length_app, length_map in Hx. destruct ms; [reflexivity | simpl in Hx; lia].
    + right. apply negb_true_iff, indexOf_present in Hx.
      rewrite Hmethods, build_methods_closed_form in Hx.
      apply in_app_or in Hx. destruct Hx as [Hx | Hx]; [| right; exact Hx].
      left. apply repeat_spec in Hx. exact Hx.
Qed.

Lemma all_accepts_listed_methods_witness :
  let w := Examples.built Examples.one_router in
  let done := Router.all (lib := Sample.lib) ["get"; "post"; "delete"] 0
                [Router.AStr "/x"; Router.AFn (Fn 1)] w in
  exists e,
    fst done = inr tt
    /\ Router.routers (snd done) !! 0 = Some (Router.push_layer e (Examples.router_at w 0))
    /\ Layer.name e = None
    /\ (forall x, In x ["get"; "post"; "delete"] -> accepts (Js.toUpperCase x) e = true)
    /\ (forall x, accepts x e = true ->
                  ["get"; "post"; "delete"] = [] \/ x = "HEAD"
                  \/ In x (map Js.toUpperCase ["get"; "post"; "delete"])).
Proof.
  intros w.
  exact (all_accepts_listed_methods (lib := Sample.lib) ["get"; "post"; "delete"] 0
           (Examples.router_at w 0) "/x" (Fn 1) [] w eq_refl eq_refl).
Defined.

(** ** Validators at registration *)

Lemma with_validators_own_array {lib : PathLib} (e : Layer.t)
    (vals : list (string * FnId)) :
  forall (h : Heap) (st : list Middleware),
    h !! Layer.stack e = Some st ->
    with_validators e vals h !! Layer.stack e
    = Some (fold_left
              (fun st pf => Layer.param_stack (Layer.paramNames e) (fst pf) (snd pf) st)
              vals st).
Proof.
  unfold with_validators.
  induction vals as [| pf vals IH]; intros h st H; simpl; [exact H |].
  apply IH. unfold Layer.param, read_array. rewrite H. simpl.
  apply list_lookup_insert_eq. apply lookup_lt_is_Some. eexists. exact H.
Qed.

Lemma validators_declared_on_own_stack (names : list KeyName) (hs : list Middleware)
    (vals : list (string * FnId)) :
  hs <> [] ->
  Forall (fun m => is_validator m = false) hs ->
  Forall (fun pf => Js.truthy_str (fst pf) = true) vals ->
  forall vs0,
    Forall (fun v => is_validator v = true) vs0 ->
    in_parameter_order names vs0 ->
    exists vs,
      fold_left (fun st pf => Layer.param_stack names (fst pf) (snd pf) st) vals (vs0 ++ hs)
      = vs ++ hs
      /\ Forall (fun v => is_validator v = true) vs
      /\ in_parameter_order names vs
      /\ Permutation vs (declared_validators names vals ++ vs0).
Proof.
  intros Hne Hhs Hvals.
  induction Hvals as [| [prm f] vals Hpf Hvals IH]; intros vs0 H0 Hs0.
  - exists vs0. simpl. auto.
  - simpl fold_left.
    destruct (param_on_own_stack names prm f vs0 hs H0 Hs0 Hne Hhs Hpf)
      as [vs1 [E1 [H1 [Hs1 Hcase]]]].
    rewrite E1. destruct (IH vs1 H1 Hs1) as [vs [E [Hv [Hs Hp]]]].
    exists vs. split; [exact E |]. split; [exact Hv |]. split; [exact Hs |].
    unfold declared_validators in *. simpl List.filter.
    destruct Hcase as [[Hx Hperm] | [Hx ->]].
    + replace (Js.indexOf key_is prm names >? -1)%Z with true
        by (symmetry; apply Z.gtb_lt; lia).
      simpl. eapply Permutation_trans; [exact Hp |].
      eapply Permutation_trans; [apply Permutation_app_head; exact Hperm |].
      symmetry. apply Permutation_middle.
    + rewrite Hx. simpl. exact Hp.
Qed.

(** X16. A route registered by a verb method with a path and functions
    that carry no [param] property, on a router whose stored validators
    have names that are not empty, gets a middleware array of its own: the
    validators that the router stores for the parameters of its pattern,
    each once and in the order of the parameters in the pattern, followed
    by the functions in the order given. *)
Theorem validators_precede_handlers {lib : PathLib} (method : string) (self : loc)
    (r : Router.t) (p : string) (m : Middleware) (rest : list Router.Arg)
    (w : Router.World) :
  Router.routers w !! self = Some r ->
  Layer.first_non_function (m :: map Router.as_middleware rest) = None ->
  Forall (fun h => is_validator h = false) (m :: map Router.as_middleware rest) ->
  Forall (fun pf => Js.truthy_str (fst pf) = true) (stored_validators r) ->
  let done := Router.verb method self (Router.AStr p :: Router.AFn m :: rest) w in
  exists e vs,
    fst done = inr tt
    /\ Router.routers (snd done) !! self = Some (Router.push_layer e r)
    /\ Layer.stack e = length (Router.arrays w)
    /\ Router.arrays (snd done) !! Layer.stack e
       = Some (vs ++ m :: map Router.as_middleware rest)
    /\ Forall (fun v => is_validator v = true) vs
    /\ in_parameter_order (Layer.paramNames e) vs
    /\ Permutation vs (declared_validators (Layer.paramNames e) (stored_validators r)).
Proof.
  intros Hr Hfn Hhs Hvals done.
  set (e := entry_for r p [method] (length (Router.arrays w)) Router.no_opts).
  destruct (validators_declared_on_own_stack (Layer.paramNames e)
              (m :: map Router.as_middleware rest) (stored_validators r)
              ltac:(discriminate) Hhs Hvals [] (List.Forall_nil _) (SSorted_nil _))
    as [vs [E [Hv [Hs Hp]]]].
  destruct (entry_for_fields r p [method] (length (Router.arrays w)) Router.no_opts)
    as [_ [_ Hstack]]. fold e in Hstack.
  exists e, vs. unfold done. rewrite (verb_path_first method self r p m rest w Hr Hfn).
  fold e. simpl fst. simpl snd. simpl Router.routers. simpl Router.arrays.
  split; [reflexivity |].
  split; [rewrite list_lookup_alter_eq, Hr; reflexivity |].
  split; [exact Hstack |].
  split.
  - rewrite (with_validators_own_array e (stored_validators r) _
               (m :: map Router.as_middleware rest)).
    + f_equal. exact E.
    + rewrite Hstack. apply list_lookup_middle. reflexivity.
  - split; [exact Hv |]. split; [exact Hs |].
    rewrite app_nil_r in Hp. exact Hp.
Qed.

Lemma validators_precede_handlers_witness :
  let w := Examples.built Examples.validators_first in
  let done := Router.verb (lib := Sample.lib) "get" 0
                [Router.AStr "/:a/:b"; Router.AFn (Fn 9)] w in
  exists e vs,
    fst done = inr tt
    /\ Router.routers (snd done) !! 0 = Some (Router.push_layer e (Examples.router_at w 0))
    /\ Layer.stack e = length (Router.arrays w)
    /\ Router.arrays (snd done) !! Layer.stack e = Some (vs ++ [Fn 9])
    /\ Forall (fun v => is_validator v = true) vs
    /\ in_parameter_order (Layer.paramNames e) vs
    /\ Permutation vs (declared_validators (Layer.paramNames e)
                         (stored_validators (Examples.router_at w 0))).
Proof.
  intros w.
  refine (validators_precede_handlers (lib := Sample.lib) "get" 0
            (Examples.router_at w 0) "/:a/:b" (Fn 9) [] w eq_refl eq_refl _ _).
  - repeat constructor.
  - repeat constructor.
Defined.

Example validators_first_then_route :
  let w := Examples.built Examples.validators_first in
  let done := Router.verb (lib := Sample.lib) "get" 0
                [Router.AStr "/:a/:b"; Router.AFn (Fn 9)] w in
  Examples.stack_at (snd done) 0 0 = [ParamFn "a" 1; ParamFn "b" 2; Fn 9].
Proof. reflexivity. Qed.

(** ** Entries hold only functions *)


Lemma first_non_function_none (st : list Middleware) :
  Layer.first_non_function st = None
  <-> List.Forall (fun m => typeof m = "function") st.
Proof.
  unfold Layer.first_non_function. induction st as [| m st IH]; simpl.
  - split; [constructor | reflexivity].
  - destruct (String.eqb_spec (typeof m) "function") as [E | E]; simpl.
    + rewrite IH. split; [intros H; constructor; assumption | intros H; inversion H; assumption].
    + split; [discriminate | intros H; inversion H; contradiction].
Qed.

Lemma extends_refl (h : Heap) : extends h h.
Proof.
  split; [lia | auto].
Qed.

Lemma extends_trans (h1 h2 h3 : Heap) : extends h1 h2 -> extends h2 h3 -> extends h1 h3.
Proof.
  intros [L1 F1] [L2 F2]. split; [lia | auto].
Qed.

Lemma extends_alloc (h : Heap) (elems : list Middleware) : extends h (h ++ [elems]).
Proof.
  split; [rewrite length_app; lia |].
  intros a [st [E F]]. exists st. split; [| exact F].
  apply lookup_app_l_Some. exact E.
Qed.

Lemma splice_before_functions (names : list KeyName) (x : Z) (prm : string) (f : FnId)
    (st : list Middleware) :
  List.Forall (fun m => typeof m = "function") st ->
  List.Forall (fun m => typeof m = "function")
              (Layer.splice_before names x (ParamFn prm f) st).
Proof.
  intros H. induction H as [| m st Hm Hst IH]; simpl.
  - constructor.
  - destruct (Layer.stops_scan names x m).
    + constructor; [reflexivity |]. constructor; assumption.
    + constructor; assumption.
Qed.

Lemma extends_param (l : Layer.t) (prm : string) (f : FnId) (h : Heap) :
  extends h (Layer.param l prm f h).
Proof.
  unfold Layer.param. split; [rewrite length_insert; lia |].
  intros a [st [E F]].
  destruct (decide (Layer.stack l = a)) as [<- | Hne].
  - eexists. split.
    + apply list_lookup_insert_eq. apply lookup_lt_is_Some. eexists. exact E.
    + unfold read_array. rewrite E. simpl. unfold Layer.param_stack.
      destruct (_ >? _)%Z; [| exact F].
      apply first_non_function_none, splice_before_functions, first_non_function_none.
      exact F.
  - exists st. split; [| exact F]. rewrite list_lookup_insert_ne by exact Hne. exact E.
Qed.

Lemma callable_router_extends (h h' : Heap) (r : Router.t) :
  extends h h' -> callable_router h r -> callable_router h' r.
Proof.
  intros [_ F] H. unfold callable_router in *.
  rewrite List.Forall_forall in *. intros l Hl. apply F, H, Hl.
Qed.

Lemma callable_world_extends (rs : list Router.t) (h h' : Heap) :
  extends h h' ->
  callable_world {| Router.routers := rs; Router.arrays := h |} ->
  callable_world {| Router.routers := rs; Router.arrays := h' |}.
Proof.
  intros Hext H. unfold callable_world in *. simpl in *.
  rewrite List.Forall_forall in *. intros r Hr.
  apply (callable_router_extends h h' r Hext), H, Hr.
Qed.

Lemma stable_in_heap (mw : Layer.MwArg) : stable (in_heap mw).
Proof.
  intros h h' [L _] H. destruct mw; simpl in *; [lia | exact I].
Qed.

Lemma stable_function_array (a : loc) : stable (fun h => function_array h a).
Proof.
  intros h h' [_ F] H. apply F, H.
Qed.

Lemma stable_and (P Q : Heap -> Prop) :
  stable P -> stable Q -> stable (fun h => P h /\ Q h).
Proof.
  intros HP HQ h h' E [H1 H2]. split; [eapply HP | eapply HQ]; eassumption.
Qed.

Lemma stable_true : stable (fun _ => True).
Proof.
  intros h h' _ _. exact I.
Qed.

Lemma safe_ret {A : Type} (P : Heap -> Prop) (a : A) (Q : A -> Heap -> Prop) :
  (forall h, P h -> Q a h) -> safe P (ret a) Q.
Proof.
  intros H w Hw Hp. simpl. split; [exact Hw |].
  intros b E. inversion E. subst. apply H, Hp.
Qed.

Lemma safe_throw {A : Type} (P : Heap -> Prop) (e : Exn) (Q : A -> Heap -> Prop) :
  safe P (throw e) Q.
Proof.
  intros w Hw Hp. simpl. split; [exact Hw | discriminate].
Qed.

Lemma safe_bind {A B : Type} (P : Heap -> Prop) (m : M Router.World A)
    (Q : A -> Heap -> Prop) (k : A -> M Router.World B) (R : B -> Heap -> Prop) :
  safe P m Q -> (forall a, safe (Q a) (k a) R) -> safe P (bind m k) R.
Proof.
  intros Hm Hk w Hw Hp. unfold bind.
  destruct (Hm w Hw Hp) as [Hw' Hq].
  destruct (m w) as [[e | a] w']; simpl in *.
  - split; [exact Hw' | discriminate].
  - apply (Hk a w' Hw'). apply Hq. reflexivity.
Qed.

Lemma safe_post {A : Type} (P : Heap -> Prop) (m : M Router.World A)
    (Q Q' : A -> Heap -> Prop) :
  safe P m Q -> (forall a h, Q a h -> Q' a h) -> safe P m Q'.
Proof.
  intros Hm H w Hw Hp. destruct (Hm w Hw Hp) as [Hw' Hq].
  split; [exact Hw' |]. intros a E. apply H, Hq, E.
Qed.

Lemma safe_pre {A : Type} (P P' : Heap -> Prop) (m : M Router.World A)
    (Q : A -> Heap -> Prop) :
  safe P m Q -> (forall h, P' h -> P h) -> safe P' m Q.
Proof.
  intros Hm H w Hw Hp. apply (Hm w Hw). apply H, Hp.
Qed.

Lemma safe_for_each {A : Type} (P : Heap -> Prop) (l : list A)
    (body : A -> M Router.World unit) :
  (forall x, safe P (body x) (fun _ => P)) -> safe P (for_each l body) (fun _ => P).
Proof.
  intros Hbody. induction l as [| x l IH]; simpl.
  - apply safe_ret. auto.
  - eapply safe_bind; [apply Hbody | intros ?; exact IH].
Qed.

Lemma safe_get_router (P : Heap -> Prop) (self : loc) :
  safe P (Router.get_router self) (fun r h => P h /\ callable_router h r).
Proof.
  intros w Hw Hp. unfold Router.get_router.
  destruct (Router.routers w !! self) as [r |] eqn:E; simpl.
  - split; [exact Hw |]. intros a Ea. injection Ea as <-. split; [exact Hp |].
    unfold callable_world in Hw. rewrite List.Forall_forall in Hw.
    apply Hw. apply list_elem_of_In. eapply list_elem_of_lookup_2. exact E.
  - split; [exact Hw | discriminate].
Qed.

Lemma safe_update_router (P : Heap -> Prop) (self : loc) (f : Router.t -> Router.t) :
  (forall h r, P h -> callable_router h r -> callable_router h (f r)) ->
  safe P (Router.update_router self f) (fun _ => P).
Proof.
  intros Hf w Hw Hp. unfold Router.update_router, modify. simpl.
  split; [| intros _ _; exact Hp].
  unfold callable_world in *. simpl.
  apply Forall_alter; [exact Hw |]. intros r _ Hr. apply Hf; assumption.
Qed.

Lemma safe_update_arrays (P : Heap -> Prop) (g : Heap -> Heap) :
  stable P -> (forall h, extends h (g h)) ->
  safe P (Router.update_arrays g) (fun _ => P).
Proof.
  intros HP Hg w Hw Hp. unfold Router.update_arrays, modify. simpl.
  split; [| intros _ _; apply (HP _ _ (Hg _) Hp)].
  apply (callable_world_extends _ (Router.arrays w)); [apply Hg |].
  destruct w; exact Hw.
Qed.

Lemma safe_on_arrays {A : Type} (P : Heap -> Prop) (m : M Heap A)
    (Q : A -> Heap -> Prop) :
  (forall h, P h -> extends h (snd (m h))
                    /\ forall a, fst (m h) = inr a -> Q a (snd (m h))) ->
  safe P (Router.on_arrays m) Q.
Proof.
  intros Hm w Hw Hp. unfold Router.on_arrays.
  destruct (Hm (Router.arrays w) Hp) as [He Hq].
  destruct (m (Router.arrays w)) as [res h']. simpl in *.
  split; [| exact Hq].
  apply (callable_world_extends _ (Router.arrays w)); [exact He |].
  destruct w; exact Hw.
Qed.

Section Callable.
Context {lib : PathLib}.

Lemma new_function_array (p : string) (ms : list string) (mw : Layer.MwArg)
    (o : LayerOpts) (h : Heap) :
  in_heap mw h ->
  extends h (snd (Layer.new p ms mw o h))
  /\ forall l, fst (Layer.new p ms mw o h) = inr l ->
               in_heap mw (snd (Layer.new p ms mw o h))
               /\ function_array (snd (Layer.new p ms mw o h)) (Layer.stack l).
Proof.
  intros Hin. unfold Layer.new, bind, gets, throw, ret.
  destruct mw as [a | m]; simpl in *.
  - destruct (Layer.first_non_function (read_array h a)) eqn:E; simpl.
    + split; [apply extends_refl | discriminate].
    + destruct (pathToRegexp p o) as [re keys]. simpl.
      split; [apply extends_refl |]. intros l El. inversion El. subst. simpl.
      split; [exact Hin |].
      apply lookup_lt_is_Some in Hin. destruct Hin as [st Hst].
      exists st. split; [exact Hst |]. unfold read_array in E. rewrite Hst in E. exact E.
  - rewrite read_new_array.
    destruct (Layer.first_non_function [m]) eqn:E; simpl.
    + split; [apply extends_alloc | discriminate].
    + destruct (pathToRegexp p o) as [re keys]. simpl.
      split; [apply extends_alloc |]. intros l El. inversion El. subst. simpl.
      split; [exact I |].
      exists [m]. split; [| exact E]. apply list_lookup_middle. reflexivity.
Qed.

Lemma push_layer_callable (h : Heap) (l : Layer.t) (r : Router.t) :
  function_array h (Layer.stack l) -> callable_router h r ->
  callable_router h (Router.push_layer l r).
Proof.
  intros Hl Hr. unfold callable_router, Router.push_layer. simpl.
  apply List.Forall_app. split; [exact Hr |]. constructor; [exact Hl | constructor].
Qed.

Lemma safe_register_one (self : loc) (p : string) (ms : list string)
    (mw : Layer.MwArg) (o : Router.RegOpts) :
  safe (in_heap mw) (Router.register_one self p ms mw o) (fun _ => in_heap mw).
Proof.
  unfold Router.register_one.
  eapply safe_bind; [apply safe_get_router |]. intros r.
  eapply safe_bind.
  { apply safe_on_arrays
      with (Q := fun route h => in_heap mw h /\ function_array h (Layer.stack route)).
    intros h [Hin _]. apply new_function_array. exact Hin. }
  intros route.
  set (route' := match Router.prefix (Router.opts r) with
                 | Some pre => if Js.truthy_str pre then Layer.setPrefix pre route else route
                 | None => route
                 end).
  assert (Hst : Layer.stack route' = Layer.stack route).
  { unfold route'. destruct (Router.prefix (Router.opts r)) as [pre |]; [| reflexivity].
    destruct (Js.truthy_str pre); [apply setPrefix_keeps_the_stack | reflexivity]. }
  set (P := fun h => in_heap mw h /\ function_array h (Layer.stack route')).
  assert (HP : stable P).
  { apply stable_and; [apply stable_in_heap | apply stable_function_array]. }
  apply safe_pre with (P := P); [| unfold P; rewrite Hst; auto].
  eapply safe_bind.
  { apply safe_for_each. intros prm.
    destruct (Js.own (Router.params r) prm) as [f |].
    - apply safe_update_arrays; [exact HP | intros h; apply extends_param].
    - apply safe_ret. auto. }
  intros ?. eapply safe_bind.
  { apply safe_update_router. intros h r' [_ Hfa] Hr'.
    apply push_layer_callable; assumption. }
  intros ?. apply safe_ret. intros h [Hin _]. exact Hin.
Qed.

Lemma safe_register (self : loc) (p : Router.PathArg) (ms : list string)
    (mw : Layer.MwArg) (o : Router.RegOpts) :
  safe (in_heap mw) (Router.register self p ms mw o) (fun _ => in_heap mw).
Proof.
  unfold Router.register. destruct p as [p | ps]; [apply safe_register_one |].
  eapply safe_bind with (Q := fun _ => in_heap mw); [| intros ?; apply safe_ret; auto].
  apply safe_for_each. intros curPath.
  eapply safe_bind; [apply safe_register_one | intros ?; apply safe_ret; auto].
Qed.

Lemma safe_slice_arguments (n : nat) (arguments : list Router.Arg) :
  safe (fun _ => True) (Router.slice_arguments n arguments)
       (fun a => in_heap (Layer.MwArray a)).
Proof.
  unfold Router.slice_arguments. apply safe_on_arrays. intros h _. simpl.
  split; [apply extends_alloc |]. intros a E. inversion E. subst.
  rewrite length_app. simpl. lia.
Qed.

Lemma safe_done {A : Type} (P : Heap -> Prop) (m : M Router.World A)
    (Q : A -> Heap -> Prop) :
  safe P m Q -> safe P (bind m (fun _ => ret tt)) (fun _ _ => True).
Proof.
  intros H. eapply safe_bind; [exact H | intros ?; apply safe_ret; auto].
Qed.

Lemma safe_verb (method : string) (self : loc) (arguments : list Router.Arg) :
  safe (fun _ => True) (Router.verb method self arguments) (fun _ _ => True).
Proof.
  unfold Router.verb.
  destruct (arguments !! 1) as [[s | ps | f] |];
    (eapply safe_bind; [apply safe_slice_arguments |]); intros mw;
    try (eapply safe_done; apply safe_register);
    destruct (arguments !! 0) as [[s' | ps' | f'] |];
    first [eapply safe_done; apply safe_register | apply safe_throw].
Qed.

Lemma safe_all (ms : list string) (self : loc) (arguments : list Router.Arg) :
  safe (fun _ => True) (Router.all ms self arguments) (fun _ _ => True).
Proof.
  unfold Router.all.
  destruct (arguments !! 1) as [[s | ps | f] |];
    (eapply safe_bind; [apply safe_slice_arguments |]); intros mw;
    try (eapply safe_done; apply safe_register);
    destruct (arguments !! 0) as [[s' | ps' | f'] |];
    first [eapply safe_done; apply safe_register | apply safe_throw].
Qed.

Lemma safe_param (self : loc) (prm : string) (f : FnId) :
  safe (fun _ => True) (Router.param self prm f) (fun _ _ => True).
Proof.
  unfold Router.param.
  eapply safe_bind.
  { apply safe_update_router. intros h r _ Hr. exact Hr. }
  intros ?. eapply safe_bind; [apply safe_get_router |]. intros r.
  apply safe_pre with (P := fun _ => True); [| auto].
  apply safe_post with (Q := fun _ _ => True); [| auto].
  apply safe_for_each. intros route.
  apply safe_update_arrays; [apply stable_true | intros h; apply extends_param].
Qed.

Lemma set_prefix_callable (h : Heap) (pre : string) (r : Router.t) (o : Router.Opts) :
  callable_router h r ->
  callable_router h {| Router.opts := o; Router.methods := Router.methods r;
                       Router.params := Router.params r;
                       Router.stack := map (Layer.setPrefix pre) (Router.stack r) |}.
Proof.
  unfold callable_router. simpl. intros H.
  rewrite List.Forall_forall in *. intros l Hl.
  apply in_map_iff in Hl. destruct Hl as [l0 [<- Hl0]].
  rewrite setPrefix_keeps_the_stack. apply H, Hl0.
Qed.

Lemma safe_set_prefix (self : loc) (pre : string) :
  safe (fun _ => True) (Router.set_prefix self pre) (fun _ _ => True).
Proof.
  unfold Router.set_prefix.
  apply safe_post with (Q := fun _ _ => True); [| auto].
  apply safe_update_router. intros h r _ Hr. apply set_prefix_callable. exact Hr.
Qed.

Lemma safe_new (o : Router.Opts) :
  safe (fun _ => True) (Router.new o) (fun _ _ => True).
Proof.
  intros w Hw _. unfold Router.new. simpl. split; [| auto].
  unfold callable_world in *. simpl.
  apply List.Forall_app. split; [exact Hw |].
  constructor; [constructor | constructor].
Qed.

Lemma safe_use_plain (self : loc) (hasPath : bool) (p : option string)
    (m : Router.Arg) :
  safe (fun _ => True) (Router.use_plain self hasPath p m) (fun _ _ => True).
Proof.
  unfold Router.use_plain.
  eapply safe_bind; [apply safe_get_router |]. intros router.
  eapply safe_bind with (Q := fun mw => in_heap mw).
  { destruct m as [s | items | m]; try (apply safe_ret; simpl; auto).
    eapply safe_bind with (Q := fun a => in_heap (Layer.MwArray a)).
    - apply safe_on_arrays. intros h _. simpl.
      split; [apply extends_alloc |]. intros a E. inversion E. subst.
      rewrite length_app. simpl. lia.
    - intros a. apply safe_ret. auto. }
  intros mw. eapply safe_done. apply safe_register.
Qed.

Lemma safe_use_router (self : loc) (p : option string) (nested : loc) :
  safe (fun _ => True) (Router.use_router self p nested) (fun _ _ => True).
Proof.
  unfold Router.use_router.
  eapply safe_bind; [apply safe_get_router |]. intros child.
  eapply safe_bind with (Q := fun _ _ => True).
  { apply safe_pre with (P := fun h => callable_router h child); [| intros h [_ H]; exact H].
    unfold callable_router. generalize (Router.stack child) as ls.
    induction ls as [| nestedLayer rest IH].
    - apply safe_ret. auto.
    - eapply safe_bind; [apply safe_get_router |]. intros router.
      eapply safe_bind.
      { apply safe_update_router. intros h r' [Hls _] Hr'.
        apply push_layer_callable; [| exact Hr'].
        inversion Hls as [| ? ? Hl _]. subst.
        destruct (Js.truthy_opt (Router.prefix (Router.opts router)));
          destruct (Js.truthy_opt p);
          rewrite ?setPrefix_keeps_the_stack; exact Hl. }
      intros ?. eapply safe_bind.
      { apply safe_pre with (P := fun h => List.Forall (fun l => function_array h (Layer.stack l)) rest).
        - exact IH.
        - intros h [Hls _]. inversion Hls. assumption. }
      intros cs. apply safe_ret. auto. }
  intros clones. eapply safe_bind; [apply safe_get_router |]. intros router.
  apply safe_pre with (P := fun _ => True); [| auto].
  apply safe_post with (Q := fun _ _ => True); [| auto].
  apply safe_for_each. intros key.
  destruct (Js.own (Router.params router) key) as [f |]; [| apply safe_ret; auto].
  eapply safe_bind.
  { apply safe_update_router. intros h r _ Hr. exact Hr. }
  intros ?. apply safe_for_each. intros l.
  apply safe_update_arrays; [apply stable_true | intros h; apply extends_param].
Qed.

Lemma safe_use (self : loc) (arguments : list Router.Arg) :
  safe (fun _ => True) (Router.use self arguments) (fun _ _ => True).
Proof.
  assert (Hat : forall args,
             safe (fun _ => True) (Router.use_at self args) (fun _ _ => True)).
  { intros args. unfold Router.use_at.
    apply safe_post with (Q := fun _ _ => True); [| auto].
    apply safe_for_each. intros m.
    destruct m as [s | items | [f | prm f | nested | ty]];
      first [apply safe_use_router | apply safe_use_plain]. }
  unfold Router.use.
  destruct arguments as [| [s | [| p0 ps] | m] rest]; try apply Hat.
  apply safe_post with (Q := fun _ _ => True); [| auto].
  apply safe_for_each. intros p. apply Hat.
Qed.

Lemma safe_exec_op (op : Config.Op) :
  from_interface op = true ->
  safe (fun _ => True) (Config.exec_op op) (fun _ _ => True).
Proof.
  intros Hop. destruct op as [o | method self args | self p ms mw o | self args
                             | self prm f | self pre]; simpl.
  - eapply safe_done. apply safe_new.
  - apply safe_verb.
  - destruct mw as [a | m]; [discriminate Hop |].
    eapply safe_done. apply safe_pre with (P := in_heap (Layer.MwSingle m)); [| simpl; auto].
    apply safe_register.
  - apply safe_use.
  - apply safe_param.
  - apply safe_set_prefix.
Qed.

Lemma configure_callable (ops : list Config.Op) (w : Router.World) :
  forallb from_interface ops = true ->
  callable_world w -> callable_world (Config.configure ops w).
Proof.
  revert w. induction ops as [| op ops IH]; intros w Hops Hw; simpl.
  - exact Hw.
  - simpl in Hops. apply andb_true_iff in Hops. destruct Hops as [Hop Hops].
    apply IH; [exact Hops |]. apply (safe_exec_op op Hop w Hw I).
Qed.

(** X17. In a world built from nothing by calls of the interface, the
    middleware array of every entry of every router holds only functions:
    the check that the layer constructor makes when an entry is created
    holds of its array after every later call, those that throw
    included. *)
Theorem entries_hold_only_functions (ops : list Config.Op) (r : Router.t) (l : Layer.t) :
  forallb from_interface ops = true ->
  In r (Router.routers (Config.configure ops Router.empty_world)) ->
  In l (Router.stack r) ->
  Layer.first_non_function
    (read_array (Router.arrays (Config.configure ops Router.empty_world)) (Layer.stack l))
  = None.
Proof.
  intros Hops Hr Hl.
  assert (Hw : callable_world (Config.configure ops Router.empty_world)).
  { apply configure_callable; [exact Hops | constructor]. }
  unfold callable_world in Hw. rewrite List.Forall_forall in Hw.
  specialize (Hw r Hr). unfold callable_router in Hw.
  rewrite List.Forall_forall in Hw. destruct (Hw l Hl) as [st [E F]].
  unfold read_array. rewrite E. exact F.
Qed.
End Callable.

Lemma entries_hold_only_functions_witness :
  let w := Examples.built Examples.mounted_param in
  Layer.first_non_function (Examples.stack_at w 1 0) = None.
Proof.
  intros w.
  refine (entries_hold_only_functions (lib := Sample.lib) Examples.mounted_param
            (Examples.router_at w 1) (Examples.layer_at w 1 0) eq_refl _ _).
  - vm_compute. right. left. reflexivity.
  - vm_compute. left. reflexivity.
Defined.

(** ** Middleware mounted without a path *)

Lemma new_around_function {lib : PathLib} (p : string) (ms : list string)
    (m : Middleware) (o : LayerOpts) (h : Heap) :
  typeof m = "function" ->
  Layer.new p ms (Layer.MwSingle m) o h
  = (inr (constructed p ms (length h) o), h ++ [[m]]).
Proof.
  intros Hm. unfold Layer.new, bind, gets, throw, ret, constructed. simpl.
  rewrite read_new_array. unfold Layer.first_non_function. simpl.
  rewrite Hm. simpl.
  destruct (pathToRegexp p o) as [re keys]. reflexivity.
Qed.

Lemma register_one_function {lib : PathLib} (w : Router.World) (self : loc)
    (r : Router.t) (p : string) (ms : list string) (m : Middleware)
    (o : Router.RegOpts) :
  Router.routers w !! self = Some r ->
  typeof m = "function" ->
  let e := entry_for r p ms (length (Router.arrays w)) o in
  Router.register_one self p ms (Layer.MwSingle m) o w
  = (inr (Router.Route e),
     {| Router.routers := alter (Router.push_layer e) self (Router.routers w);
        Router.arrays :=
          with_validators e (stored_validators r) (Router.arrays w ++ [[m]]) |}).
Proof.
  intros Hr Hm e. unfold Router.register_one, bind, Router.get_router. rewrite Hr.
  unfold Router.on_arrays. rewrite (new_around_function _ _ _ _ _ Hm).
  fold (entry_for r p ms (length (Router.arrays w)) o). fold e.
  rewrite param_loop_runs. reflexivity.
Qed.

Lemma entry_for_opts {lib : PathLib} (r : Router.t) (p : string) (ms : list string)
    (a : loc) (o : Router.RegOpts) :
  Layer.opts (entry_for r p ms a o) = Router.layer_opts r o.
Proof.
  unfold entry_for.
  destruct (Router.prefix (Router.opts r)) as [pre |]; [| reflexivity].
  destruct (Js.truthy_str pre); [| reflexivity].
  destruct (setPrefix_fields pre (constructed p ms a (Router.layer_opts r o)))
    as [_ [_ [_ H]]].
  rewrite H. reflexivity.
Qed.

(** X18. A function given to [use] without a path, on a router whose
    prefix declares no parameter, becomes an entry without methods: it
    accepts every method and never makes an exact route by itself.  Its
    binding function records no captures and leaves the parameters of the
    context as they are (an empty object when there were none). *)
Theorem use_without_path_ignores_captures {lib : PathLib} (self : loc) (r : Router.t)
    (m : Middleware) (w : Router.World) :
  Router.routers w !! self = Some r ->
  typeof m = "function" ->
  (forall nested, m <> Dispatch nested) ->
  (forall pre, Router.prefix (Router.opts r) = Some pre ->
               snd (pathToRegexp pre Router.plain_opts) = []) ->
  let done := Router.use self [Router.AFn m] w in
  exists e,
    fst done = inr tt
    /\ Router.routers (snd done) !! self = Some (Router.push_layer e r)
    /\ Layer.methods e = []
    /\ (forall method, accepts method e = true)
    /\ has_methods e = false
    /\ (forall p ctx next,
          Router.bind_layer e p ctx next = next (Router.bound e p [] ctx)
          /\ Ctx.params (Router.bound e p [] ctx) = Some (default [] (Ctx.params ctx))
          /\ Ctx.captures (Router.bound e p [] ctx) = Some []).
Proof.
  intros Hr Hm Hnot Hkeys done.
  set (o := {| Router.r_end := Some false; Router.r_name := None;
               Router.r_sensitive := false; Router.r_strict := false;
               Router.r_prefix := None; Router.r_ignoreCaptures := true |}).
  set (e := entry_for r Router.catch_all [] (length (Router.arrays w)) o).
  assert (Hdone : done
                  = (inr tt,
                     {| Router.routers := alter (Router.push_layer e) self (Router.routers w);
                        Router.arrays :=
                          with_validators e (stored_validators r)
                            (Router.arrays w ++ [[m]]) |})).
  { unfold done, Router.use, Router.use_at. simpl for_each.
    assert (Hplain : match m with
                     | Dispatch nested => Router.use_router self None nested
                     | _ => Router.use_plain self false None (Router.AFn m)
                     end = Router.use_plain self false None (Router.AFn m)).
    { destruct m as [f | prm f | nested | ty]; try reflexivity.
      exfalso. exact (Hnot nested eq_refl). }
    rewrite Hplain. unfold bind at 1.
    unfold Router.use_plain. unfold bind at 1. unfold Router.get_router. rewrite Hr.
    unfold bind at 1. unfold ret at 1. simpl Router.as_middleware.
    assert (Hflag : negb false
                    && negb (Js.truthy_opt (Router.prefix (Router.opts r))
                             && negb (length (snd (pathToRegexp
                                        (default EmptyString
                                           (Js.or_str (Router.prefix (Router.opts r))
                                                      (Some EmptyString)))
                                        Router.plain_opts)) =? 0)%nat)
                    = true).
    { simpl. apply negb_true_iff.
      destruct (Router.prefix (Router.opts r)) as [pre |] eqn:Ep; [| reflexivity].
      simpl. destruct (Js.truthy_str pre) eqn:Et; [| reflexivity].
      unfold Js.or_str. simpl. rewrite Et. simpl.
      rewrite (Hkeys pre eq_refl). reflexivity. }
    rewrite Hflag. unfold bind at 1. unfold Router.register.
    change (default Router.catch_all (Js.or_str None (Some Router.catch_all)))
      with Router.catch_all.
    fold o.
    rewrite (register_one_function w self r Router.catch_all [] m o Hr Hm).
    fold e. reflexivity. }
  destruct (entry_for_fields r Router.catch_all [] (length (Router.arrays w)) o)
    as [_ [Hmethods _]]. fold e in Hmethods.
  pose proof (entry_for_opts r Router.catch_all [] (length (Router.arrays w)) o) as Hopts.
  fold e in Hopts.
  exists e. rewrite Hdone. simpl fst. simpl snd. simpl Router.routers.
  split; [reflexivity |].
  split; [rewrite list_lookup_alter_eq, Hr; reflexivity |].
  split; [exact Hmethods |].
  split; [intros method; unfold accepts; rewrite Hmethods; reflexivity |].
  split; [unfold has_methods; rewrite Hmethods; reflexivity |].
  intros p ctx next. unfold Router.bind_layer, Layer.captures. rewrite Hopts. simpl.
    split; [reflexivity |]. split; reflexivity.
Qed.

Lemma use_without_path_ignores_captures_witness :
  let w := Examples.built Examples.one_router in
  let done := Router.use (lib := Sample.lib) 0 [Router.AFn (Fn 1)] w in
  exists e,
    fst done = inr tt
    /\ Router.routers (snd done) !! 0 = Some (Router.push_layer e (Examples.router_at w 0))
    /\ Layer.methods e = []
    /\ (forall method, accepts method e = true)
    /\ has_methods e = false
    /\ (forall p ctx next,
          Router.bind_layer e p ctx next = next (Router.bound e p [] ctx)
          /\ Ctx.params (Router.bound e p [] ctx) = Some (default [] (Ctx.params ctx))
          /\ Ctx.captures (Router.bound e p [] ctx) = Some []).
Proof.
  intros w.
  refine (use_without_path_ignores_captures (lib := Sample.lib) 0
            (Examples.router_at w 0) (Fn 1) w eq_refl eq_refl _ _).
  - intros nested. discriminate.
  - intros pre H. discriminate H.
Defined.

(** ** Validators on entries with arrays of their own *)

Lemma param_stack_nil (names : list KeyName) (prm : string) (f : FnId) :
  Layer.param_stack names prm f [] = [].
Proof.
  unfold Layer.param_stack. destruct (_ >? _)%Z; reflexivity.
Qed.

Lemma read_after_param (l : Layer.t) (prm : string) (f : FnId) (h : Heap) :
  read_array (Layer.param l prm f h) (Layer.stack l)
  = Layer.param_stack (Layer.paramNames l) prm f (read_array h (Layer.stack l)).
Proof.
  unfold Layer.param, read_array.
  destruct (h !! Layer.stack l) as [st |] eqn:E; simpl.
  - rewrite list_lookup_insert_eq; [reflexivity |].
    apply lookup_lt_is_Some. eexists. exact E.
  - rewrite list_insert_ge by (apply lookup_ge_None; exact E).
    rewrite E. simpl. symmetry. apply param_stack_nil.
Qed.

Lemma lookup_after_param (l : Layer.t) (prm : string) (f : FnId) (h : Heap) (a : loc) :
  Layer.stack l <> a -> Layer.param l prm f h !! a = h !! a.
Proof.
  intros H. unfold Layer.param. apply list_lookup_insert_ne. exact H.
Qed.

Lemma param_over_distinct_stacks (prm : string) (f : FnId) (ls : list Layer.t) :
  NoDup (map Layer.stack ls) ->
  forall h,
    (forall l, In l ls ->
       read_array (fold_left (fun h l => Layer.param l prm f h) ls h) (Layer.stack l)
       = Layer.param_stack (Layer.paramNames l) prm f (read_array h (Layer.stack l)))
    /\ (forall a, ~ In a (map Layer.stack ls) ->
          fold_left (fun h l => Layer.param l prm f h) ls h !! a = h !! a).
Proof.
  induction ls as [| l0 ls IH]; intros Hnd h.
  - split; [intros l [] | reflexivity].
  - simpl map in Hnd. apply NoDup_cons in Hnd. destruct Hnd as [Hout Hnd].
    destruct (IH Hnd (Layer.param l0 prm f h)) as [Hin Hfr]. simpl fold_left.
    split.
    + intros l [<- | Hl].
      * unfold read_array at 1. rewrite Hfr.
        -- apply read_after_param.
        -- intros Hc. apply Hout. apply list_elem_of_In. exact Hc.
      * rewrite (Hin l Hl). f_equal. unfold read_array.
        rewrite lookup_after_param; [reflexivity |].
        intros E. apply Hout. rewrite E. apply list_elem_of_In, in_map. exact Hl.
    + intros a Ha. rewrite Hfr.
      * apply lookup_after_param. intros E. apply Ha. left. exact E.
      * intros Hc. apply Ha. right. exact Hc.
Qed.

(** X19. On a router that exists and whose entries refer to middleware
    arrays that are all different, [param] does not throw, stores the
    validator under the name in the router, and runs the insertion of
    [Layer.prototype.param] exactly once on the array of each entry, with
    the parameter names of that entry; every other array is left as it
    was. *)
Theorem param_reaches_each_entry_once (w : Router.World) (self : loc) (r : Router.t)
    (prm : string) (f : FnId) :
  Router.routers w !! self = Some r ->
  NoDup (map Layer.stack (Router.stack r)) ->
  let done := Router.param self prm f w in
  fst done = inr tt
  /\ Router.routers (snd done) = alter (Router.set_param prm f) self (Router.routers w)
  /\ (forall l, In l (Router.stack r) ->
        read_array (Router.arrays (snd done)) (Layer.stack l)
        = Layer.param_stack (Layer.paramNames l) prm f
            (read_array (Router.arrays w) (Layer.stack l)))
  /\ (forall a, (forall l, In l (Router.stack r) -> Layer.stack l <> a) ->
        Router.arrays (snd done) !! a = Router.arrays w !! a).
Proof.
  intros Hr Hnd done.
  assert (E : done
              = (inr tt,
                 {| Router.routers := alter (Router.set_param prm f) self (Router.routers w);
                    Router.arrays :=
                      fold_left (fun h l => Layer.param l prm f h) (Router.stack r)
                                (Router.arrays w) |})).
  { unfold done, Router.param, bind, Router.update_router, modify, Router.get_router.
    cbv beta. cbn [Router.routers Router.arrays].
    rewrite list_lookup_alter_eq, Hr. cbn [fmap option_fmap option_map].
    rewrite for_each_update_arrays. reflexivity. }
  rewrite E. simpl fst. simpl snd. cbn [Router.routers Router.arrays].
  destruct (param_over_distinct_stacks prm f (Router.stack r) Hnd (Router.arrays w))
    as [Hin Hfr].
  split; [reflexivity |]. split; [reflexivity |]. split; [exact Hin |].
  intros a Ha. apply Hfr. intros Hc. apply in_map_iff in Hc.
  destruct Hc as [l [El Hl]]. exact (Ha l Hl El).
Qed.

Lemma param_reaches_each_entry_once_witness :
  let w := Examples.built Examples.named_user in
  let done := Router.param 0 "id" 7 w in
  fst done = inr tt
  /\ Examples.stack_at (snd done) 0 0 = [ParamFn "id" 7; Fn 1]
  /\ Examples.stack_at (snd done) 0 1 = [ParamFn "id" 7; Fn 2].
Proof.
  intros w.
  destruct (param_reaches_each_entry_once w 0 (Examples.router_at w 0) "id" 7 eq_refl)
    as [Hres _].
  - vm_compute.
    constructor;
      [intros H; apply list_elem_of_In in H; destruct H as [H | []]; discriminate H |].
    constructor; [intros H; apply list_elem_of_In in H; destruct H | constructor].
  - split; [exact Hres |]. split; reflexivity.
Defined.

(** ** An array of paths *)

Lemma with_validators_extends {lib : PathLib} (e : Layer.t) (vals : list (string * FnId))
    (h : Heap) :
  extends h (with_validators e vals h).
Proof.
  unfold with_validators. revert h.
  induction vals as [| pf vals IH]; intros h; simpl.
  - apply extends_refl.
  - eapply extends_trans; [apply extends_param | apply IH].
Qed.

Lemma function_array_read (h : Heap) (a : loc) :
  function_array h a -> Layer.first_non_function (read_array h a) = None.
Proof.
  intros [st [E F]]. unfold read_array. rewrite E. exact F.
Qed.

Lemma entry_for_same_options {lib : PathLib} (r r0 : Router.t) (p : string)
    (ms : list string) (a : loc) (o : Router.RegOpts) :
  Router.opts r0 = Router.opts r -> entry_for r0 p ms a o = entry_for r p ms a o.
Proof.
  intros H. unfold entry_for, Router.layer_opts. rewrite H. reflexivity.
Qed.

Lemma stored_validators_same_params (r r0 : Router.t) :
  Router.params r0 = Router.params r -> stored_validators r0 = stored_validators r.
Proof.
  intros H. unfold stored_validators. rewrite H. reflexivity.
Qed.

Lemma register_paths_runs {lib : PathLib} (self : loc) (r : Router.t) (ms : list string)
    (a : loc) (o : Router.RegOpts) (ps : list string) :
  forall (w0 : Router.World) (r0 : Router.t),
    Router.routers w0 !! self = Some r0 ->
    Router.opts r0 = Router.opts r ->
    Router.params r0 = Router.params r ->
    function_array (Router.arrays w0) a ->
    for_each ps (fun curPath =>
                   bind (Router.register_one self curPath ms (Layer.MwArray a) o)
                        (fun _ => ret tt)) w0
    = (inr tt,
       {| Router.routers :=
            alter (push_layers (map (fun p => entry_for r p ms a o) ps)) self
                  (Router.routers w0);
          Router.arrays :=
            fold_left (fun h p => with_validators (entry_for r p ms a o)
                                    (stored_validators r) h)
                      ps (Router.arrays w0) |}).
Proof.
  induction ps as [| p ps IH]; intros w0 r0 H0 Ho Hp Hfa.
  - simpl. unfold ret. rewrite list_alter_id; [| reflexivity].
    destruct w0; reflexivity.
  - simpl for_each. unfold bind at 1. unfold bind at 1.
    rewrite (register_one_succeeds w0 self r0 p ms a o H0 (function_array_read _ _ Hfa)).
    rewrite (entry_for_same_options r r0 p ms a o Ho),
            (stored_validators_same_params r r0 Hp).
    unfold ret at 1.
    erewrite IH.
    + simpl. rewrite list_alter_alter_eq. reflexivity.
    + simpl. rewrite list_lookup_alter_eq, H0. reflexivity.
    + simpl. exact Ho.
    + simpl. exact Hp.
    + simpl. apply (with_validators_extends _ _ _). exact Hfa.
Qed.

(** X20. A verb method given an array of paths and functions adds one
    entry for each path, in the order of the array, after the entries the
    router has; the entries are without a name, carry the method list of
    the verb, and all refer to one and the same new middleware array, the
    copy of the function arguments. *)
Theorem array_of_paths_shares_one_stack {lib : PathLib} (method : string) (self : loc)
    (r : Router.t) (ps : list string) (m : Middleware) (rest : list Router.Arg)
    (w : Router.World) :
  Router.routers w !! self = Some r ->
  Layer.first_non_function (m :: map Router.as_middleware rest) = None ->
  let done := Router.verb method self (Router.AArr ps :: Router.AFn m :: rest) w in
  exists added,
    fst done = inr tt
    /\ Router.routers (snd done) !! self = Some (push_layers added r)
    /\ added = map (fun p => entry_for r p [method] (length (Router.arrays w))
                                       Router.no_opts) ps
    /\ Router.stack (push_layers added r) = Router.stack r ++ added
    /\ Forall (fun e => Layer.stack e = length (Router.arrays w)
                        /\ Layer.methods e = Layer.build_methods [method]
                        /\ Layer.name e = None) added.
Proof.
  intros Hr Hfn done.
  set (a := length (Router.arrays w)).
  set (w1 := {| Router.routers := Router.routers w;
                Router.arrays := Router.arrays w
                                 ++ [m :: map Router.as_middleware rest] |}).
  set (added := map (fun p => entry_for r p [method] a Router.no_opts) ps).
  assert (E : done
              = (inr tt,
                 {| Router.routers := alter (push_layers added) self (Router.routers w);
                    Router.arrays :=
                      fold_left (fun h p => with_validators
                                              (entry_for r p [method] a Router.no_opts)
                                              (stored_validators r) h)
                                ps (Router.arrays w1) |})).
  { unfold done, Router.verb.
    change ((Router.AArr ps :: Router.AFn m :: rest) !! 1) with (Some (Router.AFn m)).
    change ((Router.AArr ps :: Router.AFn m :: rest) !! 0) with (Some (Router.AArr ps)).
    cbv iota beta. unfold bind at 1. rewrite slice_arguments_runs.
    change (map Router.as_middleware (drop 1 (Router.AArr ps :: Router.AFn m :: rest)))
      with (m :: map Router.as_middleware rest).
    fold w1. fold a. unfold Router.register. unfold bind at 1. unfold bind at 1.
    rewrite (register_paths_runs self r [method] a Router.no_opts ps w1 r Hr eq_refl eq_refl).
    - reflexivity.
    - exists (m :: map Router.as_middleware rest). split; [| exact Hfn].
      unfold w1, a. simpl. apply list_lookup_middle. reflexivity. }
  exists added. rewrite E. simpl fst. simpl snd. simpl Router.routers.
  split; [reflexivity |].
  split; [rewrite list_lookup_alter_eq, Hr; reflexivity |].
  split; [reflexivity |].
  split; [apply push_layers_stack |].
  unfold added. apply Forall_forall. intros e He.
  apply list_elem_of_In, in_map_iff in He. destruct He as [p [<- _]].
  destruct (entry_for_fields r p [method] a Router.no_opts) as [H1 [H2 H3]].
  auto.
Qed.

Lemma array_of_paths_shares_one_stack_witness :
  let w := Examples.built Examples.one_router in
  let done := Router.verb (lib := Sample.lib) "get" 0
                [Router.AArr ["/a/:id"; "/b"]; Router.AFn (Fn 1)] w in
  exists added,
    fst done = inr tt
    /\ Router.routers (snd done) !! 0 = Some (push_layers added (Examples.router_at w 0))
    /\ added = map (fun p => entry_for (lib := Sample.lib) (Examples.router_at w 0)
                                       p ["get"] (length (Router.arrays w))
                                       Router.no_opts)
                   ["/a/:id"; "/b"]
    /\ Router.stack (push_layers added (Examples.router_at w 0))
       = Router.stack (Examples.router_at w 0) ++ added
    /\ Forall (fun e => Layer.stack e = length (Router.arrays w)
                        /\ Layer.methods e = Layer.build_methods ["get"]
                        /\ Layer.name e = None) added.
Proof.
  intros w.
  exact (array_of_paths_shares_one_stack (lib := Sample.lib) "get" 0
           (Examples.router_at w 0) ["/a/:id"; "/b"] (Fn 1) [] w eq_refl eq_refl).
Defined.
